(** * Roomiefy messaging service: model and properties

    A shallow embedding of [messaging_service/app] (db.py, schemas.py,
    main.py) and of [messaging_service/seed.py]: the three tables of the
    store, the REST handlers that list and create conversations, list
    and send messages, mark them read and set their status, the seeding
    of demo conversations, the per-room connection manager and the
    websocket endpoint.

    Conventions.
    - Python [int] is [Z]; [str] is [string]; a missing value ([None])
      is [option].
    - A table is the list of its rows in insertion order; a query
      without ORDER BY returns rows in that order, and [.first()] is the
      head of the result.
    - The store is the engine db.py configures by default: SQLite, where
      the unique constraint [uq_conv_user] is enforced and foreign keys
      are not.
    - An exception is a value: a handler returns [Raise e] or
      [Return a], together with the committed state.
    - An INTEGER column of SQLite holds a signed 64-bit integer, and
      the driver refuses to bind a Python [int] outside that range: the
      statement raises OverflowError. The ids a handler receives from
      the path are any [int], so a lookup by such an id has that
      outcome. No row carries an id out of the range, so a lookup is
      written as the test on the rows followed, when no row matches, by
      the test on the range. *)

From Stdlib Require Import ZArith Ascii String List Bool Lia.
From stdpp Require Import gmap strings list fin_maps fin_sets sorting.

Local Open Scope string_scope.
Local Open Scope list_scope.

(** ** Python helpers *)

(** [not s] for a string that may be [None]. *)
Definition falsy (s : option string) : bool :=
  match s with
  | None => true
  | Some s => String.eqb s ""
  end.

(** [l[i]] for a Python list: negative indices count from the end and an
    index out of range raises IndexError ([None]). *)
Definition getitem {A} (l : list A) (i : Z) : option A :=
  let n := Z.of_nat (length l) in
  if (0 <=? i)%Z then nth_error l (Z.to_nat i)
  else if (- n <=? i)%Z then nth_error l (Z.to_nat (n + i))
  else None.

(** ** db.py: the tables *)

Record Conversation := {
  conv_id : Z;
  conv_name : option string
}.

Record ConversationParticipant := {
  cp_conversation_id : Z;
  cp_user_id : string
}.

Record Message := {
  msg_id : Z;
  msg_conversation_id : Z;
  msg_sender_id : string;
  msg_content : string;
  msg_timestamp : Z;
  msg_status : string;
  msg_is_read : bool
}.

Record DB := {
  conversations : list Conversation;
  participants : list ConversationParticipant;
  messages : list Message
}.

Definition empty_db : DB :=
  {| conversations := []; participants := []; messages := [] |}.

(** The integer primary key given to a new row: one more than the
    largest in the table. *)
Definition fresh_id (ids : list Z) : Z :=
  (1 + fold_right Z.max 0 ids)%Z.

(** [Message(conversation_id=.., sender_id=.., content=..)] once
    inserted: the column defaults give status "sent" and is_read False,
    the server default gives the timestamp. *)
Definition new_message (db : DB) (conversation_id : Z) (sender_id content : string)
    (now : Z) : Message :=
  {| msg_id := fresh_id (List.map msg_id (messages db));
     msg_conversation_id := conversation_id;
     msg_sender_id := sender_id;
     msg_content := content;
     msg_timestamp := now;
     msg_status := "sent";
     msg_is_read := false |}.

Definition add_message (db : DB) (m : Message) : DB :=
  {| conversations := conversations db;
     participants := participants db;
     messages := messages db ++ [m] |}.

Definition conversation_exists (db : DB) (conversation_id : Z) : bool :=
  existsb (fun c => (conv_id c =? conversation_id)%Z) (conversations db).

(** The participant lookup of send_message and mark_conversation_read:
    is there a row for this conversation and this user. *)
Definition is_participant (db : DB) (conversation_id : Z) (user_id : string) : bool :=
  existsb (fun p => (cp_conversation_id p =? conversation_id)%Z
                    && String.eqb (cp_user_id p) user_id)
          (participants db).

(** The users of a conversation, one per row. *)
Definition participants_of (db : DB) (conversation_id : Z) : list string :=
  List.map cp_user_id
    (List.filter (fun p => (cp_conversation_id p =? conversation_id)%Z) (participants db)).

(** The foreign key of conversation_participants, as a property of a
    state: every row names a conversation of the table. *)
Definition participants_reference_conversations (db : DB) : Prop :=
  ∀ p, In p (participants db) → conversation_exists db (cp_conversation_id p) = true.

(** ** Exceptions and HTTP errors *)

Inductive Exception :=
| HTTPException (status_code : Z)
| IntegrityError
| IndexError
| RuntimeError
| OverflowError.

(** The integers the driver binds to a statement: those of a signed
    64-bit INTEGER. Binding any other raises OverflowError. *)
Definition int64 (i : Z) : bool :=
  (- 2 ^ 63 <=? i)%Z && (i <? 2 ^ 63)%Z.

Inductive Result (A : Type) :=
| Raise (e : Exception)
| Return (a : A).
Arguments Raise {A} e.
Arguments Return {A} a.

Inductive ErrorKind := NotFound | Forbidden | Validation | Internal.

(** The error kind a caller sees for an exception that leaves a handler:
    FastAPI answers an HTTPException with its status code and anything
    else with 500. *)
Definition error_kind (e : Exception) : ErrorKind :=
  match e with
  | HTTPException 404 => NotFound
  | HTTPException 403 => Forbidden
  | HTTPException 400 => Validation
  | HTTPException 422 => Validation
  | _ => Internal
  end.

(** ** main.py: CHAT_NAMES and the name of a conversation *)

Definition CHAT_NAMES : list string :=
  [ "Karla Rodríguez"; "Jorge Méndez"; "Diego Fernández"; "Sofía Castillo";
    "Valeria Jiménez"; "Andrés Navarro"; "Mariana Solano"; "Luis Pineda";
    "Camila Herrera"; "Fernando Rojas"; "Laura Chacón"; "Daniel Salas";
    "Gabriela Montoya"; "Pablo Araya"; "Natalia Cordero"; "Ricardo Vargas";
    "Alejandra Pacheco"; "Sebastián Quesada"; "Mónica Zamora"; "Javier Aguirre";
    "Paola Segura"; "Martín Esquivel"; "Lucía Morales"; "Cristian Barboza";
    "Andrea Céspedes"; "Felipe Marín"; "Daniela Campos"; "Marco Leiva" ].

(** [catalog[(id - 1) % len(catalog)]]; the remainder has the sign of
    the divisor, as in Python, and an empty catalog raises. *)
Definition assign_name (catalog : list string) (id : Z) : option string :=
  match catalog with
  | [] => None
  | _ => getitem catalog ((id - 1) mod Z.of_nat (length catalog))
  end.

Definition name_index (id : Z) : Z :=
  ((id - 1) mod Z.of_nat (length CHAT_NAMES))%Z.

Definition chat_name (id : Z) : option string :=
  getitem CHAT_NAMES (name_index id).

(** ** An error monad for the bodies of try blocks *)

Definition bind {A B} (r : Result A) (k : A → Result B) : Result B :=
  match r with
  | Raise e => Raise e
  | Return a => k a
  end.

Notation "'let*' x ':=' e 'in' k" := (bind e (fun x => k))
  (at level 10, x name, e at level 100, k at level 200).

Definition or_raise {A} (e : Exception) (o : option A) : Result A :=
  match o with
  | Some a => Return a
  | None => Raise e
  end.

(** ** main.py: create_conversation *)

Record CreateConversationIn := {
  participantId : string;
  currentUserId : string;
  initialMessage : option string
}.

(** The grouped subquery, read at one conversation: the number of
    distinct user ids among the rows of the conversation whose user is
    one of [users]. *)
Definition user_count (db : DB) (users : list string) (conversation_id : Z) : nat :=
  length (nodup string_dec
            (List.filter (fun u => existsb (String.eqb u) users)
                         (participants_of db conversation_id))).

(** The join of conversations with the subquery, filtered on
    [user_count == 2], [.first()]. *)
Definition existing_conv (db : DB) (currentUser participant : string) : option Conversation :=
  List.find (fun c => Nat.eqb (user_count db [currentUser; participant] (conv_id c)) 2)
            (conversations db).

Definition same_row (p q : ConversationParticipant) : bool :=
  (cp_conversation_id p =? cp_conversation_id q)%Z
  && String.eqb (cp_user_id p) (cp_user_id q).

(** INSERT into conversation_participants under [uq_conv_user]. *)
Definition insert_participant (db : DB) (p : ConversationParticipant) : Result DB :=
  if existsb (same_row p) (participants db) then Raise IntegrityError
  else Return {| conversations := conversations db;
                 participants := participants db ++ [p];
                 messages := messages db |}.

Definition insert_conversation (db : DB) (c : Conversation) : DB :=
  {| conversations := conversations db ++ [c];
     participants := participants db;
     messages := messages db |}.

Definition set_conversation_name (db : DB) (conversation_id : Z) (name : string) : DB :=
  {| conversations :=
       List.map (fun c => if (conv_id c =? conversation_id)%Z
                          then {| conv_id := conv_id c; conv_name := Some name |}
                          else c)
                (conversations db);
     participants := participants db;
     messages := messages db |}.

(** The body of the try block: the conversation returned and the state
    to commit. *)
Definition create_conversation_try (payload : CreateConversationIn) (now : Z) (db : DB)
    : Result (Conversation * DB) :=
  match existing_conv db (currentUserId payload) (participantId payload) with
  | Some conv => Return (conv, db)
  | None =>
      let id := fresh_id (List.map conv_id (conversations db)) in
      let db1 := insert_conversation db {| conv_id := id; conv_name := None |} in
      let* db2 := insert_participant db1
               {| cp_conversation_id := id; cp_user_id := participantId payload |} in
      let* db3 := insert_participant db2
               {| cp_conversation_id := id; cp_user_id := currentUserId payload |} in
      let db4 :=
        match initialMessage payload with
        | Some text =>
            if String.eqb text "" then db3
            else add_message db3 (new_message db3 id (currentUserId payload) text now)
        | None => db3
        end in
      let* name := or_raise IndexError (chat_name id) in
      Return ({| conv_id := id; conv_name := Some name |},
              set_conversation_name db4 id name)
  end.

(** The handler: an exception of the body rolls the transaction back
    and leaves as a 500. *)
Definition create_conversation (payload : CreateConversationIn) (now : Z) (db : DB)
    : Result Conversation * DB :=
  match create_conversation_try payload now db with
  | Return (conv, db') => (Return conv, db')
  | Raise _ => (Raise (HTTPException 500), db)
  end.

(** ** main.py: ConnectionManager *)

Definition WebSocket := nat.

Abbreviation ConnectionManager := (gmap Z (gset WebSocket)).

(** The dictionaries sent on the live channel. *)
Inductive Payload :=
| MessagePayload (id : Z) (sender : option string) (sender_id content : string)
                 (timestamp : Z) (status : string)
| MessagesRead (conversation_id : Z) (user_id : string) (count : nat)
| ErrorPayload (error : string).

(** [self.active_connections.get(room_id, [])] as a set. *)
Definition sessions (m : ConnectionManager) (room_id : Z) : gset WebSocket :=
  default ∅ (m !! room_id).

(** [setdefault(room_id, set()).add(websocket)], after the accept. *)
Definition connect (room_id : Z) (websocket : WebSocket) (m : ConnectionManager)
    : ConnectionManager :=
  <[room_id := {[websocket]} ∪ sessions m room_id]> m.

Definition disconnect (room_id : Z) (websocket : WebSocket) (m : ConnectionManager)
    : ConnectionManager :=
  match m !! room_id with
  | Some conns =>
      if decide (conns ≠ ∅ ∧ websocket ∈ conns) then
        let conns' := conns ∖ {[websocket]} in
        if decide (conns' = ∅) then delete room_id m
        else <[room_id := conns']> m
      else m
  | None => m
  end.

Section Broadcast.
(** Whether [ws.send_json] returns for a session, or raises. *)
Variable send_ok : WebSocket → bool.

(** One turn of the loop of broadcast, on the manager and the log of
    what was delivered. *)
Definition send_json_or_disconnect (room_id : Z) (message : Payload)
    (st : ConnectionManager * list (WebSocket * Payload)) (ws : WebSocket)
    : ConnectionManager * list (WebSocket * Payload) :=
  if send_ok ws then (st.1, st.2 ++ [(ws, message)])
  else (disconnect room_id ws st.1, st.2).

(** The loop runs over a copy of the room's set taken at the call. *)
Definition broadcast (room_id : Z) (message : Payload) (m : ConnectionManager)
    : ConnectionManager * list (WebSocket * Payload) :=
  foldl (send_json_or_disconnect room_id message) (m, [])
        (elements (sessions m room_id)).
End Broadcast.

(** ** The service: store, manager and what the sessions received *)

Record World := {
  w_db : DB;
  w_manager : ConnectionManager;
  w_delivered : list (WebSocket * Payload)
}.

Definition commit (w : World) (db : DB) : World :=
  {| w_db := db; w_manager := w_manager w; w_delivered := w_delivered w |}.

Definition run_broadcast (send_ok : WebSocket → bool) (room_id : Z) (message : Payload)
    (w : World) : World :=
  let r := broadcast send_ok room_id message (w_manager w) in
  {| w_db := w_db w; w_manager := r.1; w_delivered := w_delivered w ++ r.2 |}.

(** ** main.py: send_message *)

(** schemas.py, MessageCreate: two strings, with no further constraint. *)
Record MessageCreate := {
  body_content : string;
  body_sender_id : string
}.

(** The handler has no try block: what the participant lookup raises
    for an id the driver cannot bind leaves the handler as it is, and
    the caller gets a 500. *)
Definition send_message (send_ok : WebSocket → bool) (conversation_id : Z)
    (body : MessageCreate) (now : Z) (w : World) : Result Message * World :=
  if negb (is_participant (w_db w) conversation_id (body_sender_id body)) then
    if int64 conversation_id then (Raise (HTTPException 403), w)
    else (Raise OverflowError, w)
  else
    let msg := new_message (w_db w) conversation_id (body_sender_id body)
                           (body_content body) now in
    let w1 := commit w (add_message (w_db w) msg) in
    let payload := MessagePayload (msg_id msg) None (msg_sender_id msg) (msg_content msg)
                                  (msg_timestamp msg) (msg_status msg) in
    (Return msg, run_broadcast send_ok conversation_id payload w1).

(** ** main.py: mark_conversation_read *)

(** The WHERE clause of the bulk update. *)
Definition unread_from_others (conversation_id : Z) (user_id : string) (m : Message) : bool :=
  (msg_conversation_id m =? conversation_id)%Z
  && negb (String.eqb (msg_sender_id m) user_id)
  && negb (msg_is_read m).

(** The SET clause: [{Message.is_read: True, Message.status: 'read'}]. *)
Definition set_read (m : Message) : Message :=
  {| msg_id := msg_id m;
     msg_conversation_id := msg_conversation_id m;
     msg_sender_id := msg_sender_id m;
     msg_content := msg_content m;
     msg_timestamp := msg_timestamp m;
     msg_status := "read";
     msg_is_read := true |}.

(** [query.filter(..).update(..)]: the number of rows matched and the
    table after the update. *)
Definition update_read (conversation_id : Z) (user_id : string) (db : DB) : nat * DB :=
  (length (List.filter (unread_from_others conversation_id user_id) (messages db)),
   {| conversations := conversations db;
      participants := participants db;
      messages := List.map (fun m => if unread_from_others conversation_id user_id m
                                     then set_read m else m)
                           (messages db) |}).

Record ReadOut := {
  ok : bool;
  updated_count : nat;
  out_conversation_id : Z
}.

(** The body of the try block. [from_thread_ok] says whether the
    statement [await anyio.from_thread.run(manager.broadcast, ..)] runs
    the broadcast and completes, or raises before it.
    [anyio.from_thread.run] is to be called from a worker thread and
    raises RuntimeError anywhere else. The handler is an [async def],
    which FastAPI runs on the event loop and not in a worker thread
    (send_message, a plain [def], runs in one): in the service the
    statement raises, and the handler is the instance
    [from_thread_ok = false]. The value [true] is what the statement
    would do in a worker thread.
    An id the driver cannot bind raises OverflowError at the first
    query, where the model raises the 404: both are raised inside the
    try block and leave it as the same 500. *)
Definition mark_conversation_read_try (send_ok : WebSocket → bool) (from_thread_ok : bool)
    (conversation_id : Z) (user_id : string) (w : World) : Result ReadOut * World :=
  if negb (conversation_exists (w_db w) conversation_id) then
    (Raise (HTTPException 404), w)
  else if negb (is_participant (w_db w) conversation_id user_id) then
    (Raise (HTTPException 403), w)
  else
    let r := update_read conversation_id user_id (w_db w) in
    let result := r.1 in
    let w1 := commit w r.2 in
    let out := {| ok := true; updated_count := result;
                  out_conversation_id := conversation_id |} in
    if (0 <? result)%nat then
      if from_thread_ok then
        (Return out,
         run_broadcast send_ok conversation_id
                       (MessagesRead conversation_id user_id result) w1)
      else (Raise RuntimeError, w1)
    else (Return out, w1).

(** The handler: the user id is checked before the try block; inside
    it, [except Exception] catches whatever is raised, the HTTP errors
    of the two checks included, rolls back what is not committed and
    raises a 500. *)
Definition mark_conversation_read (send_ok : WebSocket → bool) (from_thread_ok : bool)
    (conversation_id : Z) (user_id : option string) (w : World) : Result ReadOut * World :=
  match user_id with
  | None => (Raise (HTTPException 400), w)
  | Some user =>
      if String.eqb user "" then (Raise (HTTPException 400), w)
      else
        match mark_conversation_read_try send_ok from_thread_ok conversation_id user w with
        | (Raise _, w') => (Raise (HTTPException 500), w')
        | (Return out, w') => (Return out, w')
        end
  end.

(** ** main.py: update_message_status *)

Definition set_status (status : string) (m : Message) : Message :=
  {| msg_id := msg_id m;
     msg_conversation_id := msg_conversation_id m;
     msg_sender_id := msg_sender_id m;
     msg_content := msg_content m;
     msg_timestamp := msg_timestamp m;
     msg_status := status;
     msg_is_read := msg_is_read m |}.

Definition update_message_status (message_id : Z) (status : string) (db : DB)
    : Result unit * DB :=
  if existsb (fun m => (msg_id m =? message_id)%Z) (messages db) then
    (Return tt,
     {| conversations := conversations db;
        participants := participants db;
        messages := List.map (fun m => if (msg_id m =? message_id)%Z
                                       then set_status status m else m)
                             (messages db) |})
  else if int64 message_id then (Raise (HTTPException 404), db)
  else (Raise OverflowError, db).

(** ** main.py: websocket_endpoint *)

(** What [data.get("content")] and [data.get("sender_id")] give for an
    inbound JSON object whose fields, when present, are strings. *)
Record Inbound := {
  in_content : option string;
  in_sender_id : option string
}.

(** What a turn of the loop leaves: the loop goes on, or an exception
    ends the endpoint. *)
Inductive Turn :=
| Continue
| Closed (e : Exception).

(** [await websocket.send_json({"error": ..})] then [continue]. An
    exception of the send reaches [except Exception]: the session is
    disconnected and the exception raised again. *)
Definition reply_error (send_ok : WebSocket → bool) (room_id : Z)
    (websocket : WebSocket) (w : World) : Turn * World :=
  if send_ok websocket then
    (Continue,
     {| w_db := w_db w; w_manager := w_manager w;
        w_delivered := w_delivered w
          ++ [(websocket, ErrorPayload "content and sender_id required")] |})
  else
    (Closed RuntimeError,
     {| w_db := w_db w; w_manager := disconnect room_id websocket (w_manager w);
        w_delivered := w_delivered w |}).

(** One turn of the [while True] loop, for a received [data]: the
    message is stored and broadcast when [content] and [sender_id] are
    both truthy. The room id is taken among the ids the store can
    hold. *)
Definition websocket_turn (send_ok : WebSocket → bool) (room_id : Z)
    (websocket : WebSocket) (data : Inbound) (now : Z) (w : World) : Turn * World :=
  match in_content data, in_sender_id data with
  | Some content, Some sender_id =>
      if falsy (Some content) || falsy (Some sender_id) then
        reply_error send_ok room_id websocket w
      else
        let msg := new_message (w_db w) room_id sender_id content now in
        let w1 := commit w (add_message (w_db w) msg) in
        let payload := MessagePayload (msg_id msg) (Some sender_id) sender_id
                                      (msg_content msg) (msg_timestamp msg)
                                      (msg_status msg) in
        (Continue, run_broadcast send_ok room_id payload w1)
  | _, _ => reply_error send_ok room_id websocket w
  end.

(** The endpoint for a session: register, run the turns for the events
    the client sends, and unregister when the client leaves
    (WebSocketDisconnect) or a turn raised. *)
Fixpoint websocket_loop (send_ok : WebSocket → bool) (room_id : Z) (websocket : WebSocket)
    (inbox : list (Inbound * Z)) (w : World) : World :=
  match inbox with
  | [] => {| w_db := w_db w; w_manager := disconnect room_id websocket (w_manager w);
             w_delivered := w_delivered w |}
  | (data, now) :: rest =>
      match websocket_turn send_ok room_id websocket data now w with
      | (Continue, w') => websocket_loop send_ok room_id websocket rest w'
      | (Closed _, w') => w'
      end
  end.

Definition websocket_endpoint (send_ok : WebSocket → bool) (room_id : Z)
    (websocket : WebSocket) (inbox : list (Inbound * Z)) (w : World) : World :=
  websocket_loop send_ok room_id websocket inbox
    {| w_db := w_db w; w_manager := connect room_id websocket (w_manager w);
       w_delivered := w_delivered w |}.

(** ** main.py: the read endpoints *)

(** The order of [Message.timestamp.asc()] and of
    [Message.timestamp.desc()]. Rows with equal timestamps come in an
    order the query does not fix; the sort used here is one of them. *)
Definition earlier (m m' : Message) : Prop :=
  (msg_timestamp m ≤ msg_timestamp m')%Z.

Definition later (m m' : Message) : Prop :=
  (msg_timestamp m' ≤ msg_timestamp m)%Z.

#[global] Instance earlier_dec : RelDecision earlier.
Proof. intros m m'. unfold earlier. apply _. Defined.

#[global] Instance later_dec : RelDecision later.
Proof. intros m m'. unfold later. apply _. Defined.

(** [db.query(Message).filter(Message.conversation_id == ..)]. *)
Definition messages_of (db : DB) (conversation_id : Z) : list Message :=
  List.filter (fun m => (msg_conversation_id m =? conversation_id)%Z) (messages db).

(** GET /conversations/{id}/messages: the rows of the response. A
    MessageOut has the columns of the row under other names; the rows
    stand for them. *)
Definition get_messages (conversation_id : Z) (db : DB) : list Message :=
  merge_sort earlier (messages_of db conversation_id).

(** The outcome of the request: the rows, for an id the driver binds. *)
Definition get_messages_response (conversation_id : Z) (db : DB)
    : Result (list Message) :=
  if int64 conversation_id then Return (get_messages conversation_id db)
  else Raise OverflowError.

Record ConversationDetailOut := {
  detail_id : Z;
  detail_messages : list Message
}.

(** GET /conversations/{id}. *)
Definition get_conversation (conversation_id : Z) (db : DB) : Result ConversationDetailOut :=
  if conversation_exists db conversation_id then
    Return {| detail_id := conversation_id;
              detail_messages := merge_sort earlier (messages_of db conversation_id) |}
  else if int64 conversation_id then Raise (HTTPException 404)
  else Raise OverflowError.

(** schemas.py, ConversationOut. *)
Record ConversationOut := {
  summary_id : Z;
  summary_name : option string;
  summary_avatar : option string;
  summary_lastMessage : option string;
  summary_lastMessageTime : option string
}.

(** The first row of the messages of a conversation, latest first. *)
Definition last_msg (db : DB) (conversation_id : Z) : option Message :=
  head (merge_sort later (messages_of db conversation_id)).

(** [os.getenv("ENABLE_AUTO_SEED", "true").lower() in ("1", "true",
    "yes", "on")], for the value of the variable, [None] when it is not
    set. Only the letters A to Z are lowered: a character outside ASCII
    cannot make the value one of the four words. *)
Definition lower_ascii (c : ascii) : ascii :=
  let n := nat_of_ascii c in
  if (65 <=? n)%nat && (n <=? 90)%nat then ascii_of_nat (n + 32) else c.

Fixpoint lower (s : string) : string :=
  match s with
  | EmptyString => EmptyString
  | String c rest => String (lower_ascii c) (lower rest)
  end.

Definition _enable_auto_seed (env : option string) : bool :=
  let val := lower (default "true" env) in
  existsb (String.eqb val) ["1"; "true"; "yes"; "on"].

(** One turn of the loop of ensure_demo_conversations: a conversation
    without name, its two participants and three messages stamped
    [now]. *)
Definition demo_conversation (user_id partner : string) (now : Z) (db : DB) : Result DB :=
  let id := fresh_id (List.map conv_id (conversations db)) in
  let db1 := insert_conversation db {| conv_id := id; conv_name := None |} in
  let* db2 := insert_participant db1 {| cp_conversation_id := id; cp_user_id := user_id |} in
  let* db3 := insert_participant db2 {| cp_conversation_id := id; cp_user_id := partner |} in
  let db4 := add_message db3
               (new_message db3 id partner "¡Hola! Vi tu perfil y me interesa conversar." now) in
  let db5 := add_message db4
               (new_message db4 id user_id "¡Hola! Claro, me gusta tu perfil también." now) in
  Return (add_message db5
            (new_message db5 id partner
                         "¿Qué zona te gustaría y cuál es tu presupuesto?" now)).

Fixpoint demo_conversations (user_id : string) (partners : list (string * Z)) (db : DB)
    : Result DB :=
  match partners with
  | [] => Return db
  | (partner, now) :: rest =>
      let* db' := demo_conversation user_id partner now db in
      demo_conversations user_id rest db'
  end.

(** ensure_demo_conversations, with the two instants read by
    [datetime.utcnow()]. Nothing is committed before the end: an
    exception leaves the store as it was. *)
Definition ensure_demo_conversations (user_id : string) (now1 now2 : Z) (db : DB)
    : Result DB :=
  demo_conversations user_id [("roomie_demo_1", now1); ("roomie_demo_2", now2)] db.

(** The conversations joined with the participant rows of a user, each
    conversation once. *)
Definition conversations_of (db : DB) (userId : string) : list Conversation :=
  List.filter (fun c => is_participant db (conv_id c) userId) (conversations db).

Section Summaries.
(** [timestamp.strftime("%H:%M")]. *)
Variable strftime_HM : Z → string.

(** serialize_conversation_summary. The name it gives to a conversation
    that has none is set on the object and never committed by its
    caller: the store is not changed. *)
Definition serialize_conversation_summary (db : DB) (conv : Conversation)
    : Result ConversationOut :=
  let last := last_msg db (conv_id conv) in
  let* name :=
    match conv_name conv with
    | Some name =>
        if String.eqb name "" then or_raise IndexError (chat_name (conv_id conv))
        else Return name
    | None => or_raise IndexError (chat_name (conv_id conv))
    end in
  Return {| summary_id := conv_id conv;
            summary_name := Some name;
            summary_avatar := None;
            summary_lastMessage := option_map msg_content last;
            summary_lastMessageTime :=
              option_map (fun m => strftime_HM (msg_timestamp m)) last |}.

(** [[serialize_conversation_summary(db, c) for c in convs]]. *)
Fixpoint serialize_all (db : DB) (convs : list Conversation) : Result (list ConversationOut) :=
  match convs with
  | [] => Return []
  | c :: rest =>
      let* out := serialize_conversation_summary db c in
      let* outs := serialize_all db rest in
      Return (out :: outs)
  end.

(** GET /conversations. [env] is the value of ENABLE_AUTO_SEED. *)
Definition get_conversations (env : option string) (userId : option string)
    (now1 now2 : Z) (db : DB) : Result (list ConversationOut) * DB :=
  match userId with
  | None => (Return [], db)
  | Some user =>
      if String.eqb user "" then (Return [], db)
      else
        match conversations_of db user with
        | [] =>
            if _enable_auto_seed env then
              match ensure_demo_conversations user now1 now2 db with
              | Raise e => (Raise e, db)
              | Return db' => (serialize_all db' (conversations_of db' user), db')
              end
            else (Return [], db)
        | convs => (serialize_all db convs, db)
        end
  end.
End Summaries.

(** ** seed.py *)

Definition TEST_USER_ID : string := "102239748272978520578".

Definition PARTNER_IDS : list (string * string) :=
  [ ("roomie_demo_1", "Roomie Demo 1"); ("roomie_demo_2", "Roomie Demo 2") ].

Definition demo_messages (user_a user_b : string) : list (string * string) :=
  [ (user_b, "¡Hola! Vi tu perfil y me interesa conversar.");
    (user_a, "¡Hola! Claro, me gusta tu perfil también.");
    (user_b, "¿Qué zona te gustaría y cuál es tu presupuesto?");
    (user_a, "Zona centro, presupuesto alrededor de 400-500 USD.");
    (user_b, "Perfecto, tengo opciones por esa zona. 😊") ].

(** The loop over [enumerate(demo_messages)]; timestamps count seconds,
    [i] is the index of the message. *)
Fixpoint add_demo_messages (conversation_id : Z) (user_b : string) (base_time : Z) (i : Z)
    (msgs : list (string * string)) (db : DB) : DB :=
  match msgs with
  | [] => db
  | (sender, content) :: rest =>
      let msg :=
        {| msg_id := fresh_id (List.map msg_id (messages db));
           msg_conversation_id := conversation_id;
           msg_sender_id := sender;
           msg_content := content;
           msg_timestamp := (base_time + 60 * i)%Z;
           msg_status := if String.eqb sender user_b then "read" else "delivered";
           msg_is_read := if String.eqb sender user_b then true else false |} in
      add_demo_messages conversation_id user_b base_time (i + 1) rest (add_message db msg)
  end.

(** ensure_conversation: the id of the conversation it made and the
    state to commit. *)
Definition ensure_conversation (user_a user_b : string) (now : Z) (db : DB)
    : Result (Z * DB) :=
  let id := fresh_id (List.map conv_id (conversations db)) in
  let db1 := insert_conversation db {| conv_id := id; conv_name := None |} in
  let* db2 := insert_participant db1 {| cp_conversation_id := id; cp_user_id := user_a |} in
  let* db3 := insert_participant db2 {| cp_conversation_id := id; cp_user_id := user_b |} in
  let base_time := (now - 300)%Z in
  Return (id, add_demo_messages id user_b base_time 0 (demo_messages user_a user_b) db3).

Fixpoint seed_partners (partners : list (string * Z)) (created : list Z) (db : DB)
    : Result (list Z * DB) :=
  match partners with
  | [] => Return (created, db)
  | (partner_id, now) :: rest =>
      let* r := ensure_conversation TEST_USER_ID partner_id now db in
      seed_partners rest (created ++ [r.1]) r.2
  end.

(** main of seed.py: the ids it prints and the store; an exception
    rolls everything back and is raised again. *)
Definition seed_main (now1 now2 : Z) (db : DB) : Result (list Z) * DB :=
  match seed_partners (combine (List.map fst PARTNER_IDS) [now1; now2]) [] db with
  | Return (created, db') => (Return created, db')
  | Raise e => (Raise e, db)
  end.

(** * Vocabulary of the properties and sample states *)

(** No room of the registry has an empty set of sessions. *)
Definition no_empty_room (m : ConnectionManager) : Prop :=
  ∀ room_id conns, m !! room_id = Some conns → conns ≠ ∅.

Inductive Op :=
| Register (room_id : Z) (ws : WebSocket)
| Unregister (room_id : Z) (ws : WebSocket)
| Broadcast (send_ok : WebSocket → bool) (room_id : Z) (message : Payload).

Definition run_op (m : ConnectionManager) (op : Op) : ConnectionManager :=
  match op with
  | Register room_id ws => connect room_id ws m
  | Unregister room_id ws => disconnect room_id ws m
  | Broadcast send_ok room_id message => (broadcast send_ok room_id message m).1
  end.

Definition registers (room_id : Z) (op : Op) : bool :=
  match op with
  | Register r _ => (r =? room_id)%Z
  | _ => false
  end.

(** A store with one conversation between "A" and "B". *)
Definition two_party_db : DB :=
  {| conversations := [ {| conv_id := 1; conv_name := Some "Karla Rodríguez" |} ];
     participants := [ {| cp_conversation_id := 1; cp_user_id := "A" |};
                       {| cp_conversation_id := 1; cp_user_id := "B" |} ];
     messages := [] |}.

Definition two_party_world : World :=
  {| w_db := two_party_db; w_manager := ∅; w_delivered := [] |}.

#[global] Instance Message_eq_dec : EqDecision Message.
Proof. solve_decision. Defined.

(** The number of rows that differ between two versions of a table. *)
Definition changed_rows (before after : list Message) : nat :=
  length (List.filter (fun p : Message * Message => negb (bool_decide (p.1 = p.2)))
                      (combine before after)).

Definition read_by (conversation_id : Z) (user_id : string) (m : Message) : Message :=
  if unread_from_others conversation_id user_id m then set_read m else m.

(** A conversation with three unread messages from "A" and one from
    "B". *)
Definition unread_db : DB :=
  {| conversations := conversations two_party_db;
     participants := participants two_party_db;
     messages :=
       [ {| msg_id := 1; msg_conversation_id := 1; msg_sender_id := "A";
            msg_content := "one"; msg_timestamp := 10;
            msg_status := "sent"; msg_is_read := false |};
         {| msg_id := 2; msg_conversation_id := 1; msg_sender_id := "B";
            msg_content := "two"; msg_timestamp := 11;
            msg_status := "sent"; msg_is_read := false |};
         {| msg_id := 3; msg_conversation_id := 1; msg_sender_id := "A";
            msg_content := "three"; msg_timestamp := 12;
            msg_status := "delivered"; msg_is_read := false |};
         {| msg_id := 4; msg_conversation_id := 1; msg_sender_id := "A";
            msg_content := "four"; msg_timestamp := 13;
            msg_status := "sent"; msg_is_read := false |} ] |}.

Definition unread_world : World :=
  {| w_db := unread_db; w_manager := ∅; w_delivered := [] |}.

(** The place of a status in sent, delivered, read. *)
Definition status_rank (s : string) : option nat :=
  if String.eqb s "sent" then Some 0%nat
  else if String.eqb s "delivered" then Some 1%nat
  else if String.eqb s "read" then Some 2%nat
  else None.

(** A message of the data model: its status is one of the three and
    is_read is True exactly when the status is "read". *)
Definition message_ok (m : Message) : bool :=
  match status_rank (msg_status m) with
  | Some _ => Bool.eqb (msg_is_read m) (String.eqb (msg_status m) "read")
  | None => false
  end.

Definition status_leb (s s' : string) : bool :=
  String.eqb s s'
  || match status_rank s, status_rank s' with
     | Some a, Some b => (a <=? b)%nat
     | _, _ => false
     end.

(** Every row of [before] is still there, in place, with a status that
    did not move back; [after] may have more rows. *)
Fixpoint no_regress (before after : list Message) : bool :=
  match before, after with
  | [], _ => true
  | m :: ms, m' :: ms' =>
      (msg_id m =? msg_id m')%Z && status_leb (msg_status m) (msg_status m')
      && no_regress ms ms'
  | _ :: _, [] => false
  end.

Definition lifecycle_step (w w' : World) : Prop :=
  forallb message_ok (messages (w_db w')) = true
  ∧ no_regress (messages (w_db w)) (messages (w_db w')) = true.

(** A room with two sessions on the conversation of "A" and "B". *)
Definition live_world : World :=
  {| w_db := two_party_db;
     w_manager := connect 1 6%nat (connect 1 5%nat ∅);
     w_delivered := [] |}.

(** The integrity of a store: primary keys of conversations and of
    messages are unique, [uq_conv_user] holds, and every participant row
    names a conversation of the table. *)
Definition store_ok (db : DB) : Prop :=
  NoDup (List.map conv_id (conversations db))
  ∧ NoDup (List.map msg_id (messages db))
  ∧ NoDup (participants db)
  ∧ participants_reference_conversations db.

(** A store of conversations of two: it has its integrity and no
    conversation has more than two participant rows. *)
Definition two_party_store (db : DB) : Prop :=
  store_ok db
  ∧ ∀ conversation_id, (length (participants_of db conversation_id) ≤ 2)%nat.

(** The stores the service can be in: the empty store, and what a
    handler or the seeding script leaves of such a store, whatever it
    is called with and whatever it answers. *)
Inductive reachable : DB → Prop :=
| reachable_empty : reachable empty_db
| reachable_create_conversation payload now db :
    reachable db → reachable (create_conversation payload now db).2
| reachable_send_message send_ok conversation_id body now w :
    reachable (w_db w) →
    reachable (w_db (send_message send_ok conversation_id body now w).2)
| reachable_mark_conversation_read send_ok from_thread_ok conversation_id user_id w :
    reachable (w_db w) →
    reachable (w_db (mark_conversation_read send_ok from_thread_ok conversation_id
                                            user_id w).2)
| reachable_update_message_status message_id status db :
    reachable db → reachable (update_message_status message_id status db).2
| reachable_websocket_turn send_ok room_id websocket data now w :
    reachable (w_db w) →
    reachable (w_db (websocket_turn send_ok room_id websocket data now w).2)
| reachable_get_conversations strftime_HM env userId now1 now2 db :
    reachable db → reachable (get_conversations strftime_HM env userId now1 now2 db).2
| reachable_seed_main now1 now2 db :
    reachable db → reachable (seed_main now1 now2 db).2.

(** What a message holds besides its id. *)
Definition message_fields (m : Message) : Z * string * string * Z * string * bool :=
  (msg_conversation_id m, msg_sender_id m, msg_content m, msg_timestamp m,
   msg_status m, msg_is_read m).


(** The message create_conversation stores for a request. *)
Definition initial_messages (payload : CreateConversationIn) (id now : Z) (db : DB)
    : list Message :=
  match initialMessage payload with
  | Some text =>
      if String.eqb text "" then []
      else [new_message db id (currentUserId payload) text now]
  | None => []
  end.

(** * Properties *)

(** ** Names *)

Lemma getitem_in_range {A} (l : list A) (i : Z) :
  (0 ≤ i < Z.of_nat (length l))%Z →
  ∃ x, getitem l i = Some x ∧ nth_error l (Z.to_nat i) = Some x.
Proof.
  intros [Hlo Hhi]. unfold getitem.
  destruct (Z.leb_spec 0 i) as [_|Hneg]; [|lia].
  destruct (nth_error l (Z.to_nat i)) as [x|] eqn:Hnth.
  - exists x. split; reflexivity.
  - apply nth_error_None in Hnth. lia.
Qed.

Lemma assign_name_total (catalog : list string) (id : Z) :
  catalog ≠ [] →
  ∃ name, assign_name catalog id = Some name
          ∧ nth_error catalog
              (Z.to_nat ((id - 1) mod Z.of_nat (length catalog))) = Some name.
Proof.
  intros Hne. destruct catalog as [|c0 rest]; [congruence|].
  unfold assign_name. apply getitem_in_range.
  apply Z.mod_pos_bound. simpl length. lia.
Qed.

Lemma assign_name_congruent (catalog : list string) (id id' : Z) :
  (id mod Z.of_nat (length catalog) = id' mod Z.of_nat (length catalog))%Z →
  assign_name catalog id = assign_name catalog id'.
Proof.
  intros Hcong. unfold assign_name. destruct catalog as [|c0 rest]; [reflexivity|].
  set (N := Z.of_nat (length (c0 :: rest))) in *.
  rewrite (Zminus_mod id 1 N), (Zminus_mod id' 1 N), Hcong. reflexivity.
Qed.

Lemma chat_name_assign (id : Z) : chat_name id = assign_name CHAT_NAMES id.
Proof. reflexivity. Qed.

Example chat_name_1 : chat_name 1 = Some "Karla Rodríguez".
Proof. reflexivity. Qed.

Example chat_name_28 : chat_name 28 = Some "Marco Leiva".
Proof. reflexivity. Qed.

Example chat_name_30 : chat_name 30 = Some "Jorge Méndez".
Proof. reflexivity. Qed.

(** C7: the name of a conversation is [CHAT_NAMES[(id - 1) mod 28]]: it
    is defined for every positive id, and two ids congruent modulo the
    length of the catalog (equal ids among them) get the same name. *)
Theorem chat_name_is_catalog_entry (id id' : Z) :
  (0 < id)%Z →
  (id mod Z.of_nat (length CHAT_NAMES) = id' mod Z.of_nat (length CHAT_NAMES))%Z →
  (0 < length CHAT_NAMES)%nat
  ∧ ∃ name,
      chat_name id = Some name
      ∧ nth_error CHAT_NAMES
          (Z.to_nat ((id - 1) mod Z.of_nat (length CHAT_NAMES))) = Some name
      ∧ chat_name id' = Some name.
Proof.
  intros _ Hcong. split; [simpl; lia|].
  destruct (assign_name_total CHAT_NAMES id) as (name & Hname & Hnth); [discriminate|].
  exists name. split; [exact Hname|]. split; [exact Hnth|].
  rewrite chat_name_assign, <- (assign_name_congruent CHAT_NAMES id id' Hcong).
  exact Hname.
Qed.

Lemma chat_name_is_catalog_entry_witness :
  (0 < length CHAT_NAMES)%nat
  ∧ ∃ name,
      chat_name 2 = Some name
      ∧ nth_error CHAT_NAMES
          (Z.to_nat ((2 - 1) mod Z.of_nat (length CHAT_NAMES))) = Some name
      ∧ chat_name 58 = Some name.
Proof.
  apply (chat_name_is_catalog_entry 2 58); [lia | reflexivity].
Defined.

(** ** The connection manager *)

Lemma elem_of_sessions (m : ConnectionManager) (room_id : Z) (ws : WebSocket) :
  ws ∈ sessions m room_id ↔ ∃ conns, m !! room_id = Some conns ∧ ws ∈ conns.
Proof.
  unfold sessions. destruct (m !! room_id) as [conns|]; simpl.
  - split; [eauto | intros (c & [= <-] & Hin); exact Hin].
  - split; [set_solver | intros (c & [=] & _)].
Qed.

Lemma lookup_connect_ne (m : ConnectionManager) (room_id other : Z) (ws : WebSocket) :
  room_id ≠ other → connect room_id ws m !! other = m !! other.
Proof. intros Hne. unfold connect. by rewrite lookup_insert_ne. Qed.

Lemma sessions_connect (m : ConnectionManager) (room_id : Z) (ws : WebSocket) :
  sessions (connect room_id ws m) room_id = {[ws]} ∪ sessions m room_id.
Proof. unfold connect. unfold sessions at 1. by rewrite lookup_insert_eq. Qed.

Lemma lookup_disconnect_ne (m : ConnectionManager) (room_id other : Z) (ws : WebSocket) :
  room_id ≠ other → disconnect room_id ws m !! other = m !! other.
Proof.
  intros Hne. unfold disconnect. destruct (m !! room_id) as [conns|]; [|done].
  repeat case_decide; [by rewrite lookup_delete_ne | by rewrite lookup_insert_ne | done].
Qed.

Lemma sessions_disconnect (m : ConnectionManager) (room_id : Z) (ws : WebSocket) :
  sessions (disconnect room_id ws m) room_id = sessions m room_id ∖ {[ws]}.
Proof.
  unfold sessions, disconnect. destruct (m !! room_id) as [conns|] eqn:Hroom; simpl.
  - case_decide as Hin.
    + case_decide as Hlast.
      * rewrite lookup_delete_eq. simpl. by rewrite Hlast.
      * by rewrite lookup_insert_eq.
    + rewrite Hroom. simpl. apply set_eq. intros x.
      rewrite elem_of_difference, elem_of_singleton. split; [|tauto].
      intros Hx. split; [exact Hx|]. intros ->. apply Hin. split; [|exact Hx].
      intros Hempty. rewrite Hempty in Hx. by apply not_elem_of_empty in Hx.
  - rewrite Hroom. simpl. by rewrite empty_difference_L.
Qed.

Lemma connect_no_empty_room (m : ConnectionManager) (room_id : Z) (ws : WebSocket) :
  no_empty_room m → no_empty_room (connect room_id ws m).
Proof.
  intros Hinv other conns. unfold connect.
  destruct (decide (room_id = other)) as [<-|Hne].
  - rewrite lookup_insert_eq. intros [= <-]. set_solver.
  - rewrite lookup_insert_ne by done. apply Hinv.
Qed.

Lemma disconnect_no_empty_room (m : ConnectionManager) (room_id : Z) (ws : WebSocket) :
  no_empty_room m → no_empty_room (disconnect room_id ws m).
Proof.
  intros Hinv other conns.
  destruct (decide (room_id = other)) as [<-|Hne].
  - unfold disconnect. destruct (m !! room_id) as [old|] eqn:Hroom.
    + case_decide as Hin.
      * case_decide as Hlast.
        -- by rewrite lookup_delete_eq.
        -- rewrite lookup_insert_eq. by intros [= <-].
      * rewrite Hroom. intros [= <-]. by eapply Hinv.
    + by rewrite Hroom.
  - rewrite lookup_disconnect_ne by done. apply Hinv.
Qed.

Section BroadcastLoop.
Variable send_ok : WebSocket → bool.
Variable room_id : Z.
Variable message : Payload.

Let turn := send_json_or_disconnect send_ok room_id message.

Lemma broadcast_loop_delivered (l : list WebSocket) :
  ∀ m log,
    (foldl turn (m, log) l).2
    = log ++ List.map (fun ws => (ws, message)) (List.filter send_ok l).
Proof.
  induction l as [|a l IH]; intros m log; simpl.
  - by rewrite app_nil_r.
  - unfold turn at 2, send_json_or_disconnect. simpl.
    destruct (send_ok a); rewrite IH; [|done].
    simpl. by rewrite <- app_assoc.
Qed.

Lemma broadcast_loop_sessions (l : list WebSocket) :
  ∀ m log ws,
    ws ∈ sessions (foldl turn (m, log) l).1 room_id
    ↔ ws ∈ sessions m room_id ∧ ¬ (ws ∈ l ∧ send_ok ws = false).
Proof.
  induction l as [|a l IH]; intros m log ws; simpl.
  - split; [|tauto]. intros Hin. split; [done|]. intros [Hnil _]. by inversion Hnil.
  - unfold turn at 2, send_json_or_disconnect. simpl.
    destruct (send_ok a) eqn:Ha; rewrite IH.
    + split; intros [Hin Hno]; (split; [done|]); intros [Hl Hfail].
      * apply elem_of_cons in Hl as [->|Hl]; [congruence | by apply Hno].
      * apply Hno. split; [by apply elem_of_cons; right | done].
    + rewrite sessions_disconnect, elem_of_difference, elem_of_singleton.
      split.
      * intros [[Hin Hne] Hno]. split; [done|]. intros [Hl Hfail].
        apply elem_of_cons in Hl as [->|Hl]; [done | by apply Hno].
      * intros [Hin Hno]. split; [split; [done|]|].
        -- intros ->. apply Hno. split; [by apply elem_of_cons; left | done].
        -- intros [Hl Hfail]. apply Hno. split; [by apply elem_of_cons; right | done].
Qed.

Lemma broadcast_loop_other_rooms (l : list WebSocket) (other : Z) :
  room_id ≠ other → ∀ m log, (foldl turn (m, log) l).1 !! other = m !! other.
Proof.
  intros Hne. induction l as [|a l IH]; intros m log; simpl; [done|].
  unfold turn at 2, send_json_or_disconnect. simpl.
  destruct (send_ok a); rewrite IH; [done|]. by apply lookup_disconnect_ne.
Qed.

Lemma broadcast_loop_no_empty_room (l : list WebSocket) :
  ∀ m log, no_empty_room m → no_empty_room (foldl turn (m, log) l).1.
Proof.
  induction l as [|a l IH]; intros m log Hinv; simpl; [done|].
  unfold turn at 2, send_json_or_disconnect. simpl.
  destruct (send_ok a); apply IH; [done|]. by apply disconnect_no_empty_room.
Qed.
End BroadcastLoop.

(** C6: a broadcast delivers the event to exactly the sessions that are
    registered on the room at the call and whose send does not fail,
    once each, whatever happens to the others; and after the call the
    room holds exactly those sessions, the failed ones being gone. *)
Theorem broadcast_delivers_and_evicts (send_ok : WebSocket → bool) (room_id : Z)
    (message : Payload) (m : ConnectionManager) (ws : WebSocket) :
  let r := broadcast send_ok room_id message m in
  ((ws, message) ∈ r.2 ↔ ws ∈ sessions m room_id ∧ send_ok ws = true)
  ∧ (ws ∈ sessions r.1 room_id ↔ ws ∈ sessions m room_id ∧ send_ok ws = true)
  ∧ (ws ∈ sessions m room_id ∧ send_ok ws = false ↔
     ws ∈ sessions m room_id ∧ ws ∉ sessions r.1 room_id)
  ∧ NoDup r.2
  ∧ List.map snd r.2 = List.map (fun _ => message) r.2.
Proof.
  intros r.
  assert (Hlog : r.2 = List.map (fun ws => (ws, message))
                         (List.filter send_ok (elements (sessions m room_id)))).
  { unfold r, broadcast. by rewrite broadcast_loop_delivered. }
  assert (Hafter : ws ∈ sessions r.1 room_id ↔ ws ∈ sessions m room_id ∧ send_ok ws = true).
  { unfold r, broadcast. rewrite broadcast_loop_sessions, elem_of_elements.
    destruct (send_ok ws); split.
    - intros [Hin _]. done.
    - intros [Hin _]. split; [done|]. intros [_ Hf]. discriminate.
    - intros [Hin Hno]. exfalso. by apply Hno.
    - intros [_ Hf]. discriminate. }
  assert (Hsent : (ws, message) ∈ r.2 ↔ ws ∈ sessions m room_id ∧ send_ok ws = true).
  { rewrite Hlog, list_elem_of_In, in_map_iff. split.
    - intros (x & [= ->] & Hx). apply filter_In in Hx as [Hx Hok].
      split; [|done]. by apply list_elem_of_In, elem_of_elements in Hx.
    - intros [Hin Hok]. exists ws. split; [done|]. apply filter_In. split; [|done].
      by apply list_elem_of_In, elem_of_elements. }
  split; [exact Hsent|]. split; [exact Hafter|]. split; [|split].
  - split.
    + intros [Hin Hfail]. split; [done|]. intros Habs.
      apply Hafter in Habs as [_ Hok]. congruence.
    + intros [Hin Hgone]. split; [done|]. destruct (send_ok ws) eqn:Hok; [|done].
      exfalso. by apply Hgone, Hafter.
  - rewrite Hlog. apply NoDup_ListNoDup, Finite.Injective_map_NoDup.
    + intros x y [= ->]. reflexivity.
    + apply List.NoDup_filter, NoDup_ListNoDup, NoDup_elements.
  - rewrite Hlog, !List.map_map. reflexivity.
Qed.

(** ** Sequences of operations on the registry *)

Lemma run_op_no_empty_room (m : ConnectionManager) (op : Op) :
  no_empty_room m → no_empty_room (run_op m op).
Proof.
  intros Hinv. destruct op as [r ws|r ws|send_ok r message]; simpl.
  - by apply connect_no_empty_room.
  - by apply disconnect_no_empty_room.
  - unfold broadcast. by apply broadcast_loop_no_empty_room.
Qed.

Lemma disconnect_absent_room (m : ConnectionManager) (room_id other : Z) (ws : WebSocket) :
  m !! room_id = None → disconnect other ws m !! room_id = None.
Proof.
  intros Hnone. destruct (decide (other = room_id)) as [->|Hne].
  - unfold disconnect. by rewrite Hnone.
  - by rewrite lookup_disconnect_ne.
Qed.

Lemma broadcast_absent_room (send_ok : WebSocket → bool) (message : Payload)
    (room_id other : Z) (l : list WebSocket) :
  ∀ m log, m !! room_id = None →
    (foldl (send_json_or_disconnect send_ok other message) (m, log) l).1 !! room_id = None.
Proof.
  induction l as [|a l IH]; intros m log Hnone; simpl; [done|].
  unfold send_json_or_disconnect at 2. simpl.
  destruct (send_ok a); apply IH; [done|]. by apply disconnect_absent_room.
Qed.

Lemma run_ops_unregistered_room (room_id : Z) (ops : list Op) :
  ∀ m, m !! room_id = None → forallb (fun op => negb (registers room_id op)) ops = true →
       foldl run_op m ops !! room_id = None.
Proof.
  induction ops as [|op ops IH]; intros m Hnone Hops; simpl; [done|].
  simpl in Hops. apply andb_prop in Hops as [Hop Hops].
  apply IH; [|done].
  destruct op as [r ws|r ws|send_ok r message]; simpl in *.
  - rewrite lookup_connect_ne; [done|]. intros ->. by rewrite Z.eqb_refl in Hop.
  - by apply disconnect_absent_room.
  - unfold broadcast. by apply broadcast_absent_room.
Qed.

Lemma disconnect_last_session (m : ConnectionManager) (room_id : Z) (ws : WebSocket) :
  sessions m room_id = {[ws]} → disconnect room_id ws m !! room_id = None.
Proof.
  unfold sessions, disconnect. destruct (m !! room_id) as [conns|] eqn:Hroom; simpl.
  - intros ->. rewrite decide_True.
    + rewrite decide_True; [by rewrite lookup_delete_eq|]. by rewrite difference_diag_L.
    + split; [|by apply elem_of_singleton]. apply non_empty_singleton_L.
  - by rewrite Hroom.
Qed.

(** C8: after any sequence of register, unregister and broadcast
    operations on the manager as it is at start-up, no room of the
    registry has an empty set; a room that was never registered on has
    no entry; and unregistering the last session of a room removes the
    room's entry. *)
Theorem registry_has_no_empty_room (ops : list Op) :
  let m := foldl run_op (∅ : ConnectionManager) ops in
  no_empty_room m
  ∧ (∀ room_id, forallb (fun op => negb (registers room_id op)) ops = true →
                m !! room_id = None)
  ∧ (∀ room_id ws, sessions m room_id = {[ws]} →
                   disconnect room_id ws m !! room_id = None).
Proof.
  intros m. split; [|split].
  - unfold m. clear m.
    assert (Hgen : ∀ m0 : ConnectionManager, no_empty_room m0 →
                     no_empty_room (foldl run_op m0 ops)).
    { induction ops as [|op ops IH]; intros m0 Hinv; simpl; [done|].
      by apply IH, run_op_no_empty_room. }
    apply Hgen. intros r conns. by rewrite lookup_empty.
  - intros room_id. apply run_ops_unregistered_room. apply lookup_empty.
  - intros room_id ws. apply disconnect_last_session.
Qed.

Lemma registry_has_no_empty_room_witness :
  let m := foldl run_op (∅ : ConnectionManager) [Register 8 1%nat] in
  no_empty_room m
  ∧ m !! 9%Z = None
  ∧ disconnect 8 1%nat m !! 8%Z = None.
Proof.
  destruct (registry_has_no_empty_room [Register 8 1%nat]) as (Hinv & Hnone & Hlast).
  split; [exact Hinv|]. split.
  - apply Hnone. reflexivity.
  - apply Hlast. vm_compute. reflexivity.
Defined.

(** ** Sending a message *)

Lemma w_db_run_broadcast (send_ok : WebSocket → bool) (room_id : Z) (message : Payload)
    (w : World) :
  w_db (run_broadcast send_ok room_id message w) = w_db w.
Proof. reflexivity. Qed.

Lemma send_message_forbidden (send_ok : WebSocket → bool) (conversation_id : Z)
    (body : MessageCreate) (now : Z) (w : World) :
  is_participant (w_db w) conversation_id (body_sender_id body) = false →
  int64 conversation_id = true →
  send_message send_ok conversation_id body now w = (Raise (HTTPException 403), w).
Proof. intros Hno Hrange. unfold send_message. by rewrite Hno, Hrange. Qed.

Lemma send_message_overflow (send_ok : WebSocket → bool) (conversation_id : Z)
    (body : MessageCreate) (now : Z) (w : World) :
  is_participant (w_db w) conversation_id (body_sender_id body) = false →
  int64 conversation_id = false →
  send_message send_ok conversation_id body now w = (Raise OverflowError, w).
Proof. intros Hno Hrange. unfold send_message. by rewrite Hno, Hrange. Qed.

Lemma send_message_refused (send_ok : WebSocket → bool) (conversation_id : Z)
    (body : MessageCreate) (now : Z) (w : World) :
  is_participant (w_db w) conversation_id (body_sender_id body) = false →
  (send_message send_ok conversation_id body now w).2 = w.
Proof. intros Hno. unfold send_message. rewrite Hno. simpl. by destruct (int64 _). Qed.

Lemma foreign_key_no_participant (db : DB) (conversation_id : Z) (user_id : string) :
  participants_reference_conversations db →
  conversation_exists db conversation_id = false →
  is_participant db conversation_id user_id = false.
Proof.
  intros Hfk Hmissing.
  destruct (is_participant _ _ _) eqn:Hp; [|reflexivity].
  unfold is_participant in Hp. apply existsb_exists in Hp as (p & Hin & Hp).
  apply andb_prop in Hp as [Hid _]. apply Z.eqb_eq in Hid.
  specialize (Hfk p Hin). rewrite Hid in Hfk. congruence.
Qed.

Lemma send_message_stored (send_ok : WebSocket → bool) (conversation_id : Z)
    (body : MessageCreate) (now : Z) (w : World) :
  is_participant (w_db w) conversation_id (body_sender_id body) = true →
  let r := send_message send_ok conversation_id body now w in
  let msg := new_message (w_db w) conversation_id (body_sender_id body)
                         (body_content body) now in
  r.1 = Return msg
  ∧ msg_status msg = "sent" ∧ msg_is_read msg = false
  ∧ messages (w_db r.2) = messages (w_db w) ++ [msg]
  ∧ conversations (w_db r.2) = conversations (w_db w)
  ∧ participants (w_db r.2) = participants (w_db w).
Proof. intros Hyes. unfold send_message. rewrite Hyes. simpl. done. Qed.

Example send_message_stranger :
  send_message (fun _ => true) 1 {| body_content := "hi"; body_sender_id := "stranger" |}
               100 two_party_world
  = (Raise (HTTPException 403), two_party_world).
Proof. reflexivity. Qed.

(** C2, at a request with an empty content from a participant: the
    handler raises nothing, stores a message whose content is empty and
    returns it with status "sent" and is_read False. *)
Theorem send_message_empty_content_is_stored :
  let r := send_message (fun _ => true) 1
                        {| body_content := ""; body_sender_id := "A" |}
                        100 two_party_world in
  ∃ msg, r.1 = Return msg
         ∧ msg_content msg = ""
         ∧ msg_status msg = "sent" ∧ msg_is_read msg = false
         ∧ messages (w_db r.2) = [msg].
Proof.
  eexists. repeat split; reflexivity.
Qed.

(** C10: in a store where every participant row names a conversation
    of the table, sending to a conversation id that does not exist and
    that is a signed 64-bit integer raises 403, which the caller sees
    as Forbidden and not as NotFound, and leaves the store, the registry
    and the sessions as they were. *)
Theorem send_message_unknown_conversation (send_ok : WebSocket → bool)
    (conversation_id : Z) (body : MessageCreate) (now : Z) (w : World) :
  participants_reference_conversations (w_db w) →
  conversation_exists (w_db w) conversation_id = false →
  int64 conversation_id = true →
  let r := send_message send_ok conversation_id body now w in
  r.1 = Raise (HTTPException 403)
  ∧ error_kind (HTTPException 403) = Forbidden
  ∧ r.2 = w.
Proof.
  intros Hfk Hmissing Hrange r.
  assert (Hno : is_participant (w_db w) conversation_id (body_sender_id body) = false)
    by (by apply foreign_key_no_participant).
  unfold r. rewrite send_message_forbidden by assumption. done.
Qed.

Lemma send_message_unknown_conversation_witness :
  let r := send_message (fun _ => true) 99
                        {| body_content := "hi"; body_sender_id := "A" |}
                        100 two_party_world in
  r.1 = Raise (HTTPException 403)
  ∧ error_kind (HTTPException 403) = Forbidden
  ∧ r.2 = two_party_world.
Proof.
  apply (send_message_unknown_conversation (fun _ => true) 99
           {| body_content := "hi"; body_sender_id := "A" |} 100 two_party_world).
  - intros p Hin. simpl in Hin. destruct Hin as [<-|[<-|[]]]; reflexivity.
  - reflexivity.
  - reflexivity.
Defined.

(** Outside the 64 bits the participant lookup itself raises: the
    caller sees Internal, and nothing is stored either. *)
Example send_message_id_out_of_range :
  let r := send_message (fun _ => true) (2 ^ 63)
                        {| body_content := "hi"; body_sender_id := "A" |}
                        100 two_party_world in
  r.1 = Raise OverflowError
  ∧ error_kind OverflowError = Internal
  ∧ r.2 = two_party_world.
Proof. vm_compute. done. Qed.

(** ** Marking a conversation read *)

Lemma update_read_messages (conversation_id : Z) (user_id : string) (db : DB) :
  messages (update_read conversation_id user_id db).2
  = List.map (read_by conversation_id user_id) (messages db).
Proof. reflexivity. Qed.

Lemma read_by_not_unread (conversation_id : Z) (user_id : string) (m : Message) :
  unread_from_others conversation_id user_id (read_by conversation_id user_id m) = false.
Proof.
  unfold read_by. destruct (unread_from_others conversation_id user_id m) eqn:Hm.
  - unfold unread_from_others. simpl. by rewrite andb_false_r.
  - exact Hm.
Qed.

Lemma read_by_changes (conversation_id : Z) (user_id : string) (m : Message) :
  negb (bool_decide (m = read_by conversation_id user_id m))
  = unread_from_others conversation_id user_id m.
Proof.
  unfold read_by. destruct (unread_from_others conversation_id user_id m) eqn:Hm.
  - rewrite bool_decide_eq_false_2; [done|]. intros Heq.
    unfold unread_from_others in Hm. apply andb_prop in Hm as [_ Hunread].
    apply (f_equal msg_is_read) in Heq. simpl in Heq. rewrite Heq in Hunread. done.
  - by rewrite bool_decide_eq_true_2.
Qed.

Lemma read_by_own (conversation_id : Z) (user_id : string) (m : Message) :
  String.eqb (msg_sender_id m) user_id = true →
  read_by conversation_id user_id m = m.
Proof.
  intros Hown. unfold read_by, unread_from_others. rewrite Hown. simpl.
  by rewrite andb_false_r.
Qed.

Lemma read_by_sender (conversation_id : Z) (user_id : string) (m : Message) :
  msg_sender_id (read_by conversation_id user_id m) = msg_sender_id m.
Proof. unfold read_by. by destruct (unread_from_others _ _ _). Qed.

Lemma none_unread_after (conversation_id : Z) (user_id : string) (l : list Message) :
  List.filter (unread_from_others conversation_id user_id)
              (List.map (read_by conversation_id user_id) l) = [].
Proof.
  induction l as [|m l IH]; simpl; [done|]. by rewrite read_by_not_unread.
Qed.

Lemma read_by_twice (conversation_id : Z) (user_id : string) (l : list Message) :
  List.map (read_by conversation_id user_id) (List.map (read_by conversation_id user_id) l)
  = List.map (read_by conversation_id user_id) l.
Proof.
  rewrite List.map_map. apply List.map_ext. intros m.
  unfold read_by at 1. by rewrite read_by_not_unread.
Qed.

Lemma own_messages_kept (conversation_id : Z) (user_id : string) (l : list Message) :
  List.filter (fun m => String.eqb (msg_sender_id m) user_id)
              (List.map (read_by conversation_id user_id) l)
  = List.filter (fun m => String.eqb (msg_sender_id m) user_id) l.
Proof.
  induction l as [|m l IH]; simpl; [done|].
  rewrite read_by_sender, IH.
  destruct (String.eqb (msg_sender_id m) user_id) eqn:Hown; [|done].
  by rewrite read_by_own.
Qed.

Lemma changed_rows_read_by (conversation_id : Z) (user_id : string) (l : list Message) :
  changed_rows l (List.map (read_by conversation_id user_id) l)
  = length (List.filter (unread_from_others conversation_id user_id) l).
Proof.
  unfold changed_rows. induction l as [|m l IH]; simpl; [done|].
  rewrite read_by_changes. destruct (unread_from_others _ _ m); simpl; by rewrite IH.
Qed.

(** What the handler does once the user id, the conversation and the
    participant have been found. *)
Lemma mark_conversation_read_passes (send_ok : WebSocket → bool) (from_thread_ok : bool)
    (conversation_id : Z) (user : string) (w : World) :
  user ≠ "" →
  conversation_exists (w_db w) conversation_id = true →
  is_participant (w_db w) conversation_id user = true →
  let r := mark_conversation_read send_ok from_thread_ok conversation_id (Some user) w in
  let n := (update_read conversation_id user (w_db w)).1 in
  w_db r.2 = (update_read conversation_id user (w_db w)).2
  ∧ (from_thread_ok = true ∨ n = 0%nat →
     r.1 = Return {| ok := true; updated_count := n;
                     out_conversation_id := conversation_id |})
  ∧ (from_thread_ok = false ∧ n ≠ 0%nat → r.1 = Raise (HTTPException 500)).
Proof.
  intros Huser Hconv Hpart. unfold mark_conversation_read.
  destruct (String.eqb user "") eqn:Hempty; [by apply String.eqb_eq in Hempty|].
  unfold mark_conversation_read_try. rewrite Hconv, Hpart. simpl.
  destruct (length _) as [|k] eqn:Hn; simpl.
  - split; [done|]. split; [done|]. by intros [_ ?].
  - destruct from_thread_ok; simpl.
    + split; [done|]. split; [done|]. by intros [? _].
    + split; [done|]. split; [|done]. intros [?|?]; done.
Qed.

(** What the handler does when one of the two checks of the try block
    fails: the 404 or the 403 it raises is caught by its own except
    clause. *)
Lemma mark_conversation_read_check_fails (send_ok : WebSocket → bool)
    (from_thread_ok : bool) (conversation_id : Z) (user : string) (w : World) :
  user ≠ "" →
  conversation_exists (w_db w) conversation_id = false
  ∨ is_participant (w_db w) conversation_id user = false →
  mark_conversation_read send_ok from_thread_ok conversation_id (Some user) w
  = (Raise (HTTPException 500), w).
Proof.
  intros Huser Hfail. unfold mark_conversation_read.
  destruct (String.eqb user "") eqn:Hempty; [by apply String.eqb_eq in Hempty|].
  unfold mark_conversation_read_try.
  destruct (conversation_exists (w_db w) conversation_id); simpl; [|done].
  destruct Hfail as [?|Hpart]; [done|]. by rewrite Hpart.
Qed.

(** C3: in the service, where the read-receipt statement raises, for a
    reader who is a participant of an existing conversation,
    mark_conversation_read sets to status "read" and is_read True
    exactly the messages of the conversation that another user sent and
    that were not read, and leaves every other row as it was, the
    reader's own messages among them; the number of rows changed is the
    count it works with, but the caller never receives a count other
    than 0: as soon as one row was changed, the response is a 500, after
    the commit. A second call right after the first returns 0 and
    changes nothing. *)
Theorem mark_conversation_read_loses_count (send_ok : WebSocket → bool)
    (conversation_id : Z) (user : string) (w : World) :
  user ≠ "" →
  conversation_exists (w_db w) conversation_id = true →
  is_participant (w_db w) conversation_id user = true →
  let before := messages (w_db w) in
  let n := length (List.filter (unread_from_others conversation_id user) before) in
  let first := mark_conversation_read send_ok false conversation_id (Some user) w in
  let after := messages (w_db first.2) in
  let second := mark_conversation_read send_ok false conversation_id (Some user) first.2 in
  after = List.map (fun m => if unread_from_others conversation_id user m
                             then set_read m else m) before
  ∧ List.filter (fun m => String.eqb (msg_sender_id m) user) after
    = List.filter (fun m => String.eqb (msg_sender_id m) user) before
  ∧ changed_rows before after = n
  ∧ (n ≠ 0%nat →
     first.1 = Raise (HTTPException 500) ∧ error_kind (HTTPException 500) = Internal)
  ∧ (n = 0%nat →
     first.1 = Return {| ok := true; updated_count := 0;
                         out_conversation_id := conversation_id |})
  ∧ second.1 = Return {| ok := true; updated_count := 0;
                         out_conversation_id := conversation_id |}
  ∧ messages (w_db second.2) = after.
Proof.
  intros Huser Hconv Hpart before n first after second.
  destruct (mark_conversation_read_passes send_ok false conversation_id user w
              Huser Hconv Hpart) as (Hdb & Hret & Hfail).
  fold first in Hdb, Hret, Hfail.
  assert (Hafter : after = List.map (read_by conversation_id user) before).
  { unfold after. by rewrite Hdb, update_read_messages. }
  assert (Hconv' : conversation_exists (w_db first.2) conversation_id = true).
  { by rewrite Hdb. }
  assert (Hpart' : is_participant (w_db first.2) conversation_id user = true).
  { by rewrite Hdb. }
  destruct (mark_conversation_read_passes send_ok false conversation_id user first.2
              Huser Hconv' Hpart') as (Hdb2 & Hret2 & _).
  fold second in Hdb2, Hret2.
  assert (Hzero : (update_read conversation_id user (w_db first.2)).1 = 0%nat).
  { simpl. fold after. by rewrite Hafter, none_unread_after. }
  split; [exact Hafter|]. split; [|split; [|split; [|split; [|split]]]].
  - rewrite Hafter. apply own_messages_kept.
  - rewrite Hafter. apply changed_rows_read_by.
  - intros Hn. split; [|reflexivity]. apply Hfail. by split.
  - intros Hn. rewrite Hret by (by right). simpl. fold before. fold n. by rewrite Hn.
  - rewrite <- Hzero. apply Hret2. by right.
  - rewrite Hdb2, update_read_messages. fold after. rewrite Hafter. apply read_by_twice.
Qed.

Lemma mark_conversation_read_loses_count_witness :
  let first := mark_conversation_read (fun _ => true) false 1 (Some "B") unread_world in
  let second := mark_conversation_read (fun _ => true) false 1 (Some "B") first.2 in
  length (List.filter (unread_from_others 1 "B") (messages unread_db)) = 3%nat
  ∧ List.map msg_status (messages (w_db first.2)) = ["read"; "sent"; "read"; "read"]
  ∧ first.1 = Raise (HTTPException 500)
  ∧ second.1 = Return {| ok := true; updated_count := 0; out_conversation_id := 1 |}.
Proof.
  destruct (mark_conversation_read_loses_count (fun _ => true) 1 "B" unread_world)
    as (Hafter & _ & _ & Hfirst & _ & Hsecond & _).
  - discriminate.
  - reflexivity.
  - reflexivity.
  - split; [reflexivity|]. split; [by rewrite Hafter|]. split; [|exact Hsecond].
    apply Hfirst. discriminate.
Defined.

(** C4, at a conversation that does not exist and at a reader who is
    not a participant: the 404 and the 403 raised by the two checks are
    caught by the except clause of the handler and the caller receives
    a 500, Internal; the store is unchanged. *)
Theorem mark_conversation_read_hides_404_and_403 :
  let missing := mark_conversation_read (fun _ => true) true 99 (Some "A") two_party_world in
  let stranger :=
    mark_conversation_read (fun _ => true) true 1 (Some "stranger") two_party_world in
  conversation_exists two_party_db 99 = false
  ∧ missing = (Raise (HTTPException 500), two_party_world)
  ∧ is_participant two_party_db 1 "stranger" = false
  ∧ stranger = (Raise (HTTPException 500), two_party_world)
  ∧ error_kind (HTTPException 500) = Internal.
Proof.
  repeat split; reflexivity.
Qed.

(** ** The status lifecycle *)

Lemma status_leb_refl (s : string) : status_leb s s = true.
Proof. unfold status_leb. by rewrite String.eqb_refl. Qed.

Lemma no_regress_app (l extra : list Message) : no_regress l (l ++ extra) = true.
Proof.
  induction l as [|m l IH]; simpl; [done|].
  by rewrite Z.eqb_refl, status_leb_refl, IH.
Qed.

Lemma no_regress_refl (l : list Message) : no_regress l l = true.
Proof. rewrite <- (app_nil_r l) at 2. apply no_regress_app. Qed.

Lemma new_message_ok (db : DB) (conversation_id : Z) (sender_id content : string) (now : Z) :
  message_ok (new_message db conversation_id sender_id content now) = true.
Proof. reflexivity. Qed.

Lemma read_by_ok (conversation_id : Z) (user_id : string) (m : Message) :
  message_ok m = true →
  message_ok (read_by conversation_id user_id m) = true
  ∧ status_leb (msg_status m) (msg_status (read_by conversation_id user_id m)) = true.
Proof.
  intros Hok. unfold read_by. destruct (unread_from_others _ _ m).
  - split; [reflexivity|]. simpl. unfold status_leb, message_ok in *.
    destruct (status_rank (msg_status m)) as [a|] eqn:Hrank; [|done].
    apply orb_true_iff. right. simpl. unfold status_rank in Hrank.
    repeat (destruct (String.eqb (msg_status m) _) in Hrank);
      inversion Hrank; subst; reflexivity.
  - split; [done|]. apply status_leb_refl.
Qed.

Lemma update_read_lifecycle (conversation_id : Z) (user_id : string) (l : list Message) :
  forallb message_ok l = true →
  forallb message_ok (List.map (read_by conversation_id user_id) l) = true
  ∧ no_regress l (List.map (read_by conversation_id user_id) l) = true.
Proof.
  induction l as [|m l IH]; simpl; [done|].
  intros Hall. apply andb_prop in Hall as [Hm Hl].
  destruct (IH Hl) as [IH1 IH2].
  destruct (read_by_ok conversation_id user_id m Hm) as [Hok Hle].
  rewrite Hok, IH1, Hle, IH2. unfold read_by.
  destruct (unread_from_others _ _ m); simpl; by rewrite Z.eqb_refl.
Qed.

Lemma forallb_message_ok_app (l : list Message) (m : Message) :
  forallb message_ok l = true → message_ok m = true →
  forallb message_ok (l ++ [m]) = true.
Proof. intros Hl Hm. rewrite forallb_app, Hl. simpl. by rewrite Hm. Qed.

Lemma lifecycle_step_same (w w' : World) :
  forallb message_ok (messages (w_db w)) = true →
  messages (w_db w') = messages (w_db w) →
  lifecycle_step w w'.
Proof.
  intros Hok Hsame. unfold lifecycle_step. rewrite Hsame.
  split; [done | apply no_regress_refl].
Qed.

Lemma lifecycle_step_add (w w' : World) (m : Message) :
  forallb message_ok (messages (w_db w)) = true →
  message_ok m = true →
  messages (w_db w') = messages (w_db w) ++ [m] →
  lifecycle_step w w'.
Proof.
  intros Hok Hm Hadd. unfold lifecycle_step. rewrite Hadd.
  split; [by apply forallb_message_ok_app | apply no_regress_app].
Qed.

Lemma update_message_status_messages (message_id : Z) (status : string) (db : DB) :
  messages (update_message_status message_id status db).2
  = List.map (fun m => if (msg_id m =? message_id)%Z then set_status status m else m)
             (messages db).
Proof.
  unfold update_message_status.
  destruct (existsb _ (messages db)) eqn:Hfound; simpl; [done|].
  assert (Hsame : ∀ e e' : Exception,
            (if int64 message_id then (Raise e, db) else (@Raise unit e', db)).2 = db)
    by (intros; by destruct (int64 _)).
  rewrite Hsame.
  symmetry. rewrite <- (List.map_id (messages db)) at 2.
  apply List.map_ext_in. intros m Hin.
  destruct (msg_id m =? message_id)%Z eqn:Hid; [|done].
  assert (Hex : existsb (fun m => (msg_id m =? message_id)%Z) (messages db) = true).
  { apply existsb_exists. by exists m. }
  congruence.
Qed.

Lemma mark_conversation_read_messages (send_ok : WebSocket → bool) (from_thread_ok : bool)
    (conversation_id : Z) (user_id : option string) (w : World) :
  let r := mark_conversation_read send_ok from_thread_ok conversation_id user_id w in
  messages (w_db r.2) = messages (w_db w)
  ∨ ∃ user, messages (w_db r.2)
            = List.map (read_by conversation_id user) (messages (w_db w)).
Proof.
  unfold mark_conversation_read. destruct user_id as [user|]; [|by left].
  destruct (String.eqb user ""); [by left|].
  unfold mark_conversation_read_try.
  destruct (conversation_exists _ _); simpl; [|by left].
  destruct (is_participant _ _ _); simpl; [|by left].
  right. exists user.
  destruct (0 <? _)%nat; [destruct from_thread_ok|]; reflexivity.
Qed.

Lemma websocket_turn_messages (send_ok : WebSocket → bool) (room_id : Z)
    (websocket : WebSocket) (data : Inbound) (now : Z) (w : World) :
  let r := websocket_turn send_ok room_id websocket data now w in
  messages (w_db r.2) = messages (w_db w)
  ∨ ∃ sender_id content,
      messages (w_db r.2)
      = messages (w_db w) ++ [new_message (w_db w) room_id sender_id content now].
Proof.
  unfold websocket_turn, reply_error.
  destruct (in_content data) as [content|], (in_sender_id data) as [sender_id|];
    try (destruct (send_ok websocket); by left).
  destruct (falsy (Some content) || falsy (Some sender_id)).
  - destruct (send_ok websocket); by left.
  - right. by exists sender_id, content.
Qed.

(** C5, amended: in a store whose messages all have one of the three
    statuses and is_read True exactly when the status is "read",
    send_message, mark_conversation_read and a turn of the websocket
    loop leave a store with the same property in which no status moved
    back; update_message_status writes the status it is given on the
    message and leaves is_read as it was. *)
Theorem lifecycle_kept_by_send_read_and_live (send_ok : WebSocket → bool) (w : World) :
  forallb message_ok (messages (w_db w)) = true →
  (∀ conversation_id body now,
     lifecycle_step w (send_message send_ok conversation_id body now w).2)
  ∧ (∀ from_thread_ok conversation_id user_id,
       lifecycle_step w
         (mark_conversation_read send_ok from_thread_ok conversation_id user_id w).2)
  ∧ (∀ room_id websocket data now,
       lifecycle_step w (websocket_turn send_ok room_id websocket data now w).2)
  ∧ (∀ message_id status,
       let after := messages (update_message_status message_id status (w_db w)).2 in
       after = List.map (fun m => if (msg_id m =? message_id)%Z
                                  then set_status status m else m)
                        (messages (w_db w))
       ∧ List.map msg_is_read after = List.map msg_is_read (messages (w_db w))).
Proof.
  intros Hok. split; [|split; [|split]].
  - intros conversation_id body now. unfold send_message.
    destruct (is_participant _ _ _); simpl.
    + apply (lifecycle_step_add _ _
               (new_message (w_db w) conversation_id (body_sender_id body)
                            (body_content body) now));
        [done | apply new_message_ok | reflexivity].
    + destruct (int64 _); by apply lifecycle_step_same.
  - intros from_thread_ok conversation_id user_id.
    destruct (mark_conversation_read_messages send_ok from_thread_ok conversation_id
                user_id w) as [Hsame|[user Hread]].
    + by apply lifecycle_step_same.
    + unfold lifecycle_step. rewrite Hread. by apply update_read_lifecycle.
  - intros room_id websocket data now.
    destruct (websocket_turn_messages send_ok room_id websocket data now w)
      as [Hsame|(sender_id & content & Hadd)].
    + by apply lifecycle_step_same.
    + eapply lifecycle_step_add; [done| |exact Hadd]. apply new_message_ok.
  - intros message_id status after. unfold after.
    rewrite update_message_status_messages. split; [done|].
    rewrite List.map_map. apply List.map_ext. intros m.
    by destruct (msg_id m =? message_id)%Z.
Qed.

Lemma lifecycle_kept_by_send_read_and_live_witness :
  lifecycle_step unread_world
    (send_message (fun _ => true) 1 {| body_content := "hi"; body_sender_id := "A" |}
                  100 unread_world).2
  ∧ lifecycle_step unread_world
      (mark_conversation_read (fun _ => true) true 1 (Some "B") unread_world).2
  ∧ lifecycle_step unread_world
      (websocket_turn (fun _ => true) 1 5%nat
                      {| in_content := Some "hi"; in_sender_id := Some "A" |}
                      100 unread_world).2.
Proof.
  destruct (lifecycle_kept_by_send_read_and_live (fun _ => true) unread_world)
    as (Hsend & Hread & Hlive & _); [reflexivity|].
  split; [apply Hsend|]. split; [apply Hread | apply Hlive].
Defined.

(** C5 as stated fails at update_message_status: on a message with
    status "sent" it writes "read" and leaves is_read False, and on a
    message that is read it writes "sent" and leaves is_read True, a
    status that moved back. *)
Lemma update_message_status_breaks_lifecycle :
  let sent_db := unread_db in
  let marked := (update_message_status 1 "read" sent_db).2 in
  let read_db := w_db (mark_conversation_read (fun _ => true) true 1 (Some "B")
                                              unread_world).2 in
  let reverted := (update_message_status 1 "sent" read_db).2 in
  forallb message_ok (messages sent_db) = true
  ∧ (update_message_status 1 "read" sent_db).1 = Return tt
  ∧ List.map (fun m => (msg_status m, msg_is_read m)) (messages marked)
    = [("read", false); ("sent", false); ("delivered", false); ("sent", false)]
  ∧ forallb message_ok (messages marked) = false
  ∧ forallb message_ok (messages read_db) = true
  ∧ List.map (fun m => (msg_status m, msg_is_read m)) (messages reverted)
    = [("sent", true); ("sent", false); ("read", true); ("read", true)]
  ∧ forallb message_ok (messages reverted) = false
  ∧ no_regress (messages read_db) (messages reverted) = false.
Proof.
  repeat split; reflexivity.
Qed.

(** ** The websocket loop *)




(** ** Finding or creating a conversation *)

Lemma user_count_swap (db : DB) (a b : string) (conversation_id : Z) :
  user_count db [a; b] conversation_id = user_count db [b; a] conversation_id.
Proof.
  unfold user_count. f_equal. f_equal. apply List.filter_ext. intros u. simpl.
  rewrite !orb_false_r. apply orb_comm.
Qed.

(** The lookup does not depend on the order of the two users. *)
Lemma existing_conv_swap (db : DB) (a b : string) :
  existing_conv db a b = existing_conv db b a.
Proof.
  unfold existing_conv. induction (conversations db) as [|c l IH]; simpl; [done|].
  by rewrite user_count_swap, IH.
Qed.

(** A conversation counted 2 for two distinct users has both of them
    among its participants. *)
Lemma user_count_two_has_both (db : DB) (a b : string) (conversation_id : Z) :
  user_count db [a; b] conversation_id = 2%nat →
  In a (participants_of db conversation_id) ∧ In b (participants_of db conversation_id).
Proof.
  unfold user_count. set (l := participants_of db conversation_id).
  set (F := nodup string_dec _). intros Hlen.
  assert (Hnd : List.NoDup F) by apply List.NoDup_nodup.
  assert (Hsub : ∀ u, In u F → In u l ∧ (u = a ∨ u = b)).
  { intros u Hu. apply nodup_In, filter_In in Hu as [Hu Hab]. split; [done|].
    simpl in Hab. rewrite orb_false_r in Hab.
    apply orb_prop in Hab as [H|H]; apply String.eqb_eq in H; auto. }
  assert (Hone : ∀ x, (∀ u, In u F → u = x) → False).
  { intros x Hall.
    assert (Hle : (length F ≤ length [x])%nat).
    { apply List.NoDup_incl_length; [done|]. intros u Hu. left. symmetry. by apply Hall. }
    simpl in Hle. lia. }
  split.
  - destruct (in_dec string_dec a F) as [Ha|Ha]; [by apply Hsub in Ha as [? _]|].
    exfalso. apply (Hone b). intros u Hu.
    destruct (Hsub u Hu) as [_ [->| ->]]; [done | reflexivity].
  - destruct (in_dec string_dec b F) as [Hb|Hb]; [by apply Hsub in Hb as [? _]|].
    exfalso. apply (Hone a). intros u Hu.
    destruct (Hsub u Hu) as [_ [->| ->]]; [reflexivity | done].
Qed.

Lemma existing_conv_has_both (db : DB) (a b : string) (conv : Conversation) :
  existing_conv db a b = Some conv →
  In conv (conversations db)
  ∧ In a (participants_of db (conv_id conv))
  ∧ In b (participants_of db (conv_id conv)).
Proof.
  unfold existing_conv. intros Hfound. apply find_some in Hfound as [Hin Hcount].
  split; [done|]. apply user_count_two_has_both. by apply Nat.eqb_eq.
Qed.

(** In a conversation with at most two distinct participants, two
    distinct users that are both in it are all of it. *)
Lemma both_of_two_is_all (l : list string) (a b : string) :
  a ≠ b → In a l → In b l → (length (nodup string_dec l) ≤ 2)%nat →
  ∀ u, In u l ↔ u = a ∨ u = b.
Proof.
  intros Hab Ha Hb Hlen u. split; [|by intros [->| ->]].
  intros Hu. destruct (string_dec u a) as [|Hua]; [by left|].
  destruct (string_dec u b) as [|Hub]; [by right|]. exfalso.
  assert (Hle : (length [u; a; b] ≤ length (nodup string_dec l))%nat).
  { apply List.NoDup_incl_length.
    - repeat constructor; simpl; intuition congruence.
    - intros x [<-|[<-|[<-|[]]]]; by apply nodup_In. }
  simpl in Hle. lia.
Qed.

(** From the empty store, two calls for the same pair, in either order
    of the two users, leave one conversation, with the two of them. *)
Example create_conversation_twice_empty :
  let ab := {| participantId := "B"; currentUserId := "A"; initialMessage := Some "hi" |} in
  let ba := {| participantId := "A"; currentUserId := "B"; initialMessage := None |} in
  let first := create_conversation ab 100 empty_db in
  let second := create_conversation ba 101 first.2 in
  first.1 = Return {| conv_id := 1; conv_name := Some "Karla Rodríguez" |}
  ∧ second = first
  ∧ participants_of first.2 1 = ["B"; "A"]
  ∧ List.map (fun m => (msg_sender_id m, msg_content m, msg_status m)) (messages first.2)
    = [("A", "hi", "sent")].
Proof.
  repeat split; reflexivity.
Qed.

(** A pair made of one user twice: the second participant row breaks
    [uq_conv_user], the transaction is rolled back and the caller gets
    a 500. *)
Example create_conversation_self :
  create_conversation
    {| participantId := "A"; currentUserId := "A"; initialMessage := None |} 100 two_party_db
  = (Raise (HTTPException 500), two_party_db).
Proof. reflexivity. Qed.

Lemma fresh_id_above (ids : list Z) (x : Z) : In x ids → (x < fresh_id ids)%Z.
Proof.
  unfold fresh_id. induction ids as [|y ids IH]; simpl; [done|].
  intros [->|Hin]; [lia|]. specialize (IH Hin). lia.
Qed.

Lemma is_participant_In (db : DB) (conversation_id : Z) (user_id : string) :
  is_participant db conversation_id user_id = true
  ↔ In user_id (participants_of db conversation_id).
Proof.
  unfold is_participant, participants_of. rewrite existsb_exists, in_map_iff. split.
  - intros (p & Hin & Hp). apply andb_prop in Hp as [Hid Hu].
    apply String.eqb_eq in Hu. exists p. split; [done|]. apply filter_In. by split.
  - intros (p & Hu & Hp). apply filter_In in Hp as [Hin Hid]. exists p. split; [done|].
    rewrite Hid. simpl. by apply String.eqb_eq.
Qed.

Lemma existsb_same_row (db : DB) (conversation_id : Z) (user_id : string) :
  existsb (same_row {| cp_conversation_id := conversation_id; cp_user_id := user_id |})
          (participants db)
  = is_participant db conversation_id user_id.
Proof.
  unfold is_participant. induction (participants db) as [|p l IH]; simpl; [done|].
  rewrite IH. unfold same_row. simpl.
  by rewrite (Z.eqb_sym conversation_id), (String.eqb_sym user_id).
Qed.

Lemma find_last {A} (f : A → bool) (l : list A) (x : A) :
  (∀ y, In y l → f y = false) → f x = true → List.find f (l ++ [x]) = Some x.
Proof.
  intros Hnone Hx. induction l as [|y l IH]; simpl.
  - by rewrite Hx.
  - rewrite (Hnone y) by (by left). apply IH. intros z Hz. apply Hnone. by right.
Qed.

(** What the create branch leaves, when it commits. *)
Lemma create_conversation_try_new (payload : CreateConversationIn) (now : Z) (db db' : DB)
    (conv : Conversation) :
  existing_conv db (currentUserId payload) (participantId payload) = None →
  create_conversation_try payload now db = Return (conv, db') →
  let id := fresh_id (List.map conv_id (conversations db)) in
  conv_id conv = id
  ∧ conv_name conv = chat_name id
  ∧ conversations db' = conversations db ++ [conv]
  ∧ participants db'
    = participants db
      ++ [ {| cp_conversation_id := id; cp_user_id := participantId payload |};
           {| cp_conversation_id := id; cp_user_id := currentUserId payload |} ]
  ∧ is_participant db id (participantId payload) = false
  ∧ is_participant db id (currentUserId payload) = false
  ∧ currentUserId payload ≠ participantId payload.
Proof.
  intros Hnone. unfold create_conversation_try. rewrite Hnone.
  set (id := fresh_id (List.map conv_id (conversations db))). cbv zeta.
  unfold insert_participant at 1.
  cbn [insert_conversation participants conversations messages].
  rewrite (existsb_same_row db id (participantId payload)).
  destruct (is_participant db id (participantId payload)) eqn:Hp1; [discriminate|].
  cbn [bind]. unfold insert_participant. cbn [participants conversations messages].
  rewrite existsb_app, (existsb_same_row db id (currentUserId payload)).
  destruct (is_participant db id (currentUserId payload)) eqn:Hp2; [discriminate|].
  cbn [existsb orb]. unfold same_row. cbn [cp_conversation_id cp_user_id].
  rewrite Z.eqb_refl, orb_false_r. cbn [andb].
  destruct (String.eqb (currentUserId payload) (participantId payload)) eqn:Hsame;
    [discriminate|].
  cbn [bind]. destruct (chat_name id) as [name|] eqn:Hname; [|discriminate].
  cbn [or_raise bind]. intros [= <- <-].
  assert (Hconvs : List.map
                     (fun c => if (conv_id c =? id)%Z
                               then {| conv_id := conv_id c; conv_name := Some name |}
                               else c)
                     (conversations db ++ [ {| conv_id := id; conv_name := None |} ])
                   = conversations db ++ [ {| conv_id := id; conv_name := Some name |} ]).
  { rewrite List.map_app. simpl. rewrite Z.eqb_refl. f_equal.
    rewrite <- (List.map_id (conversations db)) at 2.
    apply List.map_ext_in. intros c Hc.
    assert (Hlt : (conv_id c < id)%Z).
    { apply fresh_id_above, in_map_iff. by exists c. }
    destruct (Z.eqb_spec (conv_id c) id); [lia | done]. }
  repeat split; try done.
  - unfold set_conversation_name. cbn [conversations].
    destruct (initialMessage payload) as [text|]; [destruct (String.eqb text "")|];
      cbn [conversations add_message]; exact Hconvs.
  - unfold set_conversation_name. cbn [participants].
    destruct (initialMessage payload) as [text|]; [destruct (String.eqb text "")|];
      cbn [participants add_message]; by rewrite <- app_assoc.
  - intros Heq. apply String.eqb_neq in Hsame. done.
Qed.

Lemma filter_nothing {A} (f : A → bool) (l : list A) :
  (∀ x, In x l → f x = false) → List.filter f l = [].
Proof.
  induction l as [|x l IH]; simpl; [done|]. intros Hnone.
  rewrite (Hnone x) by (by left). apply IH. intros y Hy. apply Hnone. by right.
Qed.

(** After the create branch, the lookup finds the new conversation. *)
Lemma existing_conv_after_create (payload : CreateConversationIn) (now : Z) (db db' : DB)
    (conv : Conversation) :
  existing_conv db (currentUserId payload) (participantId payload) = None →
  create_conversation_try payload now db = Return (conv, db') →
  existing_conv db' (currentUserId payload) (participantId payload) = Some conv.
Proof.
  intros Hnone Htry.
  destruct (create_conversation_try_new payload now db db' conv Hnone Htry)
    as (Hid & _ & Hconvs & Hparts & Hp1 & Hp2 & Hne).
  set (id := fresh_id (List.map conv_id (conversations db))) in *.
  set (cur := currentUserId payload) in *. set (part := participantId payload) in *.
  assert (Hof : ∀ cid, participants_of db' cid
                       = participants_of db cid
                         ++ (if (id =? cid)%Z then [part; cur] else [])).
  { intros cid. unfold participants_of. rewrite Hparts, List.filter_app, List.map_app.
    f_equal. simpl. by destruct (id =? cid)%Z. }
  unfold existing_conv. rewrite Hconvs. apply find_last.
  - intros c Hc. unfold existing_conv in Hnone.
    pose proof (find_none _ _ Hnone c Hc) as Hold. simpl in Hold.
    assert (Hlt : (conv_id c < id)%Z).
    { apply fresh_id_above, in_map_iff. by exists c. }
    unfold user_count in *. rewrite Hof.
    destruct (Z.eqb_spec id (conv_id c)); [lia|]. by rewrite app_nil_r.
  - apply Nat.eqb_eq. unfold user_count. rewrite Hid, Hof, Z.eqb_refl, List.filter_app.
    rewrite filter_nothing.
    + simpl. rewrite !String.eqb_refl, !orb_true_r. simpl.
      destruct (string_dec cur part) as [Heq|_]; [done | reflexivity].
    + intros u Hu. apply is_participant_In in Hu. simpl. rewrite orb_false_r.
      apply orb_false_iff. split; apply String.eqb_neq; intros ->; congruence.
Qed.

(** Once a call for a pair has returned a conversation, a further call
    for the same pair, in either order of the two users, returns that
    conversation and creates nothing. *)
Lemma create_conversation_again (payload again : CreateConversationIn) (now now' : Z)
    (db db' : DB) (conv : Conversation) :
  (currentUserId again = currentUserId payload
   ∧ participantId again = participantId payload)
  ∨ (currentUserId again = participantId payload
     ∧ participantId again = currentUserId payload) →
  create_conversation payload now db = (Return conv, db') →
  create_conversation again now' db' = (Return conv, db').
Proof.
  intros Hpair Hfirst. unfold create_conversation in Hfirst.
  destruct (create_conversation_try payload now db) as [e|[c d]] eqn:Htry; [discriminate|].
  injection Hfirst as -> ->.
  assert (Hfound : existing_conv db' (currentUserId payload) (participantId payload)
                   = Some conv).
  { destruct (existing_conv db (currentUserId payload) (participantId payload))
      as [c0|] eqn:Hex.
    - unfold create_conversation_try in Htry. rewrite Hex in Htry.
      by injection Htry as -> ->.
    - by eapply existing_conv_after_create. }
  assert (Hagain : existing_conv db' (currentUserId again) (participantId again)
                   = Some conv).
  { destruct Hpair as [[-> ->]|[-> ->]]; [done|]. by rewrite existing_conv_swap. }
  unfold create_conversation, create_conversation_try. by rewrite Hagain.
Qed.

(** ** The foreign key of the participants *)

Lemma foreign_key_same_tables (db db' : DB) :
  conversations db' = conversations db →
  participants db' = participants db →
  participants_reference_conversations db →
  participants_reference_conversations db'.
Proof.
  unfold participants_reference_conversations, conversation_exists.
  intros -> -> Hfk. exact Hfk.
Qed.

(** create_conversation adds participant rows only for the conversation
    it has just inserted. *)
Lemma create_conversation_keeps_foreign_key (payload : CreateConversationIn) (now : Z)
    (db : DB) :
  participants_reference_conversations db →
  participants_reference_conversations (create_conversation payload now db).2.
Proof.
  intros Hfk. unfold create_conversation.
  destruct (create_conversation_try payload now db) as [e|[conv db']] eqn:Htry; [done|].
  simpl.
  destruct (existing_conv db (currentUserId payload) (participantId payload))
    as [c0|] eqn:Hex.
  - unfold create_conversation_try in Htry. rewrite Hex in Htry.
    by injection Htry as _ <-.
  - destruct (create_conversation_try_new payload now db db' conv Hex Htry)
      as (Hid & _ & Hconvs & Hparts & _).
    intros p Hp. unfold conversation_exists. rewrite Hconvs, existsb_app.
    rewrite Hparts in Hp. apply in_app_or in Hp as [Hold|Hnew].
    + apply orb_true_iff. left. by apply Hfk.
    + apply orb_true_iff. right. simpl. rewrite Hid, orb_false_r. apply Z.eqb_eq.
      destruct Hnew as [<-|[<-|[]]]; reflexivity.
Qed.

(** The other handlers leave the conversations and the participants as
    they are. *)
Lemma handlers_keep_foreign_key (send_ok : WebSocket → bool) (w : World) :
  participants_reference_conversations (w_db w) →
  (∀ conversation_id body now,
     participants_reference_conversations
       (w_db (send_message send_ok conversation_id body now w).2))
  ∧ (∀ from_thread_ok conversation_id user_id,
       participants_reference_conversations
         (w_db (mark_conversation_read send_ok from_thread_ok conversation_id user_id w).2))
  ∧ (∀ message_id status,
       participants_reference_conversations
         (update_message_status message_id status (w_db w)).2)
  ∧ (∀ room_id websocket data now,
       participants_reference_conversations
         (w_db (websocket_turn send_ok room_id websocket data now w).2)).
Proof.
  intros Hfk. split; [|split; [|split]].
  - intros conversation_id body now. unfold send_message.
    by destruct (is_participant _ _ _), (int64 _).
  - intros from_thread_ok conversation_id user_id. unfold mark_conversation_read.
    destruct user_id as [user|]; [|done]. destruct (String.eqb user ""); [done|].
    unfold mark_conversation_read_try.
    destruct (conversation_exists _ _); simpl; [|done].
    destruct (is_participant _ _ _); simpl; [|done].
    destruct (0 <? _)%nat; [destruct from_thread_ok|]; exact Hfk.
  - intros message_id status. unfold update_message_status.
    by destruct (existsb _ _), (int64 message_id).
  - intros room_id websocket data now. unfold websocket_turn, reply_error.
    destruct (in_content data) as [content|], (in_sender_id data) as [sender_id|];
      try (by destruct (send_ok websocket)).
    destruct (falsy (Some content) || falsy (Some sender_id)); [|done].
    by destruct (send_ok websocket).
Qed.

(** ** A whole session *)

(** A session that joins room 1, sends an event without content and one
    with content, and leaves: the reply and the message reach it, the
    message is stored, and the room has no entry once it has left. *)
Example websocket_endpoint_session :
  let w := websocket_endpoint (fun _ => true) 1 5%nat
             [ ({| in_content := None; in_sender_id := Some "A" |}, 100%Z);
               ({| in_content := Some "hi"; in_sender_id := Some "A" |}, 101%Z) ]
             two_party_world in
  w_manager w !! 1%Z = None
  ∧ List.map msg_content (messages (w_db w)) = ["hi"]
  ∧ w_delivered w
    = [ (5%nat, ErrorPayload "content and sender_id required");
        (5%nat, MessagePayload 1 (Some "A") "A" "hi" 101 "sent") ].
Proof.
  repeat split; vm_compute; reflexivity.
Qed.

(** * Further properties *)

#[local] Set Warnings "-clear-no-such-hyp".

(** ** The connection manager: registering and unregistering *)

Lemma sessions_empty_lookup (m : ConnectionManager) (room_id : Z) :
  no_empty_room m → sessions m room_id = ∅ → m !! room_id = None.
Proof.
  intros Hinv. unfold sessions. destruct (m !! room_id) as [conns|] eqn:Hroom; [|done].
  simpl. intros ->. by apply Hinv in Hroom.
Qed.

Lemma sessions_nonempty_lookup (m : ConnectionManager) (room_id : Z) :
  sessions m room_id ≠ ∅ → m !! room_id = Some (sessions m room_id).
Proof. unfold sessions. by destruct (m !! room_id). Qed.

Lemma disconnect_unregistered (m : ConnectionManager) (room_id : Z) (ws : WebSocket) :
  ws ∉ sessions m room_id → disconnect room_id ws m = m.
Proof.
  unfold sessions, disconnect. destruct (m !! room_id) as [conns|]; [|done].
  simpl. intros Hout. rewrite decide_False; [done|]. by intros [_ Hin].
Qed.

Lemma connect_registered (m : ConnectionManager) (room_id : Z) (ws : WebSocket) :
  ws ∈ sessions m room_id → connect room_id ws m = m.
Proof.
  intros Hin. unfold connect. apply insert_id.
  rewrite sessions_nonempty_lookup by set_solver. f_equal. set_solver.
Qed.

(** X1: in a registry without empty rooms, registering a session that
    was not on the room and unregistering it gives the registry back,
    entry of the room included; and unregistering a session that was on
    the room and registering it again gives the registry back. *)
Theorem connect_disconnect_round_trip (m : ConnectionManager) (room_id : Z) (ws : WebSocket) :
  no_empty_room m →
  (ws ∉ sessions m room_id → disconnect room_id ws (connect room_id ws m) = m)
  ∧ (ws ∈ sessions m room_id → connect room_id ws (disconnect room_id ws m) = m).
Proof.
  intros Hinv. split.
  - intros Hout. unfold disconnect, connect at 1. rewrite lookup_insert_eq.
    rewrite decide_True by set_solver.
    assert (Hback : ({[ws]} ∪ sessions m room_id) ∖ {[ws]} = sessions m room_id)
      by set_solver.
    cbv zeta. rewrite Hback. case_decide as Hempty.
    + unfold connect. apply delete_insert_id. by apply sessions_empty_lookup.
    + unfold connect. rewrite insert_insert_eq. apply insert_id.
      by apply sessions_nonempty_lookup.
  - intros Hin. apply map_eq. intros other.
    destruct (decide (room_id = other)) as [<-|Hne].
    + unfold connect. rewrite lookup_insert_eq, sessions_disconnect.
      rewrite sessions_nonempty_lookup by set_solver. f_equal.
      apply set_eq. intros x. rewrite elem_of_union, elem_of_singleton,
        elem_of_difference, elem_of_singleton.
      destruct (decide (x = ws)) as [->|]; naive_solver.
    + by rewrite lookup_connect_ne, lookup_disconnect_ne.
Qed.

Lemma connect_disconnect_round_trip_witness :
  disconnect 1 7%nat (connect 1 7%nat (w_manager live_world)) = w_manager live_world
  ∧ connect 1 5%nat (disconnect 1 5%nat (w_manager live_world)) = w_manager live_world.
Proof.
  assert (Hinv : no_empty_room (w_manager live_world)).
  { apply connect_no_empty_room, connect_no_empty_room.
    intros r conns. by rewrite lookup_empty. }
  destruct (connect_disconnect_round_trip (w_manager live_world) 1 7%nat Hinv) as [Hout _].
  destruct (connect_disconnect_round_trip (w_manager live_world) 1 5%nat Hinv) as [_ Hin].
  split; [apply Hout | apply Hin]; vm_compute; intuition congruence.
Defined.

(** X2: unregistering a session that is not on the room, or from a room
    that has no entry, changes nothing; registering a session that is
    already on the room changes nothing; so each of the two is
    idempotent. *)
Theorem connect_disconnect_idempotent (m : ConnectionManager) (room_id : Z) (ws : WebSocket) :
  (ws ∉ sessions m room_id → disconnect room_id ws m = m)
  ∧ (ws ∈ sessions m room_id → connect room_id ws m = m)
  ∧ connect room_id ws (connect room_id ws m) = connect room_id ws m
  ∧ disconnect room_id ws (disconnect room_id ws m) = disconnect room_id ws m.
Proof.
  split; [apply disconnect_unregistered|]. split; [apply connect_registered|]. split.
  - apply connect_registered. rewrite sessions_connect. set_solver.
  - apply disconnect_unregistered. rewrite sessions_disconnect. set_solver.
Qed.

Lemma connect_disconnect_idempotent_witness :
  disconnect 2 5%nat (w_manager live_world) = w_manager live_world
  ∧ connect 1 5%nat (w_manager live_world) = w_manager live_world.
Proof.
  destruct (connect_disconnect_idempotent (w_manager live_world) 2 5%nat) as (Hout & _).
  destruct (connect_disconnect_idempotent (w_manager live_world) 1 5%nat) as (_ & Hin & _).
  split; [apply Hout | apply Hin]; vm_compute; intuition congruence.
Defined.

(** ** The connection manager: broadcasts *)

Lemma broadcast_loop_all_ok (send_ok : WebSocket → bool) (room_id : Z) (message : Payload)
    (l : list WebSocket) :
  (∀ ws, ws ∈ l → send_ok ws = true) →
  ∀ m log,
    foldl (send_json_or_disconnect send_ok room_id message) (m, log) l
    = (m, log ++ List.map (fun ws => (ws, message)) l).
Proof.
  induction l as [|a l IH]; intros Hok m log; simpl.
  - by rewrite app_nil_r.
  - unfold send_json_or_disconnect at 2. simpl.
    rewrite (Hok a) by (by left). rewrite IH.
    + by rewrite <- app_assoc.
    + intros ws Hws. apply Hok. by right.
Qed.

Lemma sessions_after_broadcast (send_ok : WebSocket → bool) (room_id : Z)
    (message : Payload) (m : ConnectionManager) (ws : WebSocket) :
  ws ∈ sessions (broadcast send_ok room_id message m).1 room_id
  ↔ ws ∈ sessions m room_id ∧ send_ok ws = true.
Proof.
  unfold broadcast. rewrite broadcast_loop_sessions, elem_of_elements.
  destruct (send_ok ws); split.
  - intros [Hin _]. done.
  - intros [Hin _]. split; [done|]. intros [_ Hf]. discriminate.
  - intros [Hin Hno]. exfalso. by apply Hno.
  - intros [_ Hf]. discriminate.
Qed.

(** X3: a broadcast to a room leaves the entry of every other room as
    it was, and on a room without sessions it delivers nothing and
    leaves the whole registry as it was. *)
Theorem broadcast_room_isolation (send_ok : WebSocket → bool) (room_id other : Z)
    (message : Payload) (m : ConnectionManager) :
  (room_id ≠ other → (broadcast send_ok room_id message m).1 !! other = m !! other)
  ∧ (sessions m room_id = ∅ → broadcast send_ok room_id message m = (m, [])).
Proof.
  split.
  - intros Hne. unfold broadcast. by apply broadcast_loop_other_rooms.
  - intros Hempty. unfold broadcast. by rewrite Hempty, elements_empty.
Qed.

Lemma broadcast_room_isolation_witness :
  (broadcast (fun _ => false) 1 (ErrorPayload "x") (w_manager live_world)).1 !! 2%Z
  = w_manager live_world !! 2%Z
  ∧ broadcast (fun _ => false) 2 (ErrorPayload "x") (w_manager live_world)
    = (w_manager live_world, []).
Proof.
  destruct (broadcast_room_isolation (fun _ => false) 1 2 (ErrorPayload "x")
              (w_manager live_world)) as [Hother _].
  destruct (broadcast_room_isolation (fun _ => false) 2 1 (ErrorPayload "x")
              (w_manager live_world)) as [_ Hnone].
  split; [apply Hother; lia | apply Hnone; vm_compute; reflexivity].
Defined.

(** X4: when the send succeeds for every session of the room, a
    broadcast leaves the registry as it was and delivers the event as
    many times as the room has sessions. *)
Theorem broadcast_without_failure (send_ok : WebSocket → bool) (room_id : Z)
    (message : Payload) (m : ConnectionManager) :
  (∀ ws, ws ∈ sessions m room_id → send_ok ws = true) →
  let r := broadcast send_ok room_id message m in
  r.1 = m
  ∧ r.2 = List.map (fun ws => (ws, message)) (elements (sessions m room_id))
  ∧ length r.2 = size (sessions m room_id).
Proof.
  intros Hok r. unfold r, broadcast. rewrite broadcast_loop_all_ok.
  - simpl. split; [done|]. split; [done|]. by rewrite length_map.
  - intros ws Hws. apply Hok. by apply elem_of_elements.
Qed.

Lemma broadcast_without_failure_witness :
  let r := broadcast (fun _ => true) 1 (ErrorPayload "x") (w_manager live_world) in
  r.1 = w_manager live_world ∧ length r.2 = 2%nat.
Proof.
  destruct (broadcast_without_failure (fun _ => true) 1 (ErrorPayload "x")
              (w_manager live_world)) as (Hsame & _ & Hlen); [done|].
  split; [exact Hsame|]. rewrite Hlen. vm_compute. reflexivity.
Defined.

(** X5: once a broadcast has evicted the sessions whose send fails, a
    second broadcast on the room with the same send outcomes evicts
    nobody, leaves the registry as the first left it, and reaches the
    same sessions as the first. *)
Theorem broadcast_twice (send_ok : WebSocket → bool) (room_id : Z)
    (message message' : Payload) (m : ConnectionManager) :
  let first := broadcast send_ok room_id message m in
  let second := broadcast send_ok room_id message' first.1 in
  second.1 = first.1
  ∧ List.map fst second.2 ≡ₚ List.map fst first.2.
Proof.
  intros first second.
  assert (Hafter : ∀ ws, ws ∈ sessions first.1 room_id
                         ↔ ws ∈ sessions m room_id ∧ send_ok ws = true).
  { intros ws. apply sessions_after_broadcast. }
  assert (Hok : ∀ ws, ws ∈ elements (sessions first.1 room_id) → send_ok ws = true).
  { intros ws Hws. apply elem_of_elements, Hafter in Hws. tauto. }
  unfold second, broadcast at 1 2. rewrite (broadcast_loop_all_ok _ _ _ _ Hok).
  simpl. split; [done|].
  unfold first, broadcast. rewrite broadcast_loop_delivered. simpl.
  rewrite !List.map_map. simpl. rewrite !List.map_id.
  apply NoDup_Permutation.
  - apply NoDup_elements.
  - apply NoDup_ListNoDup, List.NoDup_filter, NoDup_ListNoDup, NoDup_elements.
  - intros ws. rewrite elem_of_elements.
    change (foldl (send_json_or_disconnect send_ok room_id message) (m, [])
                  (elements (sessions m room_id))) with first.
    rewrite Hafter, list_elem_of_In, filter_In, <- list_elem_of_In, elem_of_elements.
    done.
Qed.

(** ** The integrity of the store *)

Lemma fresh_id_not_in (ids : list Z) : fresh_id ids ∉ ids.
Proof.
  intros Hin. apply list_elem_of_In, fresh_id_above in Hin. lia.
Qed.

Lemma conversation_exists_In (db : DB) (conversation_id : Z) :
  conversation_exists db conversation_id = true
  ↔ conversation_id ∈ List.map conv_id (conversations db).
Proof.
  unfold conversation_exists. rewrite existsb_exists, list_elem_of_In, in_map_iff.
  split; intros (c & H1 & H2); exists c.
  - apply Z.eqb_eq in H2. done.
  - split; [done|]. by apply Z.eqb_eq.
Qed.

Lemma same_row_eq (p q : ConversationParticipant) : same_row p q = true ↔ p = q.
Proof.
  unfold same_row. rewrite andb_true_iff, Z.eqb_eq, String.eqb_eq.
  destruct p, q; simpl. split; [by intros [-> ->] | by intros [= -> ->]].
Qed.

Lemma store_ok_same_keys (db db' : DB) :
  conversations db' = conversations db →
  participants db' = participants db →
  List.map msg_id (messages db') = List.map msg_id (messages db) →
  store_ok db → store_ok db'.
Proof.
  intros Hc Hp Hm (H1 & H2 & H3 & H4). unfold store_ok.
  rewrite Hc, Hp, Hm. repeat split; try done.
  by apply (foreign_key_same_tables db db').
Qed.

Lemma store_ok_add_message (db : DB) (m : Message) :
  msg_id m = fresh_id (List.map msg_id (messages db)) →
  store_ok db → store_ok (add_message db m).
Proof.
  intros Hid (H1 & H2 & H3 & H4). unfold store_ok, add_message. simpl.
  repeat split; try done.
  rewrite List.map_app. simpl. apply NoDup_app. split; [done|]. split.
  - intros x Hx Hx'. apply list_elem_of_singleton in Hx'. subst x.
    rewrite Hid in Hx. by apply fresh_id_not_in in Hx.
  - apply NoDup_singleton.
Qed.

Lemma store_ok_insert_conversation (db : DB) (name : option string) :
  store_ok db →
  store_ok (insert_conversation db
              {| conv_id := fresh_id (List.map conv_id (conversations db));
                 conv_name := name |}).
Proof.
  intros (H1 & H2 & H3 & H4). unfold store_ok, insert_conversation. simpl.
  repeat split; try done.
  - rewrite List.map_app. simpl. apply NoDup_app. split; [done|]. split.
    + intros x Hx Hx'. apply list_elem_of_singleton in Hx'. subst x.
      by apply fresh_id_not_in in Hx.
    + apply NoDup_singleton.
  - intros p Hp. unfold conversation_exists. simpl. rewrite existsb_app.
    apply orb_true_iff. left. by apply H4.
Qed.

Lemma store_ok_insert_participant (db db' : DB) (p : ConversationParticipant) :
  insert_participant db p = Return db' →
  conversation_exists db (cp_conversation_id p) = true →
  store_ok db →
  store_ok db'
  ∧ conversations db' = conversations db
  ∧ messages db' = messages db
  ∧ participants db' = participants db ++ [p].
Proof.
  unfold insert_participant.
  destruct (existsb (same_row p) (participants db)) eqn:Hdup; [discriminate|].
  intros [= <-] Hconv (H1 & H2 & H3 & H4). simpl. split; [|done].
  unfold store_ok. simpl. repeat split; try done.
  - apply NoDup_app. split; [done|]. split; [|apply NoDup_singleton].
    intros q Hq Hq'. apply list_elem_of_singleton in Hq'. subst q.
    assert (Hex : existsb (same_row p) (participants db) = true).
    { apply existsb_exists. exists p. split; [by apply list_elem_of_In|].
      by apply same_row_eq. }
    congruence.
  - intros q Hq. simpl in Hq. apply in_app_or in Hq as [Hq|[<-|[]]].
    + by apply H4.
    + exact Hconv.
Qed.

Lemma store_ok_set_conversation_name (db : DB) (conversation_id : Z) (name : string) :
  store_ok db → store_ok (set_conversation_name db conversation_id name).
Proof.
  intros (H1 & H2 & H3 & H4).
  assert (Hids : List.map conv_id (conversations (set_conversation_name db conversation_id name))
                 = List.map conv_id (conversations db)).
  { simpl. rewrite List.map_map. apply List.map_ext. intros c.
    by destruct (conv_id c =? conversation_id)%Z. }
  unfold store_ok. rewrite Hids. repeat split; try done.
  intros p Hp. apply conversation_exists_In. rewrite Hids.
  apply conversation_exists_In. by apply H4.
Qed.

(** A new conversation and its two participant rows, as the three
    writers of conversations make them. *)
Lemma store_ok_new_pair (db db2 db3 : DB) (name : option string) (u1 u2 : string) :
  let id := fresh_id (List.map conv_id (conversations db)) in
  store_ok db →
  insert_participant (insert_conversation db {| conv_id := id; conv_name := name |})
                     {| cp_conversation_id := id; cp_user_id := u1 |} = Return db2 →
  insert_participant db2 {| cp_conversation_id := id; cp_user_id := u2 |} = Return db3 →
  store_ok db3
  ∧ conversations db3 = conversations db ++ [ {| conv_id := id; conv_name := name |} ]
  ∧ messages db3 = messages db
  ∧ participants db3
    = participants db ++ [ {| cp_conversation_id := id; cp_user_id := u1 |};
                           {| cp_conversation_id := id; cp_user_id := u2 |} ].
Proof.
  intros id Hok Hp1 Hp2.
  pose proof (store_ok_insert_conversation db name Hok) as Hok1. fold id in Hok1.
  assert (Hex1 : conversation_exists
                   (insert_conversation db {| conv_id := id; conv_name := name |}) id = true).
  { unfold conversation_exists. simpl. rewrite existsb_app. simpl.
    by rewrite Z.eqb_refl, orb_true_r. }
  destruct (store_ok_insert_participant _ _ _ Hp1 Hex1 Hok1) as (Hok2 & Hc2 & Hm2 & Hq2).
  assert (Hex2 : conversation_exists db2 id = true).
  { unfold conversation_exists. by rewrite Hc2. }
  destruct (store_ok_insert_participant _ _ _ Hp2 Hex2 Hok2) as (Hok3 & Hc3 & Hm3 & Hq3).
  split; [done|]. rewrite Hc3, Hc2, Hm3, Hm2, Hq3, Hq2. simpl.
  by rewrite <- app_assoc.
Qed.

Lemma create_conversation_store_ok (payload : CreateConversationIn) (now : Z) (db : DB) :
  store_ok db → store_ok (create_conversation payload now db).2.
Proof.
  intros Hok. unfold create_conversation, create_conversation_try.
  destruct (existing_conv db _ _); [done|]. cbv zeta.
  destruct (insert_participant (insert_conversation db _) _) as [e|db2] eqn:Hp1; [done|].
  cbn [bind].
  destruct (insert_participant db2 _) as [e|db3] eqn:Hp2; [done|]. cbn [bind].
  destruct (chat_name _) as [name|]; [|done]. cbn [or_raise bind snd].
  destruct (store_ok_new_pair db db2 db3 None _ _ Hok Hp1 Hp2) as (Hok3 & _).
  apply store_ok_set_conversation_name.
  destruct (initialMessage payload) as [text|]; [destruct (String.eqb text "")|];
    try done.
  by apply store_ok_add_message.
Qed.

Lemma demo_conversation_store_ok (user_id partner : string) (now : Z) (db db' : DB) :
  store_ok db → demo_conversation user_id partner now db = Return db' → store_ok db'.
Proof.
  intros Hok. unfold demo_conversation. cbv zeta.
  destruct (insert_participant (insert_conversation db _) _) as [e|db2] eqn:Hp1;
    [discriminate|]. cbn [bind].
  destruct (insert_participant db2 _) as [e|db3] eqn:Hp2; [discriminate|]. cbn [bind].
  intros [= <-].
  destruct (store_ok_new_pair db db2 db3 None _ _ Hok Hp1 Hp2) as (Hok3 & _).
  repeat (apply store_ok_add_message; [reflexivity|]). exact Hok3.
Qed.

Lemma demo_conversations_store_ok (user_id : string) (partners : list (string * Z)) :
  ∀ db db', store_ok db → demo_conversations user_id partners db = Return db' →
            store_ok db'.
Proof.
  induction partners as [|[partner now] rest IH]; intros db db' Hok; simpl.
  - by intros [= <-].
  - destruct (demo_conversation user_id partner now db) as [e|db1] eqn:Hdemo;
      [discriminate|]. cbn [bind]. apply IH. by eapply demo_conversation_store_ok.
Qed.

Lemma add_demo_messages_store_ok (conversation_id : Z) (user_b : string) (base_time : Z)
    (msgs : list (string * string)) :
  ∀ i db, store_ok db →
          store_ok (add_demo_messages conversation_id user_b base_time i msgs db).
Proof.
  induction msgs as [|[sender content] rest IH]; intros i db Hok; simpl; [done|].
  apply IH. by apply store_ok_add_message.
Qed.

Lemma ensure_conversation_store_ok (user_a user_b : string) (now : Z) (db : DB)
    (r : Z * DB) :
  store_ok db → ensure_conversation user_a user_b now db = Return r → store_ok r.2.
Proof.
  intros Hok. unfold ensure_conversation. cbv zeta.
  destruct (insert_participant (insert_conversation db _) _) as [e|db2] eqn:Hp1;
    [discriminate|]. cbn [bind].
  destruct (insert_participant db2 _) as [e|db3] eqn:Hp2; [discriminate|]. cbn [bind].
  intros Heq.
  assert (Hr : r.2 = add_demo_messages (fresh_id (List.map conv_id (conversations db)))
                       user_b (now - 300) 0 (demo_messages user_a user_b) db3)
    by (by inversion Heq).
  rewrite Hr.
  destruct (store_ok_new_pair db db2 db3 None _ _ Hok Hp1 Hp2) as (Hok3 & _).
  by apply add_demo_messages_store_ok.
Qed.

Lemma seed_partners_store_ok (partners : list (string * Z)) :
  ∀ created db r, store_ok db → seed_partners partners created db = Return r →
                  store_ok r.2.
Proof.
  induction partners as [|[partner now] rest IH]; intros created db r Hok; simpl.
  - by intros [= <-].
  - destruct (ensure_conversation TEST_USER_ID partner now db) as [e|r1] eqn:Hens;
      [discriminate|]. cbn [bind]. apply IH. by eapply ensure_conversation_store_ok.
Qed.

Lemma read_by_id (conversation_id : Z) (user_id : string) (m : Message) :
  msg_id (read_by conversation_id user_id m) = msg_id m.
Proof. unfold read_by. by destruct (unread_from_others _ _ _). Qed.

(** What a handler of the service can do to the store: nothing, add
    one message under a fresh id, or mark messages read. *)
Lemma send_message_db (send_ok : WebSocket → bool) (conversation_id : Z)
    (body : MessageCreate) (now : Z) (w : World) :
  let r := send_message send_ok conversation_id body now w in
  w_db r.2 = w_db w
  ∨ w_db r.2 = add_message (w_db w)
                 (new_message (w_db w) conversation_id (body_sender_id body)
                              (body_content body) now).
Proof.
  unfold send_message.
  destruct (is_participant _ _ _); simpl; [by right|]. left. by destruct (int64 _).
Qed.

Lemma DB_ext (db db' : DB) :
  conversations db = conversations db' →
  participants db = participants db' →
  messages db = messages db' →
  db = db'.
Proof. destruct db, db'. simpl. by intros -> -> ->. Qed.

Lemma update_message_status_tables (message_id : Z) (status : string) (db : DB) :
  conversations (update_message_status message_id status db).2 = conversations db
  ∧ participants (update_message_status message_id status db).2 = participants db.
Proof.
  unfold update_message_status. by destruct (existsb _ _), (int64 message_id).
Qed.

Lemma mark_conversation_read_db (send_ok : WebSocket → bool) (from_thread_ok : bool)
    (conversation_id : Z) (user_id : option string) (w : World) :
  let r := mark_conversation_read send_ok from_thread_ok conversation_id user_id w in
  w_db r.2 = w_db w
  ∨ ∃ user, w_db r.2 = (update_read conversation_id user (w_db w)).2.
Proof.
  unfold mark_conversation_read. destruct user_id as [user|]; [|by left].
  destruct (String.eqb user ""); [by left|].
  unfold mark_conversation_read_try.
  destruct (conversation_exists _ _); simpl; [|by left].
  destruct (is_participant _ _ _); simpl; [|by left].
  right. exists user.
  destruct (0 <? _)%nat; [destruct from_thread_ok|]; reflexivity.
Qed.

Lemma websocket_turn_db (send_ok : WebSocket → bool) (room_id : Z)
    (websocket : WebSocket) (data : Inbound) (now : Z) (w : World) :
  let r := websocket_turn send_ok room_id websocket data now w in
  w_db r.2 = w_db w
  ∨ ∃ sender_id content,
      w_db r.2 = add_message (w_db w) (new_message (w_db w) room_id sender_id content now).
Proof.
  unfold websocket_turn, reply_error.
  destruct (in_content data) as [content|], (in_sender_id data) as [sender_id|];
    try (destruct (send_ok websocket); by left).
  destruct (falsy (Some content) || falsy (Some sender_id)).
  - destruct (send_ok websocket); by left.
  - right. by exists sender_id, content.
Qed.

(** X6: every handler that writes keeps the integrity of the store:
    unique conversation ids, unique message ids, one participant row per
    conversation and user, and no participant row for a conversation
    that is not in the table. This holds for create_conversation,
    send_message, mark_conversation_read, update_message_status, a turn
    of the websocket loop, get_conversations with its seeding, and the
    main of seed.py, whatever they return. *)
Theorem handlers_keep_store_ok (strftime_HM : Z → string) (send_ok : WebSocket → bool)
    (w : World) :
  store_ok (w_db w) →
  (∀ payload now, store_ok (create_conversation payload now (w_db w)).2)
  ∧ (∀ conversation_id body now,
       store_ok (w_db (send_message send_ok conversation_id body now w).2))
  ∧ (∀ from_thread_ok conversation_id user_id,
       store_ok (w_db (mark_conversation_read send_ok from_thread_ok conversation_id
                                              user_id w).2))
  ∧ (∀ message_id status, store_ok (update_message_status message_id status (w_db w)).2)
  ∧ (∀ room_id websocket data now,
       store_ok (w_db (websocket_turn send_ok room_id websocket data now w).2))
  ∧ (∀ env userId now1 now2,
       store_ok (get_conversations strftime_HM env userId now1 now2 (w_db w)).2)
  ∧ (∀ now1 now2, store_ok (seed_main now1 now2 (w_db w)).2).
Proof.
  intros Hok. repeat apply conj.
  - intros payload now. by apply create_conversation_store_ok.
  - intros conversation_id body now.
    destruct (send_message_db send_ok conversation_id body now w) as [->| ->]; [done|].
    by apply store_ok_add_message.
  - intros from_thread_ok conversation_id user_id.
    destruct (mark_conversation_read_db send_ok from_thread_ok conversation_id user_id w)
      as [->|[user ->]]; [done|].
    apply (store_ok_same_keys (w_db w)); try done.
    simpl. rewrite List.map_map. apply List.map_ext. intros m.
    by destruct (unread_from_others _ _ m).
  - intros message_id status. apply (store_ok_same_keys (w_db w)); try done.
    + apply update_message_status_tables.
    + apply update_message_status_tables.
    + rewrite update_message_status_messages, List.map_map. apply List.map_ext.
      intros m. by destruct (msg_id m =? message_id)%Z.
  - intros room_id websocket data now.
    destruct (websocket_turn_db send_ok room_id websocket data now w)
      as [->|(sender_id & content & ->)]; [done|]. by apply store_ok_add_message.
  - intros env userId now1 now2. unfold get_conversations.
    destruct userId as [user|]; [|done]. destruct (String.eqb user ""); [done|].
    destruct (conversations_of (w_db w) user); [|done].
    destruct (_enable_auto_seed env); [|done].
    destruct (ensure_demo_conversations user now1 now2 (w_db w)) as [e|db'] eqn:Hseed;
      [done|]. simpl. by eapply demo_conversations_store_ok.
  - intros now1 now2. unfold seed_main.
    destruct (seed_partners _ [] (w_db w)) as [e|[created db']] eqn:Hseed; [done|].
    simpl. by apply (seed_partners_store_ok _ _ _ _ Hok Hseed).
Qed.

Lemma two_party_db_ok : store_ok two_party_db.
Proof.
  unfold store_ok. simpl. repeat apply conj.
  - apply NoDup_singleton.
  - apply NoDup_nil_2.
  - apply NoDup_cons. split; [|apply NoDup_singleton].
    rewrite list_elem_of_singleton. discriminate.
  - intros p Hin. simpl in Hin. destruct Hin as [<-|[<-|[]]]; reflexivity.
Qed.

Lemma handlers_keep_store_ok_witness :
  store_ok (create_conversation
              {| participantId := "C"; currentUserId := "A"; initialMessage := Some "hi" |}
              100 two_party_db).2
  ∧ store_ok (seed_main 100 200 two_party_db).2.
Proof.
  destruct (handlers_keep_store_ok (fun _ => "") (fun _ => true) two_party_world
              two_party_db_ok) as (Hcreate & _ & _ & _ & _ & _ & Hseed).
  split; [apply Hcreate | apply Hseed].
Defined.

(** ** More on create_conversation *)

Lemma find_nothing {A} (f : A → bool) (l : list A) :
  (∀ x, In x l → f x = false) → List.find f l = None.
Proof.
  induction l as [|x l IH]; simpl; [done|]. intros Hnone.
  rewrite (Hnone x) by (by left). apply IH. intros y Hy. apply Hnone. by right.
Qed.

Lemma user_count_one_user (db : DB) (user : string) (conversation_id : Z) :
  (user_count db [user; user] conversation_id ≤ 1)%nat.
Proof.
  unfold user_count. set (F := nodup string_dec _).
  change 1%nat with (length [user]). apply List.NoDup_incl_length.
  - apply List.NoDup_nodup.
  - intros u Hu. apply nodup_In, filter_In in Hu as [_ Hu]. simpl in Hu.
    rewrite orb_false_r, orb_diag in Hu. apply String.eqb_eq in Hu. by left.
Qed.

Lemma existing_conv_one_user (db : DB) (user : string) : existing_conv db user user = None.
Proof.
  unfold existing_conv. apply find_nothing. intros c _. apply Nat.eqb_neq.
  pose proof (user_count_one_user db user (conv_id c)). lia.
Qed.

(** X7: a request to create a conversation of a user with themselves
    always fails with a 500 and leaves the store as it was, whatever the
    store holds and whatever the initial message: the second participant
    row breaks the unique constraint. *)
Theorem create_conversation_self_pair (user : string) (initial : option string) (now : Z)
    (db : DB) :
  create_conversation
    {| participantId := user; currentUserId := user; initialMessage := initial |} now db
  = (Raise (HTTPException 500), db).
Proof.
  unfold create_conversation, create_conversation_try. simpl.
  rewrite existing_conv_one_user.
  destruct (insert_participant (insert_conversation db _) _) as [e|db2] eqn:Hp1; [done|].
  cbn [bind]. unfold insert_participant in Hp1.
  destruct (existsb _ _) in Hp1; [discriminate|]. injection Hp1 as <-.
  unfold insert_participant at 1. cbn [participants].
  rewrite existsb_app. cbn [existsb]. unfold same_row at 2. simpl.
  by rewrite Z.eqb_refl, String.eqb_refl, orb_true_r.
Qed.

Lemma create_conversation_found_after (payload : CreateConversationIn) (now : Z)
    (db db' : DB) (conv : Conversation) :
  create_conversation payload now db = (Return conv, db') →
  existing_conv db' (currentUserId payload) (participantId payload) = Some conv.
Proof.
  intros Hfirst. unfold create_conversation in Hfirst.
  destruct (create_conversation_try payload now db) as [e|[c d]] eqn:Htry; [discriminate|].
  injection Hfirst as -> ->.
  destruct (existing_conv db (currentUserId payload) (participantId payload))
    as [c0|] eqn:Hex.
  - unfold create_conversation_try in Htry. rewrite Hex in Htry.
    by injection Htry as -> ->.
  - by eapply existing_conv_after_create.
Qed.

(** X8: whenever create_conversation returns a conversation, found or
    new, that conversation is in the table of the resulting store and
    both users of the request are participants of it. *)
Theorem create_conversation_returns_shared (payload : CreateConversationIn) (now : Z)
    (db db' : DB) (conv : Conversation) :
  create_conversation payload now db = (Return conv, db') →
  In conv (conversations db')
  ∧ is_participant db' (conv_id conv) (currentUserId payload) = true
  ∧ is_participant db' (conv_id conv) (participantId payload) = true.
Proof.
  intros Hret. apply create_conversation_found_after in Hret.
  apply existing_conv_has_both in Hret as (Hin & Ha & Hb).
  split; [done|]. by rewrite !is_participant_In.
Qed.

Lemma create_conversation_returns_shared_witness :
  let payload := {| participantId := "C"; currentUserId := "A"; initialMessage := None |} in
  let r := create_conversation payload 100 two_party_db in
  r.1 = Return {| conv_id := 2; conv_name := Some "Jorge Méndez" |}
  ∧ is_participant r.2 2 "A" = true
  ∧ is_participant r.2 2 "C" = true.
Proof.
  intros payload r.
  destruct (create_conversation_returns_shared payload 100 two_party_db r.2
              {| conv_id := 2; conv_name := Some "Jorge Méndez" |})
    as (_ & Ha & Hc); [reflexivity|].
  split; [reflexivity|]. split; [exact Ha | exact Hc].
Defined.

(** X9: find-or-create is idempotent: once a call has returned a
    conversation, any number of further calls for the same two users, in
    either order and with any initial message, return that conversation
    and leave the store as the first call left it. *)
Theorem create_conversation_repeated (payload : CreateConversationIn) (now : Z)
    (db db' : DB) (conv : Conversation) (again : list (CreateConversationIn * Z)) :
  create_conversation payload now db = (Return conv, db') →
  Forall (fun c => (currentUserId c.1 = currentUserId payload
                    ∧ participantId c.1 = participantId payload)
                   ∨ (currentUserId c.1 = participantId payload
                      ∧ participantId c.1 = currentUserId payload)) again →
  Forall (fun c => create_conversation c.1 c.2 db' = (Return conv, db')) again
  ∧ fold_left (fun d c => (create_conversation c.1 c.2 d).2) again db' = db'.
Proof.
  intros Hfirst Hsame. split.
  - eapply Forall_impl; [exact Hsame|]. intros [c t] Hpair. simpl in *.
    by apply (create_conversation_again payload c now t db db' conv).
  - induction Hsame as [|[c t] rest Hpair _ IH]; simpl; [done|].
    by rewrite (create_conversation_again payload c now t db db' conv Hpair Hfirst).
Qed.

Lemma create_conversation_repeated_witness :
  let ab := {| participantId := "B"; currentUserId := "A"; initialMessage := Some "hi" |} in
  let ba := {| participantId := "A"; currentUserId := "B"; initialMessage := Some "yo" |} in
  let first := create_conversation ab 100 empty_db in
  fold_left (fun d c => (create_conversation c.1 c.2 d).2) [(ba, 101%Z); (ab, 102%Z)] first.2
  = first.2.
Proof.
  intros ab ba first.
  destruct (create_conversation_repeated ab 100 empty_db first.2
              {| conv_id := 1; conv_name := Some "Karla Rodríguez" |}
              [(ba, 101%Z); (ab, 102%Z)]) as [_ Hfold].
  - reflexivity.
  - constructor; [right; split; reflexivity|].
    constructor; [left; split; reflexivity | constructor].
  - exact Hfold.
Defined.

Lemma fresh_conversation_no_rows (db : DB) (user : string) :
  participants_reference_conversations db →
  is_participant db (fresh_id (List.map conv_id (conversations db))) user = false.
Proof.
  intros Hfk. destruct (is_participant _ _ _) eqn:Hp; [|done]. exfalso.
  unfold is_participant in Hp. apply existsb_exists in Hp as (p & Hin & Hp).
  apply andb_prop in Hp as [Hid _]. apply Z.eqb_eq in Hid.
  specialize (Hfk p Hin). rewrite Hid in Hfk.
  apply conversation_exists_In in Hfk. by apply fresh_id_not_in in Hfk.
Qed.

Lemma name_the_new_conversation (convs : list Conversation) (name : string) :
  let id := fresh_id (List.map conv_id convs) in
  List.map (fun c => if (conv_id c =? id)%Z
                     then {| conv_id := conv_id c; conv_name := Some name |}
                     else c)
           (convs ++ [ {| conv_id := id; conv_name := None |} ])
  = convs ++ [ {| conv_id := id; conv_name := Some name |} ].
Proof.
  intros id. rewrite List.map_app. simpl. rewrite Z.eqb_refl. f_equal.
  rewrite <- (List.map_id convs) at 2. apply List.map_ext_in. intros c Hc.
  assert (Hlt : (conv_id c < id)%Z).
  { apply fresh_id_above, in_map_iff. by exists c. }
  destruct (Z.eqb_spec (conv_id c) id); [lia | done].
Qed.

Lemma chat_name_total (id : Z) : ∃ name, chat_name id = Some name.
Proof.
  destruct (assign_name_total CHAT_NAMES id) as (name & Hname & _); [discriminate|].
  rewrite <- chat_name_assign in Hname. by exists name.
Qed.

(** The create branch goes through for two distinct users, in a store
    whose participant rows all name a conversation of the table. *)
Lemma create_conversation_new (payload : CreateConversationIn) (now : Z) (db : DB)
    (name : string) :
  participants_reference_conversations db →
  existing_conv db (currentUserId payload) (participantId payload) = None →
  currentUserId payload ≠ participantId payload →
  let id := fresh_id (List.map conv_id (conversations db)) in
  chat_name id = Some name →
  create_conversation payload now db
  = (Return {| conv_id := id; conv_name := Some name |},
     {| conversations := conversations db ++ [ {| conv_id := id; conv_name := Some name |} ];
        participants :=
          participants db
          ++ [ {| cp_conversation_id := id; cp_user_id := participantId payload |};
               {| cp_conversation_id := id; cp_user_id := currentUserId payload |} ];
        messages := messages db ++ initial_messages payload id now db |}).
Proof.
  intros Hfk Hnone Hne id Hname.
  unfold create_conversation, create_conversation_try. rewrite Hnone. fold id. cbv zeta.
  unfold insert_participant at 1.
  cbn [insert_conversation participants conversations messages].
  rewrite (existsb_same_row db id (participantId payload)).
  unfold id at 1. rewrite fresh_conversation_no_rows by done. fold id.
  cbn [bind]. unfold insert_participant. cbn [participants conversations messages].
  rewrite existsb_app, (existsb_same_row db id (currentUserId payload)).
  unfold id at 1. rewrite fresh_conversation_no_rows by done. fold id.
  cbn [existsb orb]. unfold same_row. cbn [cp_conversation_id cp_user_id].
  rewrite Z.eqb_refl, orb_false_r. cbn [andb].
  apply String.eqb_neq in Hne. rewrite Hne. cbn [bind]. rewrite Hname.
  cbn [or_raise bind]. f_equal. unfold set_conversation_name, initial_messages.
  destruct (initialMessage payload) as [text|]; [destruct (String.eqb text "")|];
    cbn [conversations participants messages add_message]; unfold id;
    rewrite (name_the_new_conversation (conversations db) name);
    rewrite <- ?app_assoc, ?app_nil_r; reflexivity.
Qed.

(** The participant rows of a conversation after a writer has added a
    conversation under a fresh id with two rows. *)
Lemma participants_of_new_pair (db db' : DB) (u1 u2 : string) (conversation_id : Z) :
  participants_reference_conversations db →
  let id := fresh_id (List.map conv_id (conversations db)) in
  participants db'
  = participants db ++ [ {| cp_conversation_id := id; cp_user_id := u1 |};
                         {| cp_conversation_id := id; cp_user_id := u2 |} ] →
  participants_of db' conversation_id
  = if (conversation_id =? id)%Z then [u1; u2] else participants_of db conversation_id.
Proof.
  intros Hfk id Hparts. unfold participants_of.
  rewrite Hparts, List.filter_app, List.map_app. simpl.
  rewrite (Z.eqb_sym id conversation_id).
  destruct (Z.eqb_spec conversation_id id) as [->|Hne]; simpl; [|by rewrite app_nil_r].
  rewrite filter_nothing; [done|]. intros p Hp.
  destruct (Z.eqb_spec (cp_conversation_id p) id) as [Hid|]; [|done]. exfalso.
  specialize (Hfk p Hp). rewrite Hid in Hfk.
  apply conversation_exists_In in Hfk. by apply fresh_id_not_in in Hfk.
Qed.

(** X10: in a store whose participant rows all name a conversation of
    the table, a request for two distinct users that no conversation
    holds together always succeeds: it returns a conversation under a
    fresh id, named from the catalog; the store gains that conversation,
    exactly the two participant rows, and one message from the current
    user when the initial message is not empty, none otherwise. *)
Theorem create_conversation_creates (payload : CreateConversationIn) (now : Z) (db : DB) :
  participants_reference_conversations db →
  existing_conv db (currentUserId payload) (participantId payload) = None →
  currentUserId payload ≠ participantId payload →
  let id := fresh_id (List.map conv_id (conversations db)) in
  ∃ name,
    chat_name id = Some name
    ∧ create_conversation payload now db
      = (Return {| conv_id := id; conv_name := Some name |},
         {| conversations := conversations db ++ [ {| conv_id := id; conv_name := Some name |} ];
            participants :=
              participants db
              ++ [ {| cp_conversation_id := id; cp_user_id := participantId payload |};
                   {| cp_conversation_id := id; cp_user_id := currentUserId payload |} ];
            messages := messages db ++ initial_messages payload id now db |})
    ∧ participants_of (create_conversation payload now db).2 id
      = [participantId payload; currentUserId payload].
Proof.
  intros Hfk Hnone Hne id.
  destruct (chat_name_total id) as [name Hname]. exists name. split; [exact Hname|].
  pose proof (create_conversation_new payload now db name Hfk Hnone Hne Hname) as Hcreate.
  fold id in Hcreate. split; [exact Hcreate|].
  rewrite (participants_of_new_pair db _ (participantId payload) (currentUserId payload)
             id Hfk) by (by rewrite Hcreate).
  fold id. by rewrite Z.eqb_refl.
Qed.

Lemma create_conversation_creates_witness :
  let payload := {| participantId := "C"; currentUserId := "A";
                    initialMessage := Some "hi" |} in
  let r := create_conversation payload 100 two_party_db in
  r.1 = Return {| conv_id := 2; conv_name := Some "Jorge Méndez" |}
  ∧ participants_of r.2 2 = ["C"; "A"]
  ∧ List.map msg_content (messages r.2) = ["hi"].
Proof.
  intros payload r.
  destruct (create_conversation_creates payload 100 two_party_db)
    as (name & Hname & Hcreate & Hparts).
  - intros p Hin. simpl in Hin. destruct Hin as [<-|[<-|[]]]; reflexivity.
  - reflexivity.
  - discriminate.
  - split; [reflexivity|]. split; [exact Hparts | reflexivity].
Defined.

(** ** More on send_message *)

Lemma elem_of_broadcast_delivered (send_ok : WebSocket → bool) (room_id : Z)
    (message : Payload) (m : ConnectionManager) (d : WebSocket * Payload) :
  d ∈ (broadcast send_ok room_id message m).2
  ↔ d.2 = message ∧ d.1 ∈ sessions m room_id ∧ send_ok d.1 = true.
Proof.
  unfold broadcast. rewrite broadcast_loop_delivered. simpl.
  rewrite list_elem_of_In, in_map_iff. split.
  - intros (ws & <- & Hws). apply filter_In in Hws as [Hws Hok]. simpl.
    split; [done|]. split; [|done]. by apply list_elem_of_In, elem_of_elements in Hws.
  - destruct d as [ws msg]. simpl. intros (-> & Hin & Hok). exists ws. split; [done|].
    apply filter_In. split; [|done]. by apply list_elem_of_In, elem_of_elements.
Qed.

(** X11: for a conversation id that is a signed 64-bit integer,
    send_message has one error, 403, raised exactly when the sender has
    no participant row in the conversation, and then nothing is stored,
    nobody is evicted and no session receives anything. Otherwise it
    stores one message under an id no other message has, and the
    sessions that receive an event for it are exactly the sessions of
    the conversation's room whose send succeeds; the event carries the
    id, the sender and the content of the stored message. *)
Theorem send_message_outcome (send_ok : WebSocket → bool) (conversation_id : Z)
    (body : MessageCreate) (now : Z) (w : World) :
  int64 conversation_id = true →
  let r := send_message send_ok conversation_id body now w in
  let msg := new_message (w_db w) conversation_id (body_sender_id body)
                         (body_content body) now in
  let event := MessagePayload (msg_id msg) None (body_sender_id body) (body_content body)
                              now "sent" in
  (∀ e, r.1 = Raise e → e = HTTPException 403)
  ∧ (r.1 = Raise (HTTPException 403)
     ↔ is_participant (w_db w) conversation_id (body_sender_id body) = false)
  ∧ (is_participant (w_db w) conversation_id (body_sender_id body) = false → r.2 = w)
  ∧ (is_participant (w_db w) conversation_id (body_sender_id body) = true →
     r.1 = Return msg
     ∧ (msg_id msg ∉ List.map msg_id (messages (w_db w)))
     ∧ messages (w_db r.2) = messages (w_db w) ++ [msg]
     ∧ ∃ sent, w_delivered r.2 = w_delivered w ++ sent
               ∧ ∀ d, d ∈ sent ↔ d.2 = event
                                  ∧ d.1 ∈ sessions (w_manager w) conversation_id
                                  ∧ send_ok d.1 = true).
Proof.
  intros Hrange r msg event. unfold r, send_message. rewrite Hrange.
  destruct (is_participant (w_db w) conversation_id (body_sender_id body)) eqn:Hp; simpl.
  - split; [intros e [=]|]. split; [split; intros [=]|]. split; [intros [=]|].
    intros _. split; [done|]. split; [apply fresh_id_not_in|]. split; [done|].
    eexists. split; [reflexivity|]. intros d. apply elem_of_broadcast_delivered.
  - split; [by intros e [= <-]|]. split; [done|]. split; [done|]. intros [=].
Qed.

Lemma send_message_outcome_witness :
  let r := send_message (fun ws => Nat.eqb ws 5) 1
             {| body_content := "hello"; body_sender_id := "A" |} 100 live_world in
  List.map msg_content (messages (w_db r.2)) = ["hello"]
  ∧ w_delivered r.2 = [(5%nat, MessagePayload 1 None "A" "hello" 100 "sent")]
  ∧ (send_message (fun _ => true) 1 {| body_content := "hello"; body_sender_id := "Z" |}
                  100 live_world).2 = live_world.
Proof.
  intros r.
  destruct (send_message_outcome (fun ws => Nat.eqb ws 5) 1
              {| body_content := "hello"; body_sender_id := "A" |} 100 live_world)
    as (_ & _ & _ & Hyes); [reflexivity|].
  destruct (send_message_outcome (fun _ => true) 1
              {| body_content := "hello"; body_sender_id := "Z" |} 100 live_world)
    as (_ & _ & Hno & _); [reflexivity|].
  destruct Hyes as (_ & _ & Hstored & _); [reflexivity|].
  split; [unfold r; by rewrite Hstored|]. split; [vm_compute; reflexivity|].
  apply Hno. reflexivity.
Defined.

(** ** More on mark_conversation_read *)

(** X12: the errors of mark_conversation_read are 400 and 500 only,
    never 404 or 403: it raises 400 exactly when the user id is missing
    or empty, and otherwise 500 exactly when the conversation is not in
    the table, the user has no participant row in it, or messages were
    marked and the read-receipt notification raised. *)
Theorem mark_conversation_read_errors (send_ok : WebSocket → bool) (from_thread_ok : bool)
    (conversation_id : Z) (user_id : option string) (w : World) :
  let r := mark_conversation_read send_ok from_thread_ok conversation_id user_id w in
  (∀ e, r.1 = Raise e →
        (e = HTTPException 400 ∨ e = HTTPException 500)
        ∧ error_kind e ≠ NotFound ∧ error_kind e ≠ Forbidden)
  ∧ (r.1 = Raise (HTTPException 400) ↔ falsy user_id = true)
  ∧ (∀ user, user_id = Some user → user ≠ "" →
       (r.1 = Raise (HTTPException 500)
        ↔ conversation_exists (w_db w) conversation_id = false
          ∨ is_participant (w_db w) conversation_id user = false
          ∨ (from_thread_ok = false
             ∧ (update_read conversation_id user (w_db w)).1 ≠ 0%nat))).
Proof.
  intros r. destruct user_id as [user|].
  2:{ unfold r. simpl. split; [intros e [= <-]; split; [by left | done]|].
      split; [done|]. intros u [=]. }
  destruct (String.eqb_spec user "") as [->|Hne].
  { unfold r. simpl. split; [intros e [= <-]; split; [by left | done]|].
    split; [done|]. intros u [= <-] Hu. done. }
  assert (Hfalsy : falsy (Some user) = false) by (simpl; by apply String.eqb_neq).
  rewrite Hfalsy.
  assert (Hcases :
    (r.1 = Raise (HTTPException 500)
     ∧ (conversation_exists (w_db w) conversation_id = false
        ∨ is_participant (w_db w) conversation_id user = false
        ∨ (from_thread_ok = false
           ∧ (update_read conversation_id user (w_db w)).1 ≠ 0%nat)))
    ∨ ((∃ out, r.1 = Return out)
       ∧ conversation_exists (w_db w) conversation_id = true
       ∧ is_participant (w_db w) conversation_id user = true
       ∧ (from_thread_ok = true ∨ (update_read conversation_id user (w_db w)).1 = 0%nat))).
  { destruct (conversation_exists (w_db w) conversation_id) eqn:Hc.
    2:{ left. unfold r. rewrite mark_conversation_read_check_fails by auto. auto. }
    destruct (is_participant (w_db w) conversation_id user) eqn:Hp.
    2:{ left. unfold r. rewrite mark_conversation_read_check_fails by auto. auto. }
    destruct (mark_conversation_read_passes send_ok from_thread_ok conversation_id user w
                Hne Hc Hp) as (_ & Hret & Hfail). fold r in Hret, Hfail.
    destruct from_thread_ok.
    - right. split; [eexists; apply Hret; by left | auto].
    - destruct (decide ((update_read conversation_id user (w_db w)).1 = 0%nat)) as [Hz|Hnz].
      + right. split; [eexists; apply Hret; by right | auto].
      + left. split; [by apply Hfail | auto]. }
  destruct Hcases as [[Hr Hwhy]|((out & Hr) & Hc & Hp & Hok)]; rewrite Hr.
  - split; [intros e [= <-]; split; [by right | done]|]. split; [done|].
    intros u [= <-] _. done.
  - split; [intros e [=]|]. split; [done|]. intros u [= <-] _. split; [done|].
    intros [?|[?|[? ?]]]; [congruence | congruence |].
    destruct Hok; congruence.
Qed.

Lemma mark_conversation_read_errors_witness :
  (mark_conversation_read (fun _ => true) true 99 (Some "A") two_party_world).1
  = Raise (HTTPException 500)
  ∧ (mark_conversation_read (fun _ => true) true 1 (Some "") two_party_world).1
    = Raise (HTTPException 400).
Proof.
  destruct (mark_conversation_read_errors (fun _ => true) true 99 (Some "A") two_party_world)
    as (_ & _ & H500).
  destruct (mark_conversation_read_errors (fun _ => true) true 1 (Some "") two_party_world)
    as (_ & H400 & _).
  split.
  - apply (H500 "A"); [reflexivity | discriminate | by left].
  - apply H400. reflexivity.
Defined.

Lemma read_by_conversation (conversation_id : Z) (user_id : string) (m : Message) :
  msg_conversation_id (read_by conversation_id user_id m) = msg_conversation_id m.
Proof. unfold read_by. by destruct (unread_from_others _ _ _). Qed.

Lemma read_by_other_conversation (conversation_id : Z) (user_id : string) (m : Message) :
  (msg_conversation_id m =? conversation_id)%Z = false →
  read_by conversation_id user_id m = m.
Proof. intros Hc. unfold read_by, unread_from_others. by rewrite Hc. Qed.

(** X13: whatever it returns, mark_conversation_read changes nothing
    but the status and the read flag of messages of the conversation it
    is called for: the conversations and the participants are as before,
    the messages of every other conversation are as before, and every
    message keeps its id, conversation, sender, content and timestamp. *)
Theorem mark_conversation_read_scope (send_ok : WebSocket → bool) (from_thread_ok : bool)
    (conversation_id : Z) (user_id : option string) (w : World) :
  let db' := w_db (mark_conversation_read send_ok from_thread_ok conversation_id
                                          user_id w).2 in
  conversations db' = conversations (w_db w)
  ∧ participants db' = participants (w_db w)
  ∧ List.filter (fun m => negb (msg_conversation_id m =? conversation_id)%Z) (messages db')
    = List.filter (fun m => negb (msg_conversation_id m =? conversation_id)%Z)
                  (messages (w_db w))
  ∧ List.map (fun m => (msg_id m, msg_conversation_id m, msg_sender_id m, msg_content m,
                        msg_timestamp m)) (messages db')
    = List.map (fun m => (msg_id m, msg_conversation_id m, msg_sender_id m, msg_content m,
                          msg_timestamp m)) (messages (w_db w)).
Proof.
  intros db'. unfold db'.
  destruct (mark_conversation_read_db send_ok from_thread_ok conversation_id user_id w)
    as [->|[user ->]]; [done|].
  split; [done|]. split; [done|]. rewrite update_read_messages. split.
  - induction (messages (w_db w)) as [|m l IH]; simpl; [done|].
    rewrite read_by_conversation.
    destruct (msg_conversation_id m =? conversation_id)%Z eqn:Hc; simpl; [done|].
    by rewrite read_by_other_conversation, IH.
  - rewrite List.map_map. apply List.map_ext. intros m. unfold read_by.
    by destruct (unread_from_others _ _ m).
Qed.

Lemma update_read_nothing (conversation_id : Z) (user_id : string) (db : DB) :
  (update_read conversation_id user_id db).1 = 0%nat →
  (update_read conversation_id user_id db).2 = db.
Proof.
  intros Hnone. apply DB_ext; try reflexivity. simpl in *.
  induction (messages db) as [|m l IH]; simpl in *; [done|].
  destruct (unread_from_others conversation_id user_id m); [done|].
  by rewrite IH.
Qed.

Lemma commit_same (w : World) : commit w (w_db w) = w.
Proof. by destruct w. Qed.

(** X14: in the service, where the read-receipt statement of
    mark_conversation_read raises, no read receipt is ever delivered
    and a response other than an error means that nothing was marked:
    whatever the request, the registry and what the sessions received
    are as before; a response that is not an error carries the count 0
    and leaves the store as it was; and a call that changed the store
    answers with a 500. *)
Theorem mark_conversation_read_no_receipt (send_ok : WebSocket → bool)
    (conversation_id : Z) (user_id : option string) (w : World) :
  let r := mark_conversation_read send_ok false conversation_id user_id w in
  w_manager r.2 = w_manager w
  ∧ w_delivered r.2 = w_delivered w
  ∧ (∀ out, r.1 = Return out →
       out = {| ok := true; updated_count := 0; out_conversation_id := conversation_id |}
       ∧ r.2 = w)
  ∧ (w_db r.2 ≠ w_db w → r.1 = Raise (HTTPException 500)).
Proof.
  intros r. unfold r, mark_conversation_read.
  destruct user_id as [user|]; [|by repeat split].
  destruct (String.eqb user ""); [by repeat split|].
  unfold mark_conversation_read_try.
  destruct (conversation_exists _ _); cbn [negb]; [|by repeat split].
  destruct (is_participant _ _ _); cbn [negb]; [|by repeat split].
  destruct (update_read conversation_id user (w_db w)).1 as [|k] eqn:Hn.
  - cbn [Nat.ltb Nat.leb fst snd]. rewrite update_read_nothing by exact Hn.
    rewrite commit_same. split; [done|]. split; [done|]. split; [|done].
    by intros out [= <-].
  - cbn [Nat.ltb Nat.leb fst snd]. split; [done|]. split; [done|]. split; [|done].
    intros out [=].
Qed.

Example mark_conversation_read_no_receipt_live :
  let w := {| w_db := unread_db; w_manager := w_manager live_world; w_delivered := [] |} in
  let r := mark_conversation_read (fun _ => true) false 1 (Some "B") w in
  sessions (w_manager w) 1 = {[ 5%nat; 6%nat ]}
  ∧ r.1 = Raise (HTTPException 500)
  ∧ w_delivered r.2 = []
  ∧ List.map msg_is_read (messages (w_db r.2)) = [true; false; true; true].
Proof. vm_compute. done. Qed.

(** ** More on update_message_status *)

(** X15: for a message id that is a signed 64-bit integer,
    update_message_status has one error, 404, raised exactly when no
    message has the id, and then the store is as it was. Otherwise the
    message with that id has the new status, every other row is as it
    was, the conversations and the participants are as they were; and
    of two updates of the same message the last one wins. *)
Theorem update_message_status_outcome (message_id : Z) (status status' : string) (db : DB) :
  int64 message_id = true →
  let r := update_message_status message_id status db in
  (r.1 = Raise (HTTPException 404) ↔ message_id ∉ List.map msg_id (messages db))
  ∧ (∀ e, r.1 = Raise e → e = HTTPException 404 ∧ r.2 = db)
  ∧ (∀ m, m ∈ messages r.2 → msg_id m = message_id → msg_status m = status)
  ∧ List.filter (fun m => negb (msg_id m =? message_id)%Z) (messages r.2)
    = List.filter (fun m => negb (msg_id m =? message_id)%Z) (messages db)
  ∧ conversations r.2 = conversations db
  ∧ participants r.2 = participants db
  ∧ (update_message_status message_id status' r.2).2
    = (update_message_status message_id status' db).2.
Proof.
  intros Hrange r.
  assert (Hfound : existsb (fun m => (msg_id m =? message_id)%Z) (messages db) = true
                   ↔ message_id ∈ List.map msg_id (messages db)).
  { rewrite existsb_exists, list_elem_of_In, in_map_iff.
    split; intros (m & H1 & H2); exists m.
    - apply Z.eqb_eq in H2. done.
    - split; [done|]. by apply Z.eqb_eq. }
  assert (Hmsgs := update_message_status_messages message_id status db). fold r in Hmsgs.
  destruct (update_message_status_tables message_id status db) as [Hconvs Hparts].
  fold r in Hconvs, Hparts.
  split; [|split; [|split; [|split; [|split; [|split]]]]].
  - unfold r, update_message_status. rewrite Hrange.
    destruct (existsb _ (messages db)) eqn:Hex; simpl.
    + split; [done|]. intros Hno. exfalso. by apply Hno, Hfound.
    + split; [|done]. intros _ Hin. apply Hfound in Hin. congruence.
  - unfold r, update_message_status. rewrite Hrange.
    destruct (existsb _ (messages db)); simpl.
    + intros e [=].
    + by intros e [= <-].
  - intros m Hm Hid. rewrite Hmsgs in Hm.
    apply list_elem_of_In, in_map_iff in Hm as (m0 & <- & _).
    destruct (msg_id m0 =? message_id)%Z eqn:H0; [done|].
    simpl in Hid. apply Z.eqb_neq in H0. done.
  - rewrite Hmsgs. generalize (messages db). clear. intros l.
    induction l as [|m l IH]; simpl; [done|].
    destruct (msg_id m =? message_id)%Z eqn:Hm; simpl; rewrite ?Hm; simpl; [done|].
    by rewrite IH.
  - exact Hconvs.
  - exact Hparts.
  - apply DB_ext.
    + destruct (update_message_status_tables message_id status' r.2) as [-> _].
      destruct (update_message_status_tables message_id status' db) as [-> _].
      exact Hconvs.
    + destruct (update_message_status_tables message_id status' r.2) as [_ ->].
      destruct (update_message_status_tables message_id status' db) as [_ ->].
      exact Hparts.
    + rewrite !update_message_status_messages, Hmsgs, List.map_map.
      apply List.map_ext. intros m.
      destruct (msg_id m =? message_id)%Z eqn:Hm; simpl; by rewrite Hm.
Qed.

Lemma update_message_status_outcome_witness :
  (update_message_status 9 "read" unread_db).1 = Raise (HTTPException 404)
  ∧ List.map msg_status (messages (update_message_status 2 "read" unread_db).2)
    = ["sent"; "read"; "delivered"; "sent"]
  ∧ (update_message_status 2 "seen"
       (update_message_status 2 "read" unread_db).2).2
    = (update_message_status 2 "seen" unread_db).2.
Proof.
  destruct (update_message_status_outcome 9 "read" "seen" unread_db)
    as (Hmissing & _); [reflexivity|].
  destruct (update_message_status_outcome 2 "read" "seen" unread_db)
    as (_ & _ & _ & _ & _ & _ & Hlast); [reflexivity|].
  split; [apply Hmissing; vm_compute; set_solver|].
  split; [vm_compute; reflexivity | exact Hlast].
Defined.

(** ** The read endpoints *)

#[global] Instance earlier_total : Total earlier.
Proof. intros m m'. unfold earlier. lia. Qed.

#[global] Instance earlier_transitive : Transitive earlier.
Proof. intros m1 m2 m3. unfold earlier. lia. Qed.

#[global] Instance later_total : Total later.
Proof. intros m m'. unfold later. lia. Qed.

#[global] Instance later_transitive : Transitive later.
Proof. intros m1 m2 m3. unfold later. lia. Qed.

Lemma elem_of_messages_of (db : DB) (conversation_id : Z) (m : Message) :
  m ∈ messages_of db conversation_id
  ↔ m ∈ messages db ∧ msg_conversation_id m = conversation_id.
Proof.
  unfold messages_of. rewrite !list_elem_of_In, filter_In, Z.eqb_eq. done.
Qed.

(** X16: for a conversation id that is a signed 64-bit integer,
    get_messages answers with the messages filed under the conversation
    id, all of them and only them, each as often as the table holds it,
    ordered by timestamp: no message of the list is later than one that
    follows it. get_conversation returns the same list when the
    conversation is in the table, and its only error is 404, raised
    exactly when it is not. *)
Theorem get_messages_sorted (conversation_id : Z) (db : DB) :
  int64 conversation_id = true →
  get_messages_response conversation_id db = Return (get_messages conversation_id db)
  ∧ StronglySorted earlier (get_messages conversation_id db)
  ∧ get_messages conversation_id db ≡ₚ messages_of db conversation_id
  ∧ (∀ m, m ∈ get_messages conversation_id db
          ↔ m ∈ messages db ∧ msg_conversation_id m = conversation_id)
  ∧ (conversation_exists db conversation_id = true →
     get_conversation conversation_id db
     = Return {| detail_id := conversation_id;
                 detail_messages := get_messages conversation_id db |})
  ∧ (∀ e, get_conversation conversation_id db = Raise e
          ↔ e = HTTPException 404 ∧ conversation_exists db conversation_id = false).
Proof.
  intros Hrange. unfold get_messages_response, get_messages, get_conversation.
  rewrite Hrange. split; [done|]. split; [|split; [|split; [|split]]].
  - apply StronglySorted_merge_sort; apply _.
  - apply merge_sort_Permutation.
  - intros m. rewrite merge_sort_Permutation. apply elem_of_messages_of.
  - by intros ->.
  - intros e. destruct (conversation_exists db conversation_id).
    + split; [intros [=] | intros [_ [=]]].
    + split; [by intros [= <-] | by intros [-> _]].
Qed.

Lemma get_messages_sorted_witness :
  get_conversation 1 unread_db
  = Return {| detail_id := 1; detail_messages := get_messages 1 unread_db |}
  ∧ List.map msg_id (get_messages 1 unread_db) = [1; 2; 3; 4]%Z
  ∧ get_conversation 9 unread_db = Raise (HTTPException 404).
Proof.
  destruct (get_messages_sorted 1 unread_db) as (_ & _ & _ & _ & Hfound & _);
    [reflexivity|].
  destruct (get_messages_sorted 9 unread_db) as (_ & _ & _ & _ & _ & Hmissing);
    [reflexivity|].
  split; [apply Hfound; reflexivity|]. split; [vm_compute; reflexivity|].
  apply Hmissing. split; reflexivity.
Defined.

(** Outside the 64 bits the three lookups by id raise, and the caller
    sees Internal. *)
Example lookups_out_of_range :
  get_conversation (2 ^ 63) unread_db = Raise OverflowError
  ∧ get_messages_response (2 ^ 63) unread_db = Raise OverflowError
  ∧ update_message_status (2 ^ 63) "read" unread_db = (Raise OverflowError, unread_db)
  ∧ get_conversation (- 2 ^ 63) unread_db = Raise (HTTPException 404)
  ∧ error_kind OverflowError = Internal.
Proof. vm_compute. done. Qed.

(** X17: a message that send_message has stored is listed by
    get_messages for its conversation, which lists nothing else new;
    the lists of the other conversations are as they were; and
    get_conversation lists it too when the conversation is in the
    table. *)
Theorem send_then_get_messages (send_ok : WebSocket → bool) (conversation_id other : Z)
    (body : MessageCreate) (now : Z) (w : World) :
  is_participant (w_db w) conversation_id (body_sender_id body) = true →
  let r := send_message send_ok conversation_id body now w in
  let msg := new_message (w_db w) conversation_id (body_sender_id body)
                         (body_content body) now in
  r.1 = Return msg
  ∧ get_messages conversation_id (w_db r.2) ≡ₚ msg :: get_messages conversation_id (w_db w)
  ∧ (other ≠ conversation_id →
     get_messages other (w_db r.2) = get_messages other (w_db w))
  ∧ (conversation_exists (w_db w) conversation_id = true →
     ∃ detail, get_conversation conversation_id (w_db r.2) = Return detail
               ∧ msg ∈ detail_messages detail).
Proof.
  intros Hp r msg. unfold r, send_message. rewrite Hp. cbn [negb fst snd].
  rewrite w_db_run_broadcast. cbn [commit w_db]. fold msg.
  assert (Hof : ∀ c, messages_of (add_message (w_db w) msg) c
                     = messages_of (w_db w) c
                       ++ (if (conversation_id =? c)%Z then [msg] else [])).
  { intros c. unfold messages_of, add_message. cbn [messages].
    rewrite List.filter_app. f_equal. }
  assert (Hperm : get_messages conversation_id (add_message (w_db w) msg)
                  ≡ₚ msg :: get_messages conversation_id (w_db w)).
  { unfold get_messages. rewrite !merge_sort_Permutation, Hof, Z.eqb_refl.
    by rewrite Permutation_app_comm. }
  split; [done|]. split; [exact Hperm|]. split.
  - intros Hne. unfold get_messages. rewrite Hof.
    destruct (Z.eqb_spec conversation_id other); [congruence|]. by rewrite app_nil_r.
  - intros Hconv. unfold get_conversation.
    assert (Hconv' : conversation_exists (add_message (w_db w) msg) conversation_id = true)
      by exact Hconv.
    rewrite Hconv'. eexists. split; [reflexivity|]. cbn [detail_messages].
    change (merge_sort earlier (messages_of (add_message (w_db w) msg) conversation_id))
      with (get_messages conversation_id (add_message (w_db w) msg)).
    rewrite Hperm. by left.
Qed.

Lemma send_then_get_messages_witness :
  let r := send_message (fun _ => true) 1 {| body_content := "late"; body_sender_id := "A" |}
                        5 unread_world in
  List.map msg_content (get_messages 1 (w_db r.2)) = ["late"; "one"; "two"; "three"; "four"]
  ∧ get_messages 2 (w_db r.2) = get_messages 2 unread_db.
Proof.
  intros r.
  destruct (send_then_get_messages (fun _ => true) 1 2
              {| body_content := "late"; body_sender_id := "A" |} 5 unread_world)
    as (_ & _ & Hother & _); [reflexivity|].
  split; [vm_compute; reflexivity|]. apply Hother. lia.
Defined.

(** ** Conversation summaries *)

Lemma chat_names_not_empty : Forall (fun name => name ≠ "") CHAT_NAMES.
Proof. unfold CHAT_NAMES. repeat (constructor; [discriminate|]). constructor. Qed.

Lemma chat_name_not_empty (id : Z) :
  ∃ name, chat_name id = Some name ∧ name ≠ "".
Proof.
  destruct (assign_name_total CHAT_NAMES id) as (name & Hname & Hnth); [discriminate|].
  exists name. split; [by rewrite chat_name_assign|].
  apply nth_error_In, list_elem_of_In in Hnth.
  pose proof chat_names_not_empty as Hall. rewrite Forall_forall in Hall. by apply Hall.
Qed.

Lemma last_msg_none (db : DB) (conversation_id : Z) :
  last_msg db conversation_id = None ↔ messages_of db conversation_id = [].
Proof.
  unfold last_msg. pose proof (merge_sort_Permutation later (messages_of db conversation_id))
    as Hperm.
  destruct (merge_sort later (messages_of db conversation_id)) as [|m s] eqn:Hs; simpl.
  - split; [|done]. intros _. by apply Permutation_nil_l in Hperm.
  - split; [done|]. intros Hnil. rewrite Hnil in Hperm.
    by apply Permutation_nil_r in Hperm.
Qed.

Lemma last_msg_latest (db : DB) (conversation_id : Z) (m : Message) :
  last_msg db conversation_id = Some m →
  m ∈ messages_of db conversation_id
  ∧ ∀ m', m' ∈ messages_of db conversation_id → (msg_timestamp m' ≤ msg_timestamp m)%Z.
Proof.
  unfold last_msg.
  pose proof (merge_sort_Permutation later (messages_of db conversation_id)) as Hperm.
  pose proof (StronglySorted_merge_sort later (messages_of db conversation_id)) as Hsorted.
  destruct (merge_sort later (messages_of db conversation_id)) as [|m0 s]; simpl; [done|].
  intros [= ->]. split.
  - rewrite <- Hperm. by left.
  - intros m' Hm'. rewrite <- Hperm in Hm'.
    apply StronglySorted_inv in Hsorted as [_ Hall].
    apply elem_of_cons in Hm' as [->|Hin]; [lia|].
    rewrite Forall_forall in Hall. by apply Hall.
Qed.

(** X18: serialize_conversation_summary never fails. The summary has
    the id of the conversation, no avatar and a name that is not empty:
    the conversation's own when it has one, the catalog's otherwise. It
    has a last message exactly when the conversation has messages, and
    then it shows the content and the time of a message of the
    conversation that no other is later than. *)
Theorem serialize_conversation_summary_total (strftime_HM : Z → string) (db : DB)
    (conv : Conversation) :
  ∃ out name,
    serialize_conversation_summary strftime_HM db conv = Return out
    ∧ summary_id out = conv_id conv
    ∧ summary_avatar out = None
    ∧ summary_name out = Some name ∧ name ≠ ""
    ∧ (falsy (conv_name conv) = false → conv_name conv = Some name)
    ∧ (falsy (conv_name conv) = true → chat_name (conv_id conv) = Some name)
    ∧ (summary_lastMessage out = None ↔ messages_of db (conv_id conv) = [])
    ∧ (summary_lastMessageTime out = None ↔ messages_of db (conv_id conv) = [])
    ∧ (∀ text, summary_lastMessage out = Some text →
         ∃ m, m ∈ messages_of db (conv_id conv)
              ∧ msg_content m = text
              ∧ summary_lastMessageTime out = Some (strftime_HM (msg_timestamp m))
              ∧ ∀ m', m' ∈ messages_of db (conv_id conv) →
                      (msg_timestamp m' ≤ msg_timestamp m)%Z).
Proof.
  destruct (chat_name_not_empty (conv_id conv)) as (cname & Hcname & Hcne).
  assert (Hname : ∃ name,
    match conv_name conv with
    | Some n => if String.eqb n "" then or_raise IndexError (chat_name (conv_id conv))
                else Return n
    | None => or_raise IndexError (chat_name (conv_id conv))
    end = Return name
    ∧ name ≠ ""
    ∧ (falsy (conv_name conv) = false → conv_name conv = Some name)
    ∧ (falsy (conv_name conv) = true → chat_name (conv_id conv) = Some name)).
  { destruct (conv_name conv) as [n|]; simpl.
    - destruct (String.eqb_spec n "") as [->|Hn].
      + exists cname. rewrite Hcname. by repeat split.
      + exists n. by repeat split.
    - exists cname. rewrite Hcname. by repeat split. }
  destruct Hname as (name & Hret & Hne & Hown & Hcat).
  unfold serialize_conversation_summary. rewrite Hret. cbn [bind].
  eexists. exists name. split; [reflexivity|]. cbn.
  split; [done|]. split; [done|]. split; [done|]. split; [done|].
  split; [done|]. split; [done|].
  pose proof (last_msg_none db (conv_id conv)) as Hnone.
  pose proof (last_msg_latest db (conv_id conv)) as Hlast.
  destruct (last_msg db (conv_id conv)) as [m|]; simpl.
  - split; [split; [done|]; intros Hnil; by apply Hnone in Hnil|].
    split; [split; [done|]; intros Hnil; by apply Hnone in Hnil|].
    intros text [= <-]. exists m. destruct (Hlast m eq_refl) as [Hin Hmax]. done.
  - split; [split; [intros _; by apply Hnone | done]|].
    split; [split; [intros _; by apply Hnone | done]|]. intros text [=].
Qed.

Lemma serialize_conversation_summary_named (strftime_HM : Z → string) (db : DB)
    (conv : Conversation) :
  ∃ out name,
    serialize_conversation_summary strftime_HM db conv = Return out
    ∧ summary_id out = conv_id conv
    ∧ summary_name out = Some name ∧ name ≠ "".
Proof.
  destruct (chat_name_not_empty (conv_id conv)) as (cname & Hcname & Hcne).
  unfold serialize_conversation_summary. rewrite Hcname.
  destruct (conv_name conv) as [n|]; [destruct (String.eqb_spec n "") as [->|Hn]|];
    cbn [or_raise bind]; eexists; eexists; (split; [reflexivity|]); cbn; done.
Qed.

Lemma serialize_all_total (strftime_HM : Z → string) (db : DB) (convs : list Conversation) :
  ∃ outs, serialize_all strftime_HM db convs = Return outs
          ∧ List.map summary_id outs = List.map conv_id convs
          ∧ Forall (fun out => ∃ name, summary_name out = Some name ∧ name ≠ "") outs.
Proof.
  induction convs as [|c rest (outs & Houts & Hids & Hnames)]; simpl.
  - exists []. by repeat split.
  - destruct (serialize_conversation_summary_named strftime_HM db c)
      as (out & name & Hout & Hid & Hname & Hne).
    rewrite Hout. cbn [bind]. rewrite Houts. cbn [bind]. exists (out :: outs).
    split; [done|]. simpl. rewrite Hid, Hids. split; [done|].
    constructor; [by exists name | done].
Qed.

(** ** Listing conversations and seeding *)

Lemma insert_participant_Return (db db' : DB) (p : ConversationParticipant) :
  insert_participant db p = Return db' →
  db' = {| conversations := conversations db;
           participants := participants db ++ [p];
           messages := messages db |}.
Proof.
  unfold insert_participant. destruct (existsb _ _); [discriminate|]. by intros [= <-].
Qed.

Lemma fold_max_nonneg (ids : list Z) : (0 ≤ fold_right Z.max 0%Z ids)%Z.
Proof. induction ids as [|x ids IH]; simpl; lia. Qed.

Lemma fresh_id_snoc (ids : list Z) :
  fresh_id (ids ++ [fresh_id ids]) = (fresh_id ids + 1)%Z.
Proof.
  unfold fresh_id. pose proof (fold_max_nonneg ids) as Hpos.
  assert (Hfold : ∀ x : Z, fold_right Z.max 0%Z (ids ++ [x])
                           = Z.max (fold_right Z.max 0%Z ids) (Z.max x 0)).
  { intros x. clear Hpos. induction ids as [|y l IH]; simpl; [lia|].
    rewrite IH. lia. }
  rewrite Hfold. lia.
Qed.

(** What one turn of the seeding loop leaves when it goes through. *)
Lemma demo_conversation_shape (user_id partner : string) (now : Z) (db db' : DB) :
  demo_conversation user_id partner now db = Return db' →
  let id := fresh_id (List.map conv_id (conversations db)) in
  conversations db' = conversations db ++ [ {| conv_id := id; conv_name := None |} ]
  ∧ participants db'
    = participants db ++ [ {| cp_conversation_id := id; cp_user_id := user_id |};
                           {| cp_conversation_id := id; cp_user_id := partner |} ]
  ∧ ∃ new, messages db' = messages db ++ new
           ∧ List.map message_fields new
             = [ (id, partner, "¡Hola! Vi tu perfil y me interesa conversar.", now,
                  "sent", false);
                 (id, user_id, "¡Hola! Claro, me gusta tu perfil también.", now,
                  "sent", false);
                 (id, partner, "¿Qué zona te gustaría y cuál es tu presupuesto?", now,
                  "sent", false) ].
Proof.
  unfold demo_conversation. cbv zeta.
  destruct (insert_participant (insert_conversation db _) _) as [e|db2] eqn:Hp1;
    [discriminate|]. cbn [bind].
  destruct (insert_participant db2 _) as [e|db3] eqn:Hp2; [discriminate|]. cbn [bind].
  apply insert_participant_Return in Hp1, Hp2. subst db2. subst db3.
  intros Heq. injection Heq as <-.
  cbn [conversations participants messages add_message insert_conversation].
  split; [done|]. split; [by rewrite <- app_assoc|].
  eexists. split; [rewrite <- !app_assoc; reflexivity|]. reflexivity.
Qed.

(** A turn of the seeding loop goes through when the user is not the
    partner, in a store whose participant rows name conversations of the
    table. *)
Lemma demo_conversation_succeeds (user_id partner : string) (now : Z) (db : DB) :
  participants_reference_conversations db → user_id ≠ partner →
  ∃ db', demo_conversation user_id partner now db = Return db'.
Proof.
  intros Hfk Hne. unfold demo_conversation. cbv zeta.
  unfold insert_participant at 1.
  cbn [insert_conversation participants conversations messages].
  rewrite existsb_same_row, fresh_conversation_no_rows by done.
  cbn [bind]. unfold insert_participant at 1. cbn [participants conversations messages].
  rewrite existsb_app, existsb_same_row, fresh_conversation_no_rows by done.
  cbn [existsb orb]. unfold same_row. cbn [cp_conversation_id cp_user_id].
  rewrite Z.eqb_refl, orb_false_r. cbn [andb].
  assert (Hneq : String.eqb partner user_id = false)
    by (apply String.eqb_neq; congruence).
  rewrite Hneq. cbn [bind]. eexists. reflexivity.
Qed.

(** A turn of the seeding loop for a user who is the partner never goes
    through. *)
Lemma demo_conversation_self (user_id : string) (now : Z) (db : DB) :
  demo_conversation user_id user_id now db = Raise IntegrityError.
Proof.
  unfold demo_conversation. cbv zeta.
  destruct (insert_participant (insert_conversation db _) _) as [e|db2] eqn:Hp1.
  - unfold insert_participant in Hp1. destruct (existsb _ _) in Hp1; [|discriminate].
    by injection Hp1 as <-.
  - cbn [bind]. apply insert_participant_Return in Hp1. subst db2.
    unfold insert_participant at 1. cbn [participants].
    rewrite existsb_app. cbn [existsb]. unfold same_row at 2. simpl.
    by rewrite Z.eqb_refl, String.eqb_refl, orb_true_r.
Qed.

Lemma demo_conversation_raises (user_id partner : string) (now : Z) (db : DB) (e : Exception) :
  demo_conversation user_id partner now db = Raise e → e = IntegrityError.
Proof.
  unfold demo_conversation. cbv zeta. unfold insert_participant at 1.
  destruct (existsb _ _); [by intros [= <-]|]. cbn [bind].
  unfold insert_participant at 1. destruct (existsb _ _); [by intros [= <-]|].
  cbn [bind]. discriminate.
Qed.

Lemma elem_of_conversations_of (db : DB) (user : string) (c : Conversation) :
  c ∈ conversations_of db user
  ↔ c ∈ conversations db ∧ is_participant db (conv_id c) user = true.
Proof. unfold conversations_of. by rewrite !list_elem_of_In, filter_In. Qed.

(** X19: without a user id, get_conversations returns the empty list.
    For a user who has conversations, or when seeding is switched off,
    it leaves the store as it was and returns one summary per
    conversation of the table in which the user has a participant row,
    in the order of the table, and no other. *)
Theorem get_conversations_lists (strftime_HM : Z → string) (env : option string)
    (user : string) (now1 now2 : Z) (db : DB) :
  user ≠ "" →
  conversations_of db user ≠ [] ∨ _enable_auto_seed env = false →
  let r := get_conversations strftime_HM env (Some user) now1 now2 db in
  get_conversations strftime_HM env None now1 now2 db = (Return [], db)
  ∧ get_conversations strftime_HM env (Some "") now1 now2 db = (Return [], db)
  ∧ r.2 = db
  ∧ ∃ outs, r.1 = Return outs
            ∧ List.map summary_id outs = List.map conv_id (conversations_of db user)
            ∧ ∀ c, c ∈ conversations_of db user
                   ↔ c ∈ conversations db ∧ is_participant db (conv_id c) user = true.
Proof.
  intros Huser Hwhy r. split; [done|]. split; [done|].
  unfold r, get_conversations. apply String.eqb_neq in Huser. rewrite Huser.
  destruct (serialize_all_total strftime_HM db (conversations_of db user))
    as (outs & Houts & Hids & _).
  destruct (conversations_of db user) as [|c rest] eqn:Hconvs.
  - destruct Hwhy as [?|Hoff]; [done|]. rewrite Hoff. split; [done|].
    exists []. split; [done|]. split; [done|]. intros c.
    rewrite <- Hconvs. apply elem_of_conversations_of.
  - split; [done|]. exists outs. split; [done|]. split; [done|]. intros c'.
    rewrite <- Hconvs. apply elem_of_conversations_of.
Qed.

Lemma get_conversations_lists_witness :
  let r := get_conversations (fun _ => "00:00") None (Some "A") 100 200 unread_db in
  r.2 = unread_db
  ∧ ∃ outs, r.1 = Return outs ∧ List.map summary_id outs = [1%Z].
Proof.
  intros r.
  destruct (get_conversations_lists (fun _ => "00:00") None "A" 100 200 unread_db)
    as (_ & _ & Hsame & outs & Houts & Hids & _); [discriminate | by left |].
  split; [exact Hsame|]. exists outs. split; [exact Houts | exact Hids].
Defined.

(** X20: for one of the two demo partners, "roomie_demo_1" or
    "roomie_demo_2", who has no conversation, get_conversations with
    seeding on never answers: the seeding pairs the user with
    themselves, the unique constraint is broken, the exception leaves
    the handler as a 500 and the store is as it was. *)
Theorem get_conversations_demo_partner (strftime_HM : Z → string) (env : option string)
    (user : string) (now1 now2 : Z) (db : DB) :
  user = "roomie_demo_1" ∨ user = "roomie_demo_2" →
  conversations_of db user = [] →
  _enable_auto_seed env = true →
  get_conversations strftime_HM env (Some user) now1 now2 db = (Raise IntegrityError, db)
  ∧ error_kind IntegrityError = Internal.
Proof.
  intros Hdemo Hnone Hon. split; [|done]. unfold get_conversations.
  assert (Huser : String.eqb user "" = false) by (destruct Hdemo as [->| ->]; done).
  rewrite Huser, Hnone, Hon.
  assert (Hseed : ensure_demo_conversations user now1 now2 db = Raise IntegrityError).
  { unfold ensure_demo_conversations. cbn [demo_conversations].
    destruct Hdemo as [->| ->].
    - by rewrite demo_conversation_self.
    - destruct (demo_conversation "roomie_demo_2" "roomie_demo_1" now1 db)
        as [e|db1] eqn:Hfirst; cbn [bind].
      + by apply demo_conversation_raises in Hfirst as ->.
      + by rewrite demo_conversation_self. }
  by rewrite Hseed.
Qed.

Lemma get_conversations_demo_partner_witness :
  get_conversations (fun _ => "00:00") None (Some "roomie_demo_2") 100 200 two_party_db
  = (Raise IntegrityError, two_party_db).
Proof.
  destruct (get_conversations_demo_partner (fun _ => "00:00") None "roomie_demo_2"
              100 200 two_party_db) as [Hraise _]; [by right | reflexivity | reflexivity |].
  exact Hraise.
Defined.

Lemma seeded_user_has_conversation (user : string) (now1 now2 : Z) (db db' : DB) :
  ensure_demo_conversations user now1 now2 db = Return db' →
  conversations_of db' user ≠ [].
Proof.
  unfold ensure_demo_conversations. cbn [demo_conversations].
  destruct (demo_conversation user "roomie_demo_1" now1 db) as [e|db1] eqn:H1;
    [discriminate|]. cbn [bind].
  destruct (demo_conversation user "roomie_demo_2" now2 db1) as [e|db2] eqn:H2;
    [discriminate|]. cbn [bind]. intros [= <-].
  apply demo_conversation_shape in H1 as (Hc1 & Hp1 & _).
  apply demo_conversation_shape in H2 as (Hc2 & Hp2 & _).
  set (id := fresh_id (List.map conv_id (conversations db))) in *.
  assert (Hin : {| conv_id := id; conv_name := None |} ∈ conversations_of db2 user).
  { apply elem_of_conversations_of. split.
    - rewrite Hc2, Hc1. apply list_elem_of_In, in_or_app. left.
      apply in_or_app. right. by left.
    - unfold is_participant. rewrite Hp2, Hp1, !existsb_app. simpl.
      by rewrite Z.eqb_refl, String.eqb_refl, !orb_true_r. }
  intros Hnil. rewrite Hnil in Hin. by apply not_elem_of_nil in Hin.
Qed.

(** X21: the seeding happens at most once for a user: when a call of
    get_conversations has answered, a second call for the same user
    under the same setting, at any later instants, gives the same answer
    and leaves the store as the first call left it. *)
Theorem get_conversations_again (strftime_HM : Z → string) (env : option string)
    (userId : option string) (now1 now2 now3 now4 : Z) (db db' : DB)
    (outs : list ConversationOut) :
  get_conversations strftime_HM env userId now1 now2 db = (Return outs, db') →
  get_conversations strftime_HM env userId now3 now4 db' = (Return outs, db').
Proof.
  unfold get_conversations. destruct userId as [user|]; [|by intros [= <- <-]].
  destruct (String.eqb user ""); [by intros [= <- <-]|].
  destruct (conversations_of db user) as [|c rest] eqn:Hconvs.
  - destruct (_enable_auto_seed env) eqn:Hon.
    + destruct (ensure_demo_conversations user now1 now2 db) as [e|db1] eqn:Hseed;
        [discriminate|].
      intros Heq. apply pair_equal_spec in Heq as [Houts <-].
      pose proof (seeded_user_has_conversation user now1 now2 db db1 Hseed) as Hhas.
      destruct (conversations_of db1 user) as [|c1 rest1]; [done|]. by rewrite Houts.
    + intros [= <- <-]. by rewrite Hconvs.
  - intros Heq. apply pair_equal_spec in Heq as [Houts <-]. by rewrite Hconvs, Houts.
Qed.

Lemma get_conversations_again_witness :
  let first := get_conversations (fun _ => "00:00") None (Some "newcomer") 100 200
                                 two_party_db in
  List.map conv_id (conversations first.2) = [1; 2; 3]%Z
  ∧ get_conversations (fun _ => "00:00") None (Some "newcomer") 300 400 first.2 = first.
Proof.
  intros first. split; [reflexivity|].
  destruct first as [[e|outs] db'] eqn:Hfirst; [discriminate|].
  apply (get_conversations_again (fun _ => "00:00") None (Some "newcomer") 100 200 300 400
           two_party_db db' outs).
  exact Hfirst.
Defined.

Lemma serialize_unnamed (strftime_HM : Z → string) (db : DB) (id : Z) :
  ∃ name, chat_name id = Some name
          ∧ serialize_conversation_summary strftime_HM db
              {| conv_id := id; conv_name := None |}
            = Return {| summary_id := id;
                        summary_name := Some name;
                        summary_avatar := None;
                        summary_lastMessage := option_map msg_content (last_msg db id);
                        summary_lastMessageTime :=
                          option_map (fun m => strftime_HM (msg_timestamp m))
                                     (last_msg db id) |}.
Proof.
  destruct (chat_name_not_empty id) as (name & Hname & _). exists name.
  split; [done|]. unfold serialize_conversation_summary. cbn [conv_name conv_id].
  by rewrite Hname.
Qed.

Lemma filter_empty_all_false {A} (f : A → bool) (l : list A) :
  List.filter f l = [] → ∀ x, In x l → f x = false.
Proof.
  intros Hnil x Hx. destruct (f x) eqn:Hfx; [|done].
  assert (Hin : In x (List.filter f l)) by (by apply filter_In).
  rewrite Hnil in Hin. done.
Qed.

(** X22: in a store that has its integrity, for a user who has no
    conversation and is not one of the two demo partners, with seeding
    on, get_conversations creates two conversations under the next two
    ids, without a stored name, one with each demo partner; each gets
    its two participant rows and three messages with status "sent",
    unread, stamped with the instant of its turn; and the answer is the
    two summaries, named from the catalog, each with a last message. *)
Theorem get_conversations_seeds (strftime_HM : Z → string) (env : option string)
    (user : string) (now1 now2 : Z) (db : DB) :
  store_ok db →
  user ≠ "" →
  conversations_of db user = [] →
  _enable_auto_seed env = true →
  user ≠ "roomie_demo_1" → user ≠ "roomie_demo_2" →
  let id1 := fresh_id (List.map conv_id (conversations db)) in
  let id2 := (id1 + 1)%Z in
  let r := get_conversations strftime_HM env (Some user) now1 now2 db in
  conversations r.2
  = conversations db ++ [ {| conv_id := id1; conv_name := None |};
                          {| conv_id := id2; conv_name := None |} ]
  ∧ participants r.2
    = participants db
      ++ [ {| cp_conversation_id := id1; cp_user_id := user |};
           {| cp_conversation_id := id1; cp_user_id := "roomie_demo_1" |};
           {| cp_conversation_id := id2; cp_user_id := user |};
           {| cp_conversation_id := id2; cp_user_id := "roomie_demo_2" |} ]
  ∧ (∃ new, messages r.2 = messages db ++ new
            ∧ List.map message_fields new
              = [ (id1, "roomie_demo_1", "¡Hola! Vi tu perfil y me interesa conversar.",
                   now1, "sent", false);
                  (id1, user, "¡Hola! Claro, me gusta tu perfil también.",
                   now1, "sent", false);
                  (id1, "roomie_demo_1", "¿Qué zona te gustaría y cuál es tu presupuesto?",
                   now1, "sent", false);
                  (id2, "roomie_demo_2", "¡Hola! Vi tu perfil y me interesa conversar.",
                   now2, "sent", false);
                  (id2, user, "¡Hola! Claro, me gusta tu perfil también.",
                   now2, "sent", false);
                  (id2, "roomie_demo_2", "¿Qué zona te gustaría y cuál es tu presupuesto?",
                   now2, "sent", false) ])
  ∧ ∃ o1 o2, r.1 = Return [o1; o2]
             ∧ summary_id o1 = id1 ∧ summary_id o2 = id2
             ∧ summary_name o1 = chat_name id1 ∧ summary_name o2 = chat_name id2
             ∧ summary_lastMessage o1 ≠ None ∧ summary_lastMessage o2 ≠ None.
Proof.
  intros Hok Huser Hnone Hon Hd1 Hd2 id1 id2 r.
  assert (Hfk : participants_reference_conversations db) by apply Hok.
  destruct (demo_conversation_succeeds user "roomie_demo_1" now1 db Hfk Hd1)
    as (db1 & Hrun1).
  pose proof (demo_conversation_store_ok _ _ _ _ _ Hok Hrun1) as Hok1.
  assert (Hfk1 : participants_reference_conversations db1) by apply Hok1.
  destruct (demo_conversation_succeeds user "roomie_demo_2" now2 db1 Hfk1 Hd2)
    as (db2 & Hrun2).
  destruct (demo_conversation_shape _ _ _ _ _ Hrun1) as (Hc1 & Hp1 & new1 & Hm1 & Hf1).
  destruct (demo_conversation_shape _ _ _ _ _ Hrun2) as (Hc2 & Hp2 & new2 & Hm2 & Hf2).
  fold id1 in Hc1, Hp1, Hf1.
  assert (Hid2 : fresh_id (List.map conv_id (conversations db1)) = id2).
  { rewrite Hc1, List.map_app. simpl. apply fresh_id_snoc. }
  rewrite Hid2 in Hc2, Hp2, Hf2.
  assert (Hseed : ensure_demo_conversations user now1 now2 db = Return db2).
  { unfold ensure_demo_conversations. cbn [demo_conversations].
    rewrite Hrun1. cbn [bind]. by rewrite Hrun2. }
  assert (Hconvs : conversations_of db2 user
                   = [ {| conv_id := id1; conv_name := None |};
                       {| conv_id := id2; conv_name := None |} ]).
  { unfold conversations_of. rewrite Hc2, Hc1, <- app_assoc, List.filter_app.
    rewrite filter_nothing.
    - simpl. unfold is_participant. rewrite Hp2, Hp1, !existsb_app. simpl.
      rewrite !Z.eqb_refl, !String.eqb_refl. simpl.
      by rewrite !orb_true_r.
    - intros c Hc.
      pose proof (filter_empty_all_false _ _ Hnone c Hc) as Hold. simpl in Hold.
      assert (Hlt : (conv_id c < id1)%Z).
      { apply fresh_id_above, in_map_iff. by exists c. }
      unfold is_participant in *. rewrite Hp2, Hp1, !existsb_app, Hold. simpl.
      destruct (Z.eqb_spec id1 (conv_id c)); [lia|].
      destruct (Z.eqb_spec id2 (conv_id c)); [unfold id2 in *; lia|]. done. }
  assert (Hr : r = (serialize_all strftime_HM db2 (conversations_of db2 user), db2)).
  { unfold r, get_conversations. apply String.eqb_neq in Huser.
    by rewrite Huser, Hnone, Hon, Hseed. }
  destruct new1 as [|a1 [|a2 [|a3 [|]]]]; try discriminate.
  destruct new2 as [|b1 [|b2 [|b3 [|]]]]; try discriminate.
  assert (Ha1 : msg_conversation_id a1 = id1) by (by injection Hf1).
  assert (Hb1 : msg_conversation_id b1 = id2) by (by injection Hf2).
  assert (Hlast1 : last_msg db2 id1 ≠ None).
  { intros Hnil. apply last_msg_none in Hnil.
    assert (Hin : a1 ∈ messages_of db2 id1).
    { apply elem_of_messages_of. split.
      - rewrite Hm2, Hm1. apply list_elem_of_In, in_or_app. left.
        apply in_or_app. right. by left.
      - exact Ha1. }
    rewrite Hnil in Hin. by apply not_elem_of_nil in Hin. }
  assert (Hlast2 : last_msg db2 id2 ≠ None).
  { intros Hnil. apply last_msg_none in Hnil.
    assert (Hin : b1 ∈ messages_of db2 id2).
    { apply elem_of_messages_of. split.
      - rewrite Hm2. apply list_elem_of_In, in_or_app. right. by left.
      - exact Hb1. }
    rewrite Hnil in Hin. by apply not_elem_of_nil in Hin. }
  rewrite Hr. cbn [fst snd]. split; [by rewrite Hc2, Hc1, <- app_assoc|].
  split; [by rewrite Hp2, Hp1, <- app_assoc|]. split.
  - exists ([a1; a2; a3] ++ [b1; b2; b3]). split.
    + by rewrite Hm2, Hm1, <- app_assoc.
    + by rewrite List.map_app, Hf1, Hf2.
  - rewrite Hconvs. cbn [serialize_all].
    destruct (serialize_unnamed strftime_HM db2 id1) as (n1 & Hn1 & Hs1).
    destruct (serialize_unnamed strftime_HM db2 id2) as (n2 & Hn2 & Hs2).
    rewrite Hs1, Hs2. cbn [bind]. eexists. eexists. split; [reflexivity|]. cbn.
    split; [done|]. split; [done|]. split; [done|]. split; [done|].
    split.
    + destruct (last_msg db2 id1); [done|]. by destruct Hlast1.
    + destruct (last_msg db2 id2); [done|]. by destruct Hlast2.
Qed.

Lemma get_conversations_seeds_witness :
  let r := get_conversations (fun _ => "00:00") None (Some "newcomer") 100 200
                             two_party_db in
  List.map conv_id (conversations r.2) = [1; 2; 3]%Z
  ∧ participants_of r.2 2 = ["newcomer"; "roomie_demo_1"]
  ∧ participants_of r.2 3 = ["newcomer"; "roomie_demo_2"].
Proof.
  intros r.
  destruct (get_conversations_seeds (fun _ => "00:00") None "newcomer" 100 200 two_party_db)
    as (Hconvs & Hparts & _).
  - exact two_party_db_ok.
  - discriminate.
  - reflexivity.
  - reflexivity.
  - discriminate.
  - discriminate.
  - fold r in Hconvs, Hparts. split; [by rewrite Hconvs|].
    unfold participants_of. rewrite Hparts. split; reflexivity.
Defined.

(** ** The websocket endpoint *)

(** What a turn of the loop does to the registry. *)
Lemma websocket_turn_manager (send_ok : WebSocket → bool) (room_id : Z)
    (websocket : WebSocket) (data : Inbound) (now : Z) (w : World) :
  let r := websocket_turn send_ok room_id websocket data now w in
  (r.1 = Continue
   ∧ (w_manager r.2 = w_manager w
      ∨ ∃ payload, w_manager r.2 = (broadcast send_ok room_id payload (w_manager w)).1))
  ∨ ((∃ e, r.1 = Closed e)
     ∧ w_manager r.2 = disconnect room_id websocket (w_manager w)).
Proof.
  unfold websocket_turn, reply_error.
  destruct (in_content data) as [content|], (in_sender_id data) as [sender_id|];
    try (destruct (send_ok websocket); simpl; [left; split; [done | by left]
                                              | right; split; [by eexists | done]]).
  destruct (falsy (Some content) || falsy (Some sender_id)).
  - destruct (send_ok websocket); simpl;
      [left; split; [done | by left] | right; split; [by eexists | done]].
  - left. split; [done|]. right. by eexists.
Qed.

Lemma websocket_loop_registry (send_ok : WebSocket → bool) (room_id : Z)
    (websocket : WebSocket) (inbox : list (Inbound * Z)) :
  ∀ w,
    let w' := websocket_loop send_ok room_id websocket inbox w in
    (websocket ∉ sessions (w_manager w') room_id)
    ∧ sessions (w_manager w') room_id ⊆ sessions (w_manager w) room_id
    ∧ (∀ other, room_id ≠ other → w_manager w' !! other = w_manager w !! other)
    ∧ (no_empty_room (w_manager w) → no_empty_room (w_manager w')).
Proof.
  induction inbox as [|[data now] rest IH]; intros w; simpl.
  - rewrite sessions_disconnect. split; [set_solver|]. split; [set_solver|].
    split; [intros other Hne; by apply lookup_disconnect_ne|].
    apply disconnect_no_empty_room.
  - pose proof (websocket_turn_manager send_ok room_id websocket data now w) as Hturn.
    destruct (websocket_turn send_ok room_id websocket data now w) as [turn w1].
    simpl in Hturn. destruct Hturn as [[-> Hm]|[[e ->] Hm]].
    + specialize (IH w1). simpl in IH. destruct IH as (Hout & Hsub & Hother & Hinv).
      split; [done|]. destruct Hm as [Hm|[payload Hm]]; rewrite Hm in *.
      * done.
      * split; [|split].
        -- intros ws Hws. apply Hsub in Hws. by apply sessions_after_broadcast in Hws as [? _].
        -- intros other Hne. rewrite Hother by done. unfold broadcast.
           by apply broadcast_loop_other_rooms.
        -- intros Hno. apply Hinv. unfold broadcast. by apply broadcast_loop_no_empty_room.
    + rewrite Hm, sessions_disconnect. split; [set_solver|]. split; [set_solver|].
      split; [intros other Hne; by apply lookup_disconnect_ne|].
      apply disconnect_no_empty_room.
Qed.

(** X23: when the websocket endpoint of a session returns, whatever the
    client sent and however the sends went, the session is no longer
    registered on its room; no session was added to the room besides it;
    the entries of the other rooms are as they were; and a registry
    without empty rooms is left without empty rooms. *)
Theorem websocket_endpoint_unregisters (send_ok : WebSocket → bool) (room_id : Z)
    (websocket : WebSocket) (inbox : list (Inbound * Z)) (w : World) :
  let w' := websocket_endpoint send_ok room_id websocket inbox w in
  (websocket ∉ sessions (w_manager w') room_id)
  ∧ sessions (w_manager w') room_id ⊆ sessions (w_manager w) room_id ∖ {[websocket]}
  ∧ (∀ other, room_id ≠ other → w_manager w' !! other = w_manager w !! other)
  ∧ (no_empty_room (w_manager w) → no_empty_room (w_manager w')).
Proof.
  intros w'. unfold w', websocket_endpoint.
  destruct (websocket_loop_registry send_ok room_id websocket inbox
              {| w_db := w_db w; w_manager := connect room_id websocket (w_manager w);
                 w_delivered := w_delivered w |}) as (Hout & Hsub & Hother & Hinv).
  cbn [w_manager] in *. rewrite sessions_connect in Hsub.
  split; [done|]. split; [set_solver|]. split.
  - intros other Hne. rewrite Hother by done. by apply lookup_connect_ne.
  - intros Hno. by apply Hinv, connect_no_empty_room.
Qed.

Lemma websocket_endpoint_unregisters_witness :
  let w' := websocket_endpoint (fun ws => Nat.eqb ws 5) 1 9%nat
              [ ({| in_content := Some "hi"; in_sender_id := Some "A" |}, 100%Z) ]
              live_world in
  w_manager w' !! 2%Z = None ∧ no_empty_room (w_manager w').
Proof.
  intros w'.
  destruct (websocket_endpoint_unregisters (fun ws => Nat.eqb ws 5) 1 9%nat
              [ ({| in_content := Some "hi"; in_sender_id := Some "A" |}, 100%Z) ]
              live_world) as (_ & _ & Hother & Hinv).
  split.
  - fold w' in Hother. rewrite Hother by lia. reflexivity.
  - apply Hinv. apply connect_no_empty_room, connect_no_empty_room.
    intros r conns. by rewrite lookup_empty.
Defined.




(** ** seed.py *)

(** What ensure_conversation leaves: in a store whose participant rows
    name conversations of the table, for two distinct users, it always
    goes through. *)
Lemma ensure_conversation_result (user_a user_b : string) (now : Z) (db : DB) :
  participants_reference_conversations db → user_a ≠ user_b →
  let id := fresh_id (List.map conv_id (conversations db)) in
  ∃ db', ensure_conversation user_a user_b now db = Return (id, db')
         ∧ conversations db' = conversations db ++ [ {| conv_id := id; conv_name := None |} ]
         ∧ participants db'
           = participants db ++ [ {| cp_conversation_id := id; cp_user_id := user_a |};
                                  {| cp_conversation_id := id; cp_user_id := user_b |} ]
         ∧ ∃ new, messages db' = messages db ++ new
                  ∧ List.map message_fields new
                    = [ (id, user_b, "¡Hola! Vi tu perfil y me interesa conversar.",
                         now - 300, "read", true);
                        (id, user_a, "¡Hola! Claro, me gusta tu perfil también.",
                         now - 240, "delivered", false);
                        (id, user_b, "¿Qué zona te gustaría y cuál es tu presupuesto?",
                         now - 180, "read", true);
                        (id, user_a, "Zona centro, presupuesto alrededor de 400-500 USD.",
                         now - 120, "delivered", false);
                        (id, user_b, "Perfecto, tengo opciones por esa zona. 😊",
                         now - 60, "read", true) ]%Z.
Proof.
  intros Hfk Hne id. unfold ensure_conversation. fold id. cbv zeta.
  unfold insert_participant at 1.
  cbn [insert_conversation participants conversations messages].
  rewrite existsb_same_row. unfold id at 1. rewrite fresh_conversation_no_rows by done.
  cbn [bind]. unfold insert_participant at 1. cbn [participants conversations messages].
  rewrite existsb_app, existsb_same_row. unfold id at 1.
  rewrite fresh_conversation_no_rows by done.
  cbn [existsb orb]. unfold same_row. cbn [cp_conversation_id cp_user_id].
  rewrite Z.eqb_refl, orb_false_r. cbn [andb].
  assert (Hba : String.eqb user_b user_a = false) by (apply String.eqb_neq; congruence).
  assert (Hab : String.eqb user_a user_b = false) by (by apply String.eqb_neq).
  rewrite Hba. cbn [bind]. eexists. split; [reflexivity|].
  cbn [demo_messages add_demo_messages add_message conversations participants messages].
  split; [done|]. split; [by rewrite <- app_assoc|].
  eexists. split; [rewrite <- !app_assoc; reflexivity|].
  unfold message_fields. simpl. rewrite Hab, String.eqb_refl.
  repeat (f_equal; try lia).
Qed.

(** X25: in a store that has its integrity, the main of seed.py always
    goes through and always creates two new conversations, under the
    next two ids, one between the test user and each demo partner,
    whether or not they already have a conversation together. Each gets
    its two participant rows and five messages, one minute apart from
    five minutes before the instant of its turn; those of the partner
    are read, those of the test user delivered and unread, so each has
    is_read True exactly when its status is "read". *)
Theorem seed_main_creates (now1 now2 : Z) (db : DB) :
  store_ok db →
  let id1 := fresh_id (List.map conv_id (conversations db)) in
  let id2 := (id1 + 1)%Z in
  let r := seed_main now1 now2 db in
  r.1 = Return [id1; id2]
  ∧ conversations r.2
    = conversations db ++ [ {| conv_id := id1; conv_name := None |};
                            {| conv_id := id2; conv_name := None |} ]
  ∧ participants r.2
    = participants db
      ++ [ {| cp_conversation_id := id1; cp_user_id := TEST_USER_ID |};
           {| cp_conversation_id := id1; cp_user_id := "roomie_demo_1" |};
           {| cp_conversation_id := id2; cp_user_id := TEST_USER_ID |};
           {| cp_conversation_id := id2; cp_user_id := "roomie_demo_2" |} ]
  ∧ ∃ new, messages r.2 = messages db ++ new
           ∧ List.map (fun m => (msg_conversation_id m, msg_sender_id m, msg_timestamp m,
                                 msg_status m, msg_is_read m)) new
             = [ (id1, "roomie_demo_1", now1 - 300, "read", true);
                 (id1, TEST_USER_ID, now1 - 240, "delivered", false);
                 (id1, "roomie_demo_1", now1 - 180, "read", true);
                 (id1, TEST_USER_ID, now1 - 120, "delivered", false);
                 (id1, "roomie_demo_1", now1 - 60, "read", true);
                 (id2, "roomie_demo_2", now2 - 300, "read", true);
                 (id2, TEST_USER_ID, now2 - 240, "delivered", false);
                 (id2, "roomie_demo_2", now2 - 180, "read", true);
                 (id2, TEST_USER_ID, now2 - 120, "delivered", false);
                 (id2, "roomie_demo_2", now2 - 60, "read", true) ]%Z
           ∧ forallb message_ok new = true.
Proof.
  intros Hok id1 id2 r.
  assert (Hfk : participants_reference_conversations db) by apply Hok.
  destruct (ensure_conversation_result TEST_USER_ID "roomie_demo_1" now1 db Hfk)
    as (db1 & Hrun1 & Hc1 & Hp1 & new1 & Hm1 & Hf1); [discriminate|].
  fold id1 in Hrun1, Hc1, Hp1, Hf1.
  assert (Hok1 : store_ok db1).
  { exact (ensure_conversation_store_ok _ _ _ _ _ Hok Hrun1). }
  assert (Hfk1 : participants_reference_conversations db1) by apply Hok1.
  destruct (ensure_conversation_result TEST_USER_ID "roomie_demo_2" now2 db1 Hfk1)
    as (db2 & Hrun2 & Hc2 & Hp2 & new2 & Hm2 & Hf2); [discriminate|].
  assert (Hid2 : fresh_id (List.map conv_id (conversations db1)) = id2).
  { rewrite Hc1, List.map_app. simpl. apply fresh_id_snoc. }
  rewrite Hid2 in Hrun2, Hc2, Hp2, Hf2.
  assert (Hr : r = (Return [id1; id2], db2)).
  { unfold r, seed_main. cbn [PARTNER_IDS List.map fst combine seed_partners].
    rewrite Hrun1. cbn [bind fst snd]. rewrite Hrun2. reflexivity. }
  rewrite Hr. cbn [fst snd]. split; [done|].
  split; [by rewrite Hc2, Hc1, <- app_assoc|].
  split; [by rewrite Hp2, Hp1, <- app_assoc|].
  exists (new1 ++ new2). split; [by rewrite Hm2, Hm1, <- app_assoc|].
  assert (Hproj : ∀ l : list Message,
            List.map (fun m => (msg_conversation_id m, msg_sender_id m, msg_timestamp m,
                                msg_status m, msg_is_read m)) l
            = List.map (fun t : Z * string * string * Z * string * bool =>
                          let '(c, s, _, ts, st, rd) := t in (c, s, ts, st, rd))
                       (List.map message_fields l)).
  { intros l. rewrite List.map_map. by apply List.map_ext. }
  assert (Hokf : ∀ l : list Message,
            forallb message_ok l
            = forallb (fun t : Z * string * string * Z * string * bool =>
                         let '(_, _, _, _, st, rd) := t in
                         match status_rank st with
                         | Some _ => Bool.eqb rd (String.eqb st "read")
                         | None => false
                         end)
                      (List.map message_fields l)).
  { intros l. induction l as [|m l IH]; simpl; [done|]. by rewrite IH. }
  rewrite Hproj, Hokf, List.map_app, Hf1, Hf2. split; reflexivity.
Qed.

Lemma seed_main_creates_witness :
  let first := seed_main 1000 2000 two_party_db in
  let second := seed_main 3000 4000 first.2 in
  first.1 = Return [2; 3]%Z
  ∧ second.1 = Return [4; 5]%Z
  ∧ participants_of second.2 4 = participants_of second.2 2.
Proof.
  intros first second.
  destruct (seed_main_creates 1000 2000 two_party_db two_party_db_ok) as (Hret & _).
  split; [exact Hret|]. split; reflexivity.
Defined.

(** ** Conversations of two users *)

Lemma empty_db_ok : store_ok empty_db.
Proof.
  unfold store_ok. simpl. split; [apply NoDup_nil_2|]. split; [apply NoDup_nil_2|].
  split; [apply NoDup_nil_2|]. intros p [].
Qed.

Lemma add_demo_messages_participants (conversation_id : Z) (user_b : string) (base_time : Z)
    (msgs : list (string * string)) :
  ∀ i db, participants (add_demo_messages conversation_id user_b base_time i msgs db)
          = participants db.
Proof.
  induction msgs as [|[sender content] rest IH]; intros i db; simpl; [done|].
  by rewrite IH.
Qed.

Lemma ensure_conversation_participants (user_a user_b : string) (now : Z) (db : DB)
    (r : Z * DB) :
  ensure_conversation user_a user_b now db = Return r →
  let id := fresh_id (List.map conv_id (conversations db)) in
  participants r.2
  = participants db ++ [ {| cp_conversation_id := id; cp_user_id := user_a |};
                         {| cp_conversation_id := id; cp_user_id := user_b |} ].
Proof.
  unfold ensure_conversation. cbv zeta.
  destruct (insert_participant (insert_conversation db _) _) as [e|db2] eqn:Hp1;
    [discriminate|]. cbn [bind].
  destruct (insert_participant db2 _) as [e|db3] eqn:Hp2; [discriminate|]. cbn [bind].
  apply insert_participant_Return in Hp1, Hp2. subst db2. subst db3.
  intros Heq.
  apply (f_equal (fun x => match x with
                           | Return r => participants r.2
                           | Raise _ => []
                           end)) in Heq.
  cbn beta iota in Heq. cbn [snd] in Heq. rewrite add_demo_messages_participants in Heq.
  rewrite <- Heq. cbn [participants insert_conversation]. by rewrite <- app_assoc.
Qed.

(** A writer that leaves the participant rows as they are, and one
    that adds a conversation under a fresh id with two rows, keep the
    conversations at two rows or less. *)
Lemma two_party_store_same (db db' : DB) :
  store_ok db' → participants db' = participants db →
  two_party_store db → two_party_store db'.
Proof.
  intros Hok Hparts [_ Hrows]. split; [done|]. intros conversation_id.
  unfold participants_of. rewrite Hparts. apply Hrows.
Qed.

Lemma two_party_store_new_pair (db db' : DB) (u1 u2 : string) :
  let id := fresh_id (List.map conv_id (conversations db)) in
  store_ok db' →
  participants db'
  = participants db ++ [ {| cp_conversation_id := id; cp_user_id := u1 |};
                         {| cp_conversation_id := id; cp_user_id := u2 |} ] →
  two_party_store db → two_party_store db'.
Proof.
  intros id Hok Hparts [(_ & _ & _ & Hfk) Hrows]. split; [done|]. intros conversation_id.
  rewrite (participants_of_new_pair db db' u1 u2 conversation_id Hfk Hparts).
  destruct (conversation_id =? _)%Z; [simpl; lia | apply Hrows].
Qed.

Lemma create_conversation_two_party (payload : CreateConversationIn) (now : Z) (db : DB) :
  two_party_store db → two_party_store (create_conversation payload now db).2.
Proof.
  intros Htwo.
  pose proof (create_conversation_store_ok payload now db (proj1 Htwo)) as Hok.
  unfold create_conversation in *.
  destruct (create_conversation_try payload now db) as [e|[conv db']] eqn:Htry; [done|].
  cbn [snd] in *.
  destruct (existing_conv db (currentUserId payload) (participantId payload))
    as [c0|] eqn:Hex.
  - unfold create_conversation_try in Htry. rewrite Hex in Htry.
    by injection Htry as _ <-.
  - destruct (create_conversation_try_new payload now db db' conv Hex Htry)
      as (_ & _ & _ & Hparts & _).
    by eapply two_party_store_new_pair.
Qed.

Lemma demo_conversations_two_party (user_id : string) (partners : list (string * Z)) :
  ∀ db db', two_party_store db → demo_conversations user_id partners db = Return db' →
            two_party_store db'.
Proof.
  induction partners as [|[partner now] rest IH]; intros db db' Htwo; simpl.
  - by intros [= <-].
  - destruct (demo_conversation user_id partner now db) as [e|db1] eqn:Hdemo;
      [discriminate|]. cbn [bind]. apply IH.
    destruct (demo_conversation_shape _ _ _ _ _ Hdemo) as (_ & Hparts & _).
    eapply two_party_store_new_pair; [|exact Hparts|exact Htwo].
    eapply demo_conversation_store_ok; [apply Htwo | exact Hdemo].
Qed.

Lemma seed_partners_two_party (partners : list (string * Z)) :
  ∀ created db r, two_party_store db → seed_partners partners created db = Return r →
                  two_party_store r.2.
Proof.
  induction partners as [|[partner now] rest IH]; intros created db r Htwo; simpl.
  - by intros [= <-].
  - destruct (ensure_conversation TEST_USER_ID partner now db) as [e|r1] eqn:Hens;
      [discriminate|]. cbn [bind]. apply IH.
    eapply two_party_store_new_pair; [| |exact Htwo].
    + eapply ensure_conversation_store_ok; [apply Htwo | exact Hens].
    + by apply ensure_conversation_participants in Hens.
Qed.

(** Every store the service can be in is a store of conversations of
    two: the writers of participant rows are create_conversation,
    ensure_demo_conversations and the seeding script, and each adds two
    rows under the id of a conversation it has just made. *)
Lemma reachable_two_party (db : DB) : reachable db → two_party_store db.
Proof.
  induction 1 as [ | payload now db _ IH | send_ok conversation_id body now w _ IH
                 | send_ok from_thread_ok conversation_id user_id w _ IH
                 | message_id status db _ IH | send_ok room_id websocket data now w _ IH
                 | strftime_HM env userId now1 now2 db _ IH | now1 now2 db _ IH ].
  - split; [apply empty_db_ok|]. intros conversation_id. simpl. lia.
  - by apply create_conversation_two_party.
  - destruct (send_message_db send_ok conversation_id body now w) as [->| ->]; [done|].
    apply (two_party_store_same (w_db w)); [|reflexivity|done].
    apply store_ok_add_message; [reflexivity | apply IH].
  - destruct (mark_conversation_read_db send_ok from_thread_ok conversation_id user_id w)
      as [->|[user ->]]; [done|].
    apply (two_party_store_same (w_db w)); [|reflexivity|done].
    apply (store_ok_same_keys (w_db w)); [reflexivity|reflexivity| |apply IH].
    simpl. rewrite List.map_map. apply List.map_ext. intros m.
    by destruct (unread_from_others _ _ m).
  - destruct (update_message_status_tables message_id status db) as [Hconvs Hparts].
    apply (two_party_store_same db); [|exact Hparts|done].
    apply (store_ok_same_keys db); [exact Hconvs|exact Hparts| |apply IH].
    rewrite update_message_status_messages, List.map_map. apply List.map_ext.
    intros m. by destruct (msg_id m =? message_id)%Z.
  - destruct (websocket_turn_db send_ok room_id websocket data now w)
      as [->|(sender_id & content & ->)]; [done|].
    apply (two_party_store_same (w_db w)); [|reflexivity|done].
    apply store_ok_add_message; [reflexivity | apply IH].
  - unfold get_conversations.
    destruct userId as [user|]; [|done]. destruct (String.eqb user ""); [done|].
    destruct (conversations_of db user); [|done].
    destruct (_enable_auto_seed env); [|done].
    destruct (ensure_demo_conversations user now1 now2 db) as [e|db'] eqn:Hseed;
      [done|]. simpl. by eapply demo_conversations_two_party.
  - unfold seed_main.
    destruct (seed_partners _ [] db) as [e|[created db']] eqn:Hseed; [done|].
    simpl. by apply (seed_partners_two_party _ _ _ _ IH Hseed).
Qed.

Example two_party_db_reachable : reachable two_party_db.
Proof.
  change two_party_db
    with (create_conversation
            {| participantId := "A"; currentUserId := "B"; initialMessage := None |}
            0 empty_db).2.
  apply reachable_create_conversation, reachable_empty.
Qed.

Lemma participants_of_length (db : DB) (conversation_id : Z) :
  (length (participants_of db conversation_id) ≤ length (participants db))%nat.
Proof. unfold participants_of. rewrite List.length_map. apply List.filter_length_le. Qed.

(** Two distinct users that are both among at most two rows are all of
    them. *)
Lemma pair_is_all (l : list string) (a b : string) :
  a ≠ b → In a l → In b l → (length l ≤ 2)%nat → l ≡ₚ [a; b].
Proof.
  intros Hab Ha Hb Hlen. destruct l as [|x [|y [|z l]]]; simpl in *.
  - destruct Ha.
  - destruct Ha as [->|[]], Hb as [->|[]]. done.
  - destruct Ha as [->|[->|[]]], Hb as [->|[->|[]]]; try done. apply Permutation_swap.
  - lia.
Qed.

(** The count of the subquery is 2 for a conversation that has both
    users. *)
Lemma user_count_both (db : DB) (a b : string) (conversation_id : Z) :
  a ≠ b →
  In a (participants_of db conversation_id) → In b (participants_of db conversation_id) →
  user_count db [a; b] conversation_id = 2%nat.
Proof.
  intros Hab Ha Hb. unfold user_count. set (F := nodup string_dec _).
  assert (Hnd : List.NoDup F) by apply List.NoDup_nodup.
  assert (HaF : In a F).
  { apply nodup_In, filter_In. split; [done|]. simpl. by rewrite String.eqb_refl. }
  assert (HbF : In b F).
  { apply nodup_In, filter_In. split; [done|]. simpl.
    by rewrite String.eqb_refl, orb_true_r. }
  assert (Hle : (length F ≤ length [a; b])%nat).
  { apply List.NoDup_incl_length; [done|]. intros u Hu.
    apply nodup_In, filter_In in Hu as [_ Hu]. simpl in Hu. rewrite orb_false_r in Hu.
    apply orb_prop in Hu as [Hu|Hu]; apply String.eqb_eq in Hu; subst u; simpl; auto. }
  assert (Hge : (length [a; b] ≤ length F)%nat).
  { apply List.NoDup_incl_length.
    - repeat constructor; simpl; intuition congruence.
    - intros u [<-|[<-|[]]]; done. }
  simpl in Hle, Hge. lia.
Qed.

(** C1: in a store of conversations of two, which every store the
    service can be in is, for two distinct users A and B:
    create_conversation returns an existing conversation only if its
    participants are exactly A and B, and then the store is as it was;
    it always returns a conversation, whose participants in the
    resulting store are exactly A and B; a request with the two users in
    the other order returns the same conversation; every further call
    for the pair, in either order, returns that conversation and leaves
    the store as it is; and when no conversation held the two users
    before the call, the returned conversation is afterwards the only
    one of the table whose participants are A and B. *)
Theorem create_conversation_finds_exact_pair (payload : CreateConversationIn) (now : Z)
    (db : DB) :
  two_party_store db →
  currentUserId payload ≠ participantId payload →
  let a := currentUserId payload in
  let b := participantId payload in
  let r := create_conversation payload now db in
  (∀ conv, existing_conv db a b = Some conv →
     r = (Return conv, db) ∧ participants_of db (conv_id conv) ≡ₚ [a; b])
  ∧ ∃ conv,
      r.1 = Return conv
      ∧ In conv (conversations r.2)
      ∧ participants_of r.2 (conv_id conv) ≡ₚ [a; b]
      ∧ (∀ other now', currentUserId other = b → participantId other = a →
           (create_conversation other now' db).1 = Return conv)
      ∧ (∀ again now',
           (currentUserId again = a ∧ participantId again = b)
           ∨ (currentUserId again = b ∧ participantId again = a) →
           create_conversation again now' r.2 = (Return conv, r.2))
      ∧ (existing_conv db a b = None →
         ∀ c, In c (conversations r.2) →
              participants_of r.2 (conv_id c) ≡ₚ [a; b] → c = conv)
      ∧ two_party_store r.2.
Proof.
  intros Htwo Hne a b r.
  pose proof (create_conversation_two_party payload now db Htwo) as Htwo'. fold r in Htwo'.
  destruct Htwo as [Hok Hrows]. pose proof Hok as (_ & _ & _ & Hfk).
  assert (Hexact : ∀ conv, existing_conv db a b = Some conv →
            r = (Return conv, db) ∧ participants_of db (conv_id conv) ≡ₚ [a; b]).
  { intros conv Hfound. split.
    - unfold r, create_conversation, create_conversation_try. fold a b. by rewrite Hfound.
    - apply existing_conv_has_both in Hfound as (_ & Ha & Hb). by apply pair_is_all. }
  split; [exact Hexact|].
  assert (Hagain : ∀ conv, r = (Return conv, r.2) →
            ∀ again now',
              (currentUserId again = a ∧ participantId again = b)
              ∨ (currentUserId again = b ∧ participantId again = a) →
              create_conversation again now' r.2 = (Return conv, r.2)).
  { intros conv Hr again now' Hpair.
    by apply (create_conversation_again payload again now now' db r.2 conv). }
  destruct (existing_conv db a b) as [conv|] eqn:Hex.
  - destruct (Hexact conv eq_refl) as [Hr Hperm]. exists conv.
    assert (Hdb : r.2 = db) by (by rewrite Hr).
    split; [by rewrite Hr|]. rewrite Hdb.
    split; [by apply existing_conv_has_both in Hex as (? & _)|].
    split; [exact Hperm|]. split; [|split; [|split]].
    + intros other now' Hcur Hpart.
      unfold create_conversation, create_conversation_try.
      by rewrite Hcur, Hpart, existing_conv_swap, Hex.
    + rewrite <- Hdb. apply Hagain. by rewrite Hr.
    + discriminate.
    + by rewrite <- Hdb.
  - set (id := fresh_id (List.map conv_id (conversations db))).
    destruct (chat_name_total id) as [name Hname].
    pose proof (create_conversation_new payload now db name Hfk Hex Hne Hname) as Hcreate.
    fold id a b r in Hcreate.
    set (conv := {| conv_id := id; conv_name := Some name |}) in *.
    assert (Hof : ∀ conversation_id,
              participants_of r.2 conversation_id
              = if (conversation_id =? id)%Z then [b; a]
                else participants_of db conversation_id).
    { intros conversation_id. apply participants_of_new_pair; [done|]. by rewrite Hcreate. }
    assert (Hconvs : conversations r.2 = conversations db ++ [conv]) by (by rewrite Hcreate).
    exists conv. split; [by rewrite Hcreate|].
    split; [rewrite Hconvs; apply in_or_app; right; by left|].
    split; [rewrite Hof; cbn [conv_id conv]; rewrite Z.eqb_refl; apply Permutation_swap|].
    split; [|split; [|split]].
    + intros other now' Hcur Hpart.
      assert (Hex' : existing_conv db (currentUserId other) (participantId other) = None)
        by (by rewrite Hcur, Hpart, existing_conv_swap).
      assert (Hne' : currentUserId other ≠ participantId other)
        by (rewrite Hcur, Hpart; fold a b in Hne; congruence).
      by rewrite (create_conversation_new other now' db name Hfk Hex' Hne' Hname).
    + apply Hagain. by rewrite Hcreate.
    + intros _ c Hc Hperm. rewrite Hconvs in Hc.
      apply in_app_or in Hc as [Hold|[<-|[]]]; [exfalso|done].
      assert (Hlt : (conv_id c < id)%Z).
      { apply fresh_id_above, in_map_iff. by exists c. }
      rewrite Hof in Hperm. destruct (Z.eqb_spec (conv_id c) id) as [|_]; [lia|].
      unfold existing_conv in Hex. pose proof (find_none _ _ Hex c Hold) as Hcount.
      simpl in Hcount. apply Nat.eqb_neq in Hcount. apply Hcount.
      apply user_count_both; [done| |].
      * apply list_elem_of_In. rewrite Hperm. set_solver.
      * apply list_elem_of_In. rewrite Hperm. set_solver.
    + exact Htwo'.
Qed.

Lemma create_conversation_finds_exact_pair_witness :
  let payload := {| participantId := "B"; currentUserId := "A"; initialMessage := None |} in
  create_conversation payload 100 two_party_db
  = (Return {| conv_id := 1; conv_name := Some "Karla Rodríguez" |}, two_party_db)
  ∧ participants_of two_party_db 1 ≡ₚ ["A"; "B"].
Proof.
  intros payload.
  destruct (create_conversation_finds_exact_pair payload 100 two_party_db) as [Hfound _].
  - split; [apply two_party_db_ok|]. intros conversation_id.
    exact (participants_of_length two_party_db conversation_id).
  - discriminate.
  - apply Hfound. reflexivity.
Defined.

(** ** Composing the handlers *)



(** X27: a conversation that create_conversation has returned, found or
    new, is listed by get_conversations for the user who asked and for
    the other participant, when their ids are not empty; that listing
    does no seeding and leaves the store as create_conversation left
    it. *)
Theorem create_then_get_conversations (strftime_HM : Z → string) (env : option string)
    (payload : CreateConversationIn) (now now1 now2 : Z) (db db' : DB) (conv : Conversation)
    (user : string) :
  create_conversation payload now db = (Return conv, db') →
  user = currentUserId payload ∨ user = participantId payload →
  user ≠ "" →
  let r := get_conversations strftime_HM env (Some user) now1 now2 db' in
  r.2 = db'
  ∧ ∃ outs, r.1 = Return outs ∧ conv_id conv ∈ List.map summary_id outs.
Proof.
  intros Hcreate Hwho Huser r.
  apply create_conversation_found_after in Hcreate.
  apply existing_conv_has_both in Hcreate as (Hin & Ha & Hb).
  assert (Hlisted : conv ∈ conversations_of db' user).
  { apply elem_of_conversations_of. split; [by apply list_elem_of_In|].
    apply is_participant_In. by destruct Hwho as [->| ->]. }
  destruct (serialize_all_total strftime_HM db' (conversations_of db' user))
    as (outs & Houts & Hids & _).
  unfold r, get_conversations. apply String.eqb_neq in Huser. rewrite Huser.
  destruct (conversations_of db' user) as [|c rest] eqn:Hconvs;
    [by apply not_elem_of_nil in Hlisted|].
  split; [done|]. exists outs. split; [done|]. rewrite Hids.
  apply list_elem_of_In, in_map, list_elem_of_In. exact Hlisted.
Qed.

Lemma create_then_get_conversations_witness :
  let payload := {| participantId := "C"; currentUserId := "A"; initialMessage := None |} in
  let db' := (create_conversation payload 100 two_party_db).2 in
  let r := get_conversations (fun _ => "00:00") None (Some "C") 200 300 db' in
  r.2 = db' ∧ ∃ outs, r.1 = Return outs ∧ 2%Z ∈ List.map summary_id outs.
Proof.
  intros payload db' r.
  apply (create_then_get_conversations (fun _ => "00:00") None payload 100 200 300
           two_party_db db' {| conv_id := 2; conv_name := Some "Jorge Méndez" |} "C").
  - reflexivity.
  - by right.
  - discriminate.
Defined.

Lemma get_messages_elem (conversation_id : Z) (db : DB) (m : Message) :
  m ∈ get_messages conversation_id db
  ↔ m ∈ messages db ∧ msg_conversation_id m = conversation_id.
Proof.
  unfold get_messages. rewrite merge_sort_Permutation. apply elem_of_messages_of.
Qed.

Lemma message_ok_read (m : Message) :
  message_ok m = true → msg_is_read m = true → msg_status m = "read".
Proof.
  unfold message_ok. destruct (status_rank (msg_status m)); [|done].
  intros Heq Hread. rewrite Hread in Heq. apply Bool.eqb_prop in Heq.
  by apply String.eqb_eq.
Qed.

(** X28: in a store where is_read is True exactly when the status is
    "read", after mark_conversation_read for a reader who is a
    participant of an existing conversation, every message that
    get_messages lists for the conversation and that another user sent
    is read: is_read is True and the status is "read", whether or not
    the read-receipt notification went through. *)
Theorem mark_read_then_get_messages (send_ok : WebSocket → bool) (from_thread_ok : bool)
    (conversation_id : Z) (user : string) (w : World) (m : Message) :
  forallb message_ok (messages (w_db w)) = true →
  user ≠ "" →
  conversation_exists (w_db w) conversation_id = true →
  is_participant (w_db w) conversation_id user = true →
  let w' := (mark_conversation_read send_ok from_thread_ok conversation_id (Some user)
                                    w).2 in
  m ∈ get_messages conversation_id (w_db w') →
  msg_sender_id m ≠ user →
  msg_is_read m = true ∧ msg_status m = "read".
Proof.
  intros Hok Huser Hconv Hpart w' Hm Hsender.
  destruct (mark_conversation_read_passes send_ok from_thread_ok conversation_id user w
              Huser Hconv Hpart) as (Hdb & _). fold w' in Hdb.
  apply get_messages_elem in Hm as [Hin Hc].
  rewrite Hdb, update_read_messages in Hin.
  apply list_elem_of_In, in_map_iff in Hin as (m0 & <- & Hin0).
  pose proof (read_by_not_unread conversation_id user m0) as Hnot.
  unfold unread_from_others in Hnot. rewrite Hc in Hnot.
  apply String.eqb_neq in Hsender. rewrite Hsender, Z.eqb_refl in Hnot. simpl in Hnot.
  apply negb_false_iff in Hnot. split; [done|].
  rewrite forallb_forall in Hok. specialize (Hok m0 Hin0).
  apply message_ok_read; [|done]. by apply read_by_ok.
Qed.

Lemma mark_read_then_get_messages_witness :
  let w' := (mark_conversation_read (fun _ => true) false 1 (Some "B") unread_world).2 in
  let m := {| msg_id := 1; msg_conversation_id := 1; msg_sender_id := "A";
              msg_content := "one"; msg_timestamp := 10;
              msg_status := "read"; msg_is_read := true |} in
  m ∈ get_messages 1 (w_db w') ∧ msg_is_read m = true ∧ msg_status m = "read".
Proof.
  intros w' m.
  assert (Hin : m ∈ get_messages 1 (w_db w')) by (vm_compute; by left).
  split; [exact Hin|].
  apply (mark_read_then_get_messages (fun _ => true) false 1 "B" unread_world m);
    [reflexivity | discriminate | reflexivity | reflexivity | exact Hin | discriminate].
Defined.
